(** * plotnine: the dot-plot and point-range geoms

    A shallow embedding of [plotnine/geoms/geom_dotplot.py] and
    [plotnine/geoms/geom_pointrange.py].

    - Numbers.  Every cell the two geoms compute with is a Python float.
      Cells are modelled as exact rationals ([Q]); NaN, infinities and
      rounding are outside the model, and so is dividing by zero.  Two
      rationals denote the same number when they are [Qeq]-equal ([==]).
      Where rounding decides a property, the arithmetic is also given on
      binary64 floats ([box_x_float64]).
    - Data frames.  A [DataFrame] is the ordered list of its column names
      together with its rows; a row maps column names to cells.  The index
      is always the default [0..n-1] one (the code resets it).
    - Exceptions.  A computation that may raise returns a [result].
    - Mutation.  [setup_data] returns, besides its result, the caller's
      frame as the call leaves it.  The drawing methods run in a small
      state-and-exception monad over a heap of frames and the axes;
      [setup_data_at] is [setup_data] in that monad, statement by
      statement. *)

From Stdlib Require Import QArith Qround Qminmax Floats.
From stdpp Require Import gmap strings list sorting.

(** ** Python values and exceptions *)

Inductive exn :=
  | KeyError (key : string)
  | NameError (name : string)
  | ValueError (msg : string)
  | IndexError (i : nat).

Inductive result (A : Type) :=
  | Ok (a : A)
  | Raise (e : exn).
Arguments Ok {A} a.
Arguments Raise {A} e.

#[global] Instance result_ret : MRet result := @Ok.
#[global] Instance result_bind : MBind result :=
  λ A B f m, match m with Ok a => f a | Raise e => Raise e end.

Definition raises {A} (m : result A) : Prop := ∃ e, m = Raise e.

#[global] Instance Q_eq_dec : EqDecision Q.
Proof. solve_decision. Defined.
#[global] Instance Q_inhabited : Inhabited Q := populate 0%Q.
#[global] Instance exn_eq_dec : EqDecision exn.
Proof. solve_decision. Defined.
#[global] Instance result_eq_dec `{EqDecision A} : EqDecision (result A).
Proof. solve_decision. Defined.

(** [int(c)] on a float truncates towards zero. *)
Definition py_int (c : Q) : Z := Z.quot (Qnum c) (Z.pos (Qden c)).

(** [range(n)]: empty when [n <= 0]. *)
Definition py_range (n : Z) : list nat := seq 0 (Z.to_nat n).

(** An integer as a cell. *)
Definition of_nat (n : nat) : Q := inject_Z (Z.of_nat n).

(** [np.max] and [np.min] of a series; both raise on an empty one. *)
Definition np_max (a : list Q) : result Q :=
  match a with
  | [] => Raise (ValueError "zero-size array to reduction operation maximum")
  | x :: l => Ok (foldl Qmax x l)
  end.

Definition np_min (a : list Q) : result Q :=
  match a with
  | [] => Raise (ValueError "zero-size array to reduction operation minimum")
  | x :: l => Ok (foldl Qmin x l)
  end.

(** ** Data frames *)

Abbreviation row := (gmap string Q).

Record DataFrame := mkDataFrame {
  columns : list string;
  rows : list row
}.

#[global] Instance DataFrame_eq_dec : EqDecision DataFrame.
Proof. solve_decision. Defined.

Module pd.

(** [c in df] *)
Definition has_col (c : string) (df : DataFrame) : bool :=
  bool_decide (c ∈ columns df).

Definition get_cell (c : string) (r : row) : result Q :=
  match r !! c with
  | Some v => Ok v
  | None => Raise (KeyError c)
  end.

(** [df[c]] read as a series *)
Definition get_col (c : string) (df : DataFrame) : result (list Q) :=
  if has_col c df then mapM (get_cell c) (rows df) else Raise (KeyError c).

Definition add_col (c : string) (cols : list string) : list string :=
  if bool_decide (c ∈ cols) then cols else cols ++ [c].

(** [df[c] = series], the series having one value per row *)
Definition set_col (c : string) (vals : list Q) (df : DataFrame) : DataFrame :=
  {| columns := add_col c (columns df);
     rows := zip_with (λ r v, <[c := v]> r) (rows df) vals |}.

(** [df[c] = scalar] *)
Definition set_scalar (c : string) (v : Q) (df : DataFrame) : DataFrame :=
  {| columns := add_col c (columns df);
     rows := (λ r, <[c := v]> r) <$> rows df |}.

(** [df.iloc[idx]] followed by [reset_index(drop=True)] *)
Definition iloc (idx : list nat) (df : DataFrame) : result DataFrame :=
  rs ← mapM (λ i, match rows df !! i with
                  | Some r => Ok r
                  | None => Raise (IndexError i)
                  end) idx;
  Ok {| columns := columns df; rows := rs |}.

(** [series[0]] on a default index *)
Definition first (a : list Q) : result Q :=
  match a with
  | v :: _ => Ok v
  | [] => Raise (KeyError "0")
  end.

(** [df.empty] *)
Definition empty (df : DataFrame) : bool :=
  match columns df, rows df with
  | _ :: _, _ :: _ => false
  | _, _ => true
  end.

(** The key of a row under [df.groupby(cols)]: the cells of the key
    columns, each in lowest terms so that equal numbers give equal keys. *)
Definition row_key (cols : list string) (r : row) : result (list Q) :=
  mapM (λ c, v ← get_cell c r; Ok (Qred v)) cols.

(** Lexicographic order on keys, the order in which [groupby] yields
    the groups. *)
Fixpoint key_leb (a b : list Q) : bool :=
  match a, b with
  | [], _ => true
  | _ :: _, [] => false
  | x :: a', y :: b' =>
      match Qcompare x y with
      | Lt => true
      | Gt => false
      | Eq => key_leb a' b'
      end
  end.

Definition key_le (a b : list Q) : Prop := key_leb a b = true.

#[global] Instance key_le_dec : RelDecision key_le.
Proof. intros a b. unfold key_le. apply _. Defined.

(** The rows of the group with key [k]. *)
Definition group_rows (cols : list string) (k : list Q) (rs : list row) : list row :=
  filter (λ r, row_key cols r = Ok k) rs.

(** Union of column lists, in order of first appearance
    ([pd.concat] of frames along the rows). *)
Definition concat_columns (parts : list DataFrame) : list string :=
  foldl (λ acc d, foldl (λ acc c, add_col c acc) acc (columns d)) [] parts.

End pd.

(** Modelled from the spec: [plotnine.utils.groupby_apply], which the
    source calls but which is not part of the two files.  "Within each x,
    or x+group" (the comment at the call) the function is applied to the
    sub-frame of one group; the results are concatenated with a fresh
    index.  An empty frame is returned as a copy without calling the
    function; a key column that does not exist is a [KeyError]; groups come
    in ascending key order and keep the row order of the frame. *)
Definition groupby_apply (df : DataFrame) (cols : list string)
    (func : DataFrame → result DataFrame) : result DataFrame :=
  if pd.empty df then Ok df
  else
    _ ← mapM (λ c, if pd.has_col c df then Ok () else Raise (KeyError c)) cols;
    keys ← mapM (pd.row_key cols) (rows df);
    parts ← mapM (λ k, func {| columns := columns df;
                               rows := pd.group_rows cols k (rows df) |})
                 (merge_sort pd.key_le (remove_dups keys));
    Ok {| columns := pd.concat_columns parts;
          rows := concat (rows <$> parts) |}.

(** ** Frames by reference

    The drawing methods receive their frame by reference and write to it
    in place.  A state holds the frames that exist, addressed by position,
    and what has been drawn on the axes. *)

Module draw.

#[global] Instance DataFrame_inhabited : Inhabited DataFrame :=
  populate {| columns := []; rows := [] |}.

Section state.
Context {Artist : Type}.

Record state := mkState {
  heap : list DataFrame;
  axes : list Artist
}.

(** A computation that may raise; what it did before raising stays done. *)
Definition M (A : Type) : Type := state → result A * state.

Definition ret {A} (a : A) : M A := λ σ, (Ok a, σ).

Definition bind {A B} (m : M A) (f : A → M B) : M B :=
  λ σ, match m σ with
       | (Ok a, σ') => f a σ'
       | (Raise e, σ') => (Raise e, σ')
       end.

Definition lift {A} (r : result A) : M A := λ σ, (r, σ).

(** A reference always names a frame that exists; the properties below
    are stated for such references. *)
Definition load (l : nat) : M DataFrame := λ σ, (Ok (heap σ !!! l), σ).

Definition store (l : nat) (d : DataFrame) : M unit :=
  λ σ, (Ok (), {| heap := <[l := d]> (heap σ); axes := axes σ |}).

Definition alloc (d : DataFrame) : M nat :=
  λ σ, (Ok (length (heap σ)), {| heap := heap σ ++ [d]; axes := axes σ |}).

(** [data.copy()] *)
Definition copy (l : nat) : M nat := bind (load l) alloc.

(** [data[c]] *)
Definition read_col (l : nat) (c : string) : M (list Q) :=
  bind (load l) (λ d, lift (pd.get_col c d)).

(** [data[c] = series] *)
Definition write_col (l : nat) (c : string) (vals : list Q) : M unit :=
  bind (load l) (λ d, store l (pd.set_col c vals d)).

(** [data[c] = scalar] *)
Definition write_scalar (l : nat) (c : string) (v : Q) : M unit :=
  bind (load l) (λ d, store l (pd.set_scalar c v d)).

(** A method of another geom: it may write to the frame it is given and
    draws on the axes. *)
Definition method : Type :=
  DataFrame → list Artist → result unit * DataFrame * list Artist.

Definition call (f : method) (l : nat) : M unit :=
  λ σ, let '(r, d, ax) := f (heap σ !!! l) (axes σ) in
       (r, {| heap := <[l := d]> (heap σ); axes := ax |}).

(** [ax.add_collection(coll)] *)
Definition add_collection (a : Artist) : M unit :=
  λ σ, (Ok (), {| heap := heap σ; axes := axes σ ++ [a] |}).

End state.

Arguments state : clear implicits.
Arguments M : clear implicits.
Arguments method : clear implicits.

End draw.

Notation "x ⇐ m ; k" := (draw.bind m (λ x, k))
  (at level 20, m at level 100, k at level 200, only parsing, right associativity).
Notation "' pat ⇐ m ; k" := (draw.bind m (λ x, match x with pat => k end))
  (at level 20, pat pattern, m at level 100, k at level 200, only parsing,
   right associativity).

(** ** geom_dotplot *)

Module geom_dotplot.

Record geom_params := {
  position : string;
  stackdir : option string;
  stackratio : Q;
  dotsize : Q;
  stackgroups : bool
}.

(** The parameters of the layer's stat that [setup_data] reads. *)
Record stat_params := {
  method : string;
  binpositions : string;
  binaxis : string;
  width : option Q
}.

Inductive warning := PlotnineWarning (msg : string).

Definition warn_position : warning :=
  PlotnineWarning "position='stack' doesn't work properly with geom_dotplot. Use stackgroups=True instead.".

Definition warn_stackgroups : warning :=
  PlotnineWarning "geom_dotplot called with stackgroups=TRUE and method='dotdensity'. You probably want to set binpositions='all'".

(** What one call of [setup_data] does: the warnings it issues, the
    caller's frame as the call leaves it, and the frame it returns or the
    exception it raises. *)
Record outcome := {
  warnings : list warning;
  caller_data : DataFrame;
  returned : result DataFrame
}.

(** The three local names bound by the [if]/[elif] chain on [stackdir]. *)
Record stacking := {
  stackdots : list Q → result (list Q);
  stackaxismin : Q;
  stackaxismax : Q
}.

Definition stack_up : stacking :=
  {| stackdots a := Ok ((λ v, v - (1#2)) <$> a);
     stackaxismin := 0; stackaxismax := 1 |}%Q.

Definition stack_down : stacking :=
  {| stackdots a := Ok ((λ v, - v + (1#2)) <$> a);
     stackaxismin := -1; stackaxismax := 0 |}%Q.

Definition stack_center : stacking :=
  {| stackdots a :=
       m ← np_max ((λ v, v - 1) <$> a);
       Ok ((λ v, v - 1 - m / 2) <$> a);
     stackaxismin := -(1#2); stackaxismax := 1#2 |}%Q.

Definition stack_centerwhole : stacking :=
  {| stackdots a :=
       m ← np_max ((λ v, v - 1) <$> a);
       Ok ((λ v, v - 1 - inject_Z (Qfloor (m / 2))) <$> a);
     stackaxismin := -(1#2); stackaxismax := 1#2 |}%Q.

(** No branch of the chain runs for any other value: the names stay
    unbound. *)
Definition stack_setup (sd : option string) : option stacking :=
  match sd with
  | None => Some stack_up
  | Some s =>
      if decide (s = "up") then Some stack_up
      else if decide (s = "down") then Some stack_down
      else if decide (s = "center") then Some stack_center
      else if decide (s = "centerwhole") then Some stack_centerwhole
      else None
  end.

(** Reading a local name that may be unbound. *)
Definition local {A} (name : string) (v : option A) : result A :=
  match v with
  | Some a => Ok a
  | None => Raise (NameError name)
  end.

(** Truthiness of [sp['width']]: [None] and [0] are false. *)
Definition truthy (w : option Q) : option Q :=
  match w with
  | Some v => if Qeq_bool v 0 then None else Some v
  | None => None
  end.

Section setup.

(** [plotnine.utils.resolution(x, False)], taken as a total function:
    plotnine's raises [ValueError] on an empty series. *)
Variable resolution : list Q → Q.

Definition issue_warnings (gp : geom_params) (sp : stat_params) : list warning :=
  (if bool_decide (position gp = "stack") then [warn_position] else []) ++
  (if stackgroups gp
      && bool_decide (method sp = "dotdensity")
      && bool_decide (binpositions sp = "bygroup")
   then [warn_stackgroups] else []).

(** Lines 73-77; the assignment is to the caller's frame. *)
Definition setup_width (sp : stat_params) (data : DataFrame) : result DataFrame :=
  if pd.has_col "width" data then Ok data
  else match truthy (width sp) with
       | Some w => Ok (pd.set_scalar "width" w data)
       | None =>
           xs ← pd.get_col "x" data;
           Ok (pd.set_scalar "width" (resolution xs * (9#10))%Q data)
       end.

(** Lines 103-106: [count] copies of every row. *)
Definition fill_bins (data : DataFrame) : result DataFrame :=
  counts ← pd.get_col "count" data;
  let idx := concat (imap (λ i c, (λ _, i) <$> py_range (py_int c)) counts) in
  pd.iloc idx data.

Definition groupvars (gp : geom_params) (sp : stat_params) : list string :=
  [binaxis sp; "PANEL"] ++ (if stackgroups gp then [] else ["group"]).

(** Lines 116-119, applied to the frame of one stack. *)
Definition func (st : option stacking) (df : DataFrame) : result DataFrame :=
  let df := pd.set_col "countidx" (of_nat <$> seq 1 (length (rows df))) df in
  s ← local "stackdots" st;
  a ← pd.get_col "countidx" df;
  pos ← stackdots s a;
  Ok (pd.set_col "stackpos" pos df).

(** Lines 101-123. *)
Definition stack_bins (gp : geom_params) (sp : stat_params) (data : DataFrame)
    : result DataFrame :=
  data ← fill_bins data;
  groupby_apply data (groupvars gp sp) (func (stack_setup (stackdir gp))).

(** Lines 146-149; [data] is the frame of the enclosing scope. *)
Definition func_y (data : DataFrame) (df : DataFrame) : result DataFrame :=
  ys ← pd.get_col "y" df;
  lo ← np_min ys;
  bw ← pd.get_col "binwidth" data;
  b0 ← pd.first bw;
  let df := pd.set_scalar "ymin" (lo - b0 / 2)%Q df in
  ys ← pd.get_col "y" df;
  hi ← np_max ys;
  bw ← pd.get_col "binwidth" data;
  b0 ← pd.first bw;
  Ok (pd.set_scalar "ymax" (hi + b0 / 2)%Q df).

(** Lines 126-152. *)
Definition bounding_boxes (st : option stacking) (sp : stat_params)
    (data : DataFrame) : result DataFrame :=
  if decide (binaxis sp = "x") then
    xs ← pd.get_col "x" data;
    bw ← pd.get_col "binwidth" data;
    let data := pd.set_col "xmin" (zip_with Qminus xs ((λ b, b / 2)%Q <$> bw)) data in
    xs ← pd.get_col "x" data;
    bw ← pd.get_col "binwidth" data;
    let data := pd.set_col "xmax" (zip_with Qplus xs ((λ b, b / 2)%Q <$> bw)) data in
    s ← local "stackaxismin" st;
    let data := pd.set_scalar "ymin" (stackaxismin s) data in
    s ← local "stackaxismax" st;
    let data := pd.set_scalar "ymax" (stackaxismax s) data in
    Ok (pd.set_scalar "y" 0%Q data)
  else if decide (binaxis sp = "y") then
    data ← groupby_apply data ["group"] (func_y data);
    xs ← pd.get_col "x" data;
    ws ← pd.get_col "width" data;
    s ← local "stackaxismin" st;
    let data := pd.set_col "xmin" (zip_with Qplus xs ((λ w, w * stackaxismin s)%Q <$> ws)) data in
    xs ← pd.get_col "x" data;
    ws ← pd.get_col "width" data;
    s ← local "stackaxismax" st;
    Ok (pd.set_col "xmax" (zip_with Qplus xs ((λ w, w * stackaxismax s)%Q <$> ws)) data)
  else Ok data.

Definition setup_data (gp : geom_params) (sp : stat_params) (data : DataFrame)
    : outcome :=
  let ws := issue_warnings gp sp in
  match setup_width sp data with
  | Raise e => {| warnings := ws; caller_data := data; returned := Raise e |}
  | Ok data =>
      {| warnings := ws; caller_data := data;
         returned :=
           stacked ← stack_bins gp sp data;
           bounding_boxes (stack_setup (stackdir gp)) sp stacked |}
  end.

End setup.

(** *** setup_data on frames held by reference

    The same lines once more, with every frame in the heap.  [data] names
    the caller's frame until line 105 rebinds it to the frame [iloc]
    makes; each [groupby_apply] makes a frame of its own.  The assignments
    of lines 75-77 are to the caller's frame, those of lines 132-136 and
    151-152 to the frame [data] names by then.  The warnings of lines
    61-71 are [issue_warnings]. *)

Section setup_by_reference.

Context {Artist : Type}.
Variable resolution : list Q → Q.

(** Lines 73-77. *)
Definition setup_width_at (sp : stat_params) (data : nat) : draw.M Artist unit :=
  d ⇐ draw.load data;
  if pd.has_col "width" d then draw.ret ()
  else match truthy (width sp) with
       | Some w => draw.write_scalar data "width" w
       | None =>
           xs ⇐ draw.read_col data "x";
           draw.write_scalar data "width" (resolution xs * (9#10))%Q
       end.

(** Lines 101-123; the result is what [data] names afterwards. *)
Definition stack_bins_at (gp : geom_params) (sp : stat_params) (data : nat)
    : draw.M Artist nat :=
  counts ⇐ draw.read_col data "count";
  let idx := concat (imap (λ i c, (λ _, i) <$> py_range (py_int c)) counts) in
  d ⇐ draw.load data;
  filled ⇐ draw.lift (pd.iloc idx d);
  data ⇐ draw.alloc filled;
  d ⇐ draw.load data;
  stacked ⇐ draw.lift (groupby_apply d (groupvars gp sp)
                         (func (stack_setup (stackdir gp))));
  draw.alloc stacked.

(** Lines 126-154; the result is the frame returned. *)
Definition bounding_boxes_at (st : option stacking) (sp : stat_params) (data : nat)
    : draw.M Artist nat :=
  if decide (binaxis sp = "x") then
    xs ⇐ draw.read_col data "x";
    bw ⇐ draw.read_col data "binwidth";
    _ ⇐ draw.write_col data "xmin" (zip_with Qminus xs ((λ b, b / 2)%Q <$> bw));
    xs ⇐ draw.read_col data "x";
    bw ⇐ draw.read_col data "binwidth";
    _ ⇐ draw.write_col data "xmax" (zip_with Qplus xs ((λ b, b / 2)%Q <$> bw));
    s ⇐ draw.lift (local "stackaxismin" st);
    _ ⇐ draw.write_scalar data "ymin" (stackaxismin s);
    s ⇐ draw.lift (local "stackaxismax" st);
    _ ⇐ draw.write_scalar data "ymax" (stackaxismax s);
    _ ⇐ draw.write_scalar data "y" 0%Q;
    draw.ret data
  else if decide (binaxis sp = "y") then
    d ⇐ draw.load data;
    grouped ⇐ draw.lift (groupby_apply d ["group"] (func_y d));
    data ⇐ draw.alloc grouped;
    xs ⇐ draw.read_col data "x";
    ws ⇐ draw.read_col data "width";
    s ⇐ draw.lift (local "stackaxismin" st);
    _ ⇐ draw.write_col data "xmin"
          (zip_with Qplus xs ((λ w, w * stackaxismin s)%Q <$> ws));
    xs ⇐ draw.read_col data "x";
    ws ⇐ draw.read_col data "width";
    s ⇐ draw.lift (local "stackaxismax" st);
    _ ⇐ draw.write_col data "xmax"
          (zip_with Qplus xs ((λ w, w * stackaxismax s)%Q <$> ws));
    draw.ret data
  else draw.ret data.

Definition setup_data_at (gp : geom_params) (sp : stat_params) (data : nat)
    : draw.M Artist nat :=
  _ ⇐ setup_width_at sp data;
  data ⇐ stack_bins_at gp sp data;
  bounding_boxes_at (stack_setup (stackdir gp)) sp data.

End setup_by_reference.

(** *** Lines 132-133 on float64 cells

    [x - binwidth/2] and [x + binwidth/2] for one row, each operation
    rounded as IEEE 754 binary64 rounds it. *)
Definition box_x_float64 (x binwidth : float) : float * float :=
  (x - binwidth / 2, x + binwidth / 2)%float.

(** *** draw_group *)

(** [mpatches.Ellipse(xy, width=width, height=height)] *)
Record Ellipse := mkEllipse {
  center : Q * Q;
  ellipse_width : Q;
  ellipse_height : Q
}.

(** [mcoll.PatchCollection(circles, edgecolors=, facecolors=, rasterized=)] *)
Record PatchCollection (Colors : Type) := mkPatchCollection {
  patches : list Ellipse;
  edgecolors : Colors;
  facecolors : Colors;
  rasterized : bool
}.
Arguments patches {Colors} _.
Arguments edgecolors {Colors} _.
Arguments facecolors {Colors} _.
Arguments rasterized {Colors} _.

(** The keyword parameters [draw_group] reads. *)
Record draw_params := {
  p_dotsize : Q;
  p_stackratio : Q;
  p_binaxis : string;
  p_raster : bool
}.

(** What [coord.transform] hands back: the frame it was given, or a new
    one. *)
Inductive transformed :=
  | SameFrame
  | NewFrame (d : DataFrame).

(** [np.ptp] of a range [(lo, hi)] *)
Definition np_ptp (r : Q * Q) : Q := (Qmax (fst r) (snd r) - Qmin (fst r) (snd r))%Q.

Section draw.

Context {Colors PanelParams : Type}.

(** [coord.transform(data, panel_params)]: the result and the frame it
    was given as the call leaves it. *)
Variable coord_transform : DataFrame → PanelParams → result transformed * DataFrame.
(** [coord.range(panel_params)]: [(ranges.x, ranges.y)] *)
Variable coord_range : PanelParams → (Q * Q) * (Q * Q).
(** [plotnine.utils.to_rgba] *)
Variable to_rgba : list Q → list Q → result Colors.
(** Width and height of the axes in inches. *)
Variables ax_width ax_height : Q.

Definition transform (data : nat) (panel_params : PanelParams)
    : draw.M (PatchCollection Colors) nat :=
  λ σ, let '(r, d) := coord_transform (draw.heap σ !!! data) panel_params in
       let σ' := {| draw.heap := <[data := d]> (draw.heap σ);
                    draw.axes := draw.axes σ |} in
       match r with
       | Raise e => (Raise e, σ')
       | Ok SameFrame => (Ok data, σ')
       | Ok (NewFrame d') => draw.alloc d' σ'
       end.

Definition factor (panel_params : PanelParams) : Q :=
  let ranges := coord_range panel_params in
  ((ax_width / ax_height) * np_ptp (snd ranges) / np_ptp (fst ranges))%Q.

Definition draw_group (data : nat) (panel_params : PanelParams)
    (params : draw_params) : draw.M (PatchCollection Colors) unit :=
  data ⇐ transform data panel_params;
  f ⇐ draw.read_col data "fill";
  a ⇐ draw.read_col data "alpha";
  fill ⇐ draw.lift (to_rgba f a);
  c ⇐ draw.read_col data "color";
  a ⇐ draw.read_col data "alpha";
  color ⇐ draw.lift (to_rgba c a);
  let factor := factor panel_params in
  bw ⇐ draw.read_col data "binwidth";
  b0 ⇐ draw.lift (pd.first bw);
  let size := (b0 * p_dotsize params)%Q in
  pos ⇐ draw.read_col data "stackpos";
  let offsets := (λ v, v * p_stackratio params)%Q <$> pos in
  shape ⇐
    (if decide (p_binaxis params = "x") then
       let width := size in
       let height := (size * factor)%Q in
       xs ⇐ draw.read_col data "x";
       ys ⇐ draw.read_col data "y";
       draw.ret (Some (width, height, xs,
                       zip_with Qplus ys ((λ o, height * o)%Q <$> offsets)))
     else if decide (p_binaxis params = "y") then
       let width := (size / factor)%Q in
       let height := size in
       xs ⇐ draw.read_col data "x";
       ys ⇐ draw.read_col data "y";
       draw.ret (Some (width, height,
                       zip_with Qplus xs ((λ o, width * o)%Q <$> offsets), ys))
     else draw.ret None);
  '(width, height, xpos, ypos) ⇐ draw.lift (local "xpos" shape);
  let circles := zip_with (λ x y, mkEllipse (x, y) width height) xpos ypos in
  draw.add_collection
    {| patches := circles; edgecolors := color; facecolors := fill;
       rasterized := p_raster params |}.

End draw.

(** *** Class attributes and the legend key *)

(** [DEFAULT_PARAMS], the entries this file reads ([stat] and [na_rm] are
    read elsewhere). *)
Definition DEFAULT_PARAMS : geom_params :=
  {| position := "identity"; stackdir := Some "up"; stackratio := 1;
     dotsize := 1; stackgroups := false |}.

(** [mlines.Line2D(xdata, ydata, alpha=, marker=, markersize=,
    markerfacecolor=, markeredgecolor=)] *)
Record Line2D := mkLine2D {
  xdata : list Q;
  ydata : list Q;
  line_alpha : Q;
  marker : string;
  markersize : Q;
  markerfacecolor : Q;
  markeredgecolor : Q
}.

(** The legend box: its size and the artists added to it so far. *)
Record DrawingArea := mkDrawingArea {
  da_width : Q;
  da_height : Q;
  da_artists : list Line2D
}.

(** [draw_legend(data, da, lyr)]; [data] is one row, [lyr] is not read.
    The box is changed in place and returned: the result is the box as the
    call leaves it. *)
Definition draw_legend (data : row) (da : DrawingArea) : result DrawingArea :=
  alpha ← pd.get_cell "alpha" data;
  fill ← pd.get_cell "fill" data;
  color ← pd.get_cell "color" data;
  let key := {| xdata := [(1#2) * da_width da]%Q;
                ydata := [(1#2) * da_height da]%Q;
                line_alpha := alpha;
                marker := "o";
                markersize := (da_width da / 2)%Q;
                markerfacecolor := fill;
                markeredgecolor := color |} in
  Ok {| da_width := da_width da; da_height := da_height da;
        da_artists := da_artists da ++ [key] |}.

End geom_dotplot.

(** ** geom_pointrange *)

Module geom_pointrange.

Section draw.

Context {Artist PanelParams Coord Params : Type}.

(** The signature of a geom's [draw_group], seen from its caller. *)
Definition geom_draw : Type :=
  DataFrame → PanelParams → Coord → list Artist → Params →
  result unit * DataFrame * list Artist.

(** [geom_linerange.draw_group] and [geom_point.draw_group] *)
Variable geom_linerange_draw_group : geom_draw.
Variable geom_point_draw_group : geom_draw.
(** [geom_point.DEFAULT_AES['stroke']] *)
Variable geom_point_stroke : Q.
(** [params['fatten']] *)
Variable fatten : Params → result Q.

Definition draw_group (data : nat) (panel_params : PanelParams) (coord : Coord)
    (params : Params) : draw.M Artist unit :=
  c ⇐ draw.copy data;
  _ ⇐ draw.call (λ d ax, geom_linerange_draw_group d panel_params coord ax params) c;
  size ⇐ draw.read_col data "size";
  f ⇐ draw.lift (fatten params);
  _ ⇐ draw.write_col data "size" ((λ v, v * f)%Q <$> size);
  _ ⇐ draw.write_scalar data "stroke" geom_point_stroke;
  draw.call (λ d ax, geom_point_draw_group d panel_params coord ax params) data.

(** The frame [geom_point] is to draw: [size] multiplied by [fatten] and
    a [stroke] column with the default stroke. *)
Definition fattened (params : Params) (d : DataFrame) : result DataFrame :=
  size ← pd.get_col "size" d;
  f ← fatten params;
  Ok (pd.set_scalar "stroke" geom_point_stroke
        (pd.set_col "size" ((λ v, v * f)%Q <$> size) d)).

(** The composition the documentation describes: the line range drawn
    from a copy of the data, then the point drawn from the fattened data.
    It gives the outcome and the axes; frames are values here. *)
Definition linerange_then_point (d : DataFrame) (panel_params : PanelParams)
    (coord : Coord) (params : Params) (ax : list Artist) : result unit * list Artist :=
  let '(r, _, ax) := geom_linerange_draw_group d panel_params coord ax params in
  match r with
  | Raise e => (Raise e, ax)
  | Ok _ =>
      match fattened params d with
      | Raise e => (Raise e, ax)
      | Ok d' =>
          let '(r, _, ax) := geom_point_draw_group d' panel_params coord ax params in
          (r, ax)
      end
  end.

End draw.

(** *** draw_legend *)

(** The outcome of a method that starts with an [assert]. *)
Inductive asserted (A : Type) :=
  | AssertionError
  | Asserted (a : A).
Arguments AssertionError {A}.
Arguments Asserted {A} a.

Section legend.

Context {Artist Layer Params : Type}.

(** The signature of a geom's [draw_legend], seen from its caller: the
    data, what the drawing area holds, the layer. *)
Definition geom_legend : Type :=
  DataFrame → list Artist → Layer → result unit * DataFrame * list Artist.

(** [geom_path.draw_legend] and [geom_point.draw_legend] *)
Variable geom_path_draw_legend : geom_legend.
Variable geom_point_draw_legend : geom_legend.
(** [geom_point.DEFAULT_AES['stroke']] *)
Variable geom_point_stroke : Q.
(** [lyr.geom] *)
Variable lyr_geom : Layer → option Params.
(** [params['fatten']] *)
Variable fatten : Params → result Q.

(** The state's [axes] are the contents of the drawing area [da]; the
    method returns [da] itself. *)
Definition draw_legend (data : nat) (lyr : Layer)
    : draw.state Artist → asserted (result unit * draw.state Artist) :=
  λ σ, match lyr_geom lyr with
       | None => AssertionError
       | Some geom =>
           Asserted
             ((_ ⇐ draw.call (λ d da, geom_path_draw_legend d da lyr) data;
               size ⇐ draw.read_col data "size";
               f ⇐ draw.lift (fatten geom);
               _ ⇐ draw.write_col data "size" ((λ v, v * f)%Q <$> size);
               _ ⇐ draw.write_scalar data "stroke" geom_point_stroke;
               draw.call (λ d da, geom_point_draw_legend d da lyr) data) σ)
       end.

End legend.

End geom_pointrange.

(** ** Specification vocabulary *)

Module dotplot_spec.
Import geom_dotplot.

(** The stacking rule of each direction: in a stack whose [countidx]
    series is [stack], the dot with index [countidx] sits at the position
    given last. *)
Inductive stack_rule (stack : list Q) (countidx : Q) : option string → Q → Prop :=
  | rule_default :
      stack_rule stack countidx None (countidx - (1#2))%Q
  | rule_up :
      stack_rule stack countidx (Some "up") (countidx - (1#2))%Q
  | rule_down :
      stack_rule stack countidx (Some "down") (- countidx + (1#2))%Q
  | rule_center m :
      np_max ((λ c, c - 1)%Q <$> stack) = Ok m →
      stack_rule stack countidx (Some "center") (countidx - 1 - m / 2)%Q
  | rule_centerwhole m :
      np_max ((λ c, c - 1)%Q <$> stack) = Ok m →
      stack_rule stack countidx (Some "centerwhole")
        (countidx - 1 - inject_Z (Qfloor (m / 2)))%Q.

(** The range of the stack axis for each direction. *)
Definition stack_axis (sd : option string) : option (Q * Q) :=
  match sd with
  | None => Some (0, 1)%Q
  | Some s =>
      if decide (s = "up") then Some (0, 1)%Q
      else if decide (s = "down") then Some (-1, 0)%Q
      else if decide (s = "center" ∨ s = "centerwhole")
           then Some (-(1#2), 1#2)%Q
      else None
  end.

Definition recognized (sd : option string) : Prop :=
  sd = None ∨ sd = Some "up" ∨ sd = Some "down" ∨
  sd = Some "center" ∨ sd = Some "centerwhole".

(** The [countidx] series of a stack of [n] dots. *)
Definition countidx_series (n : nat) : list Q := of_nat <$> seq 1 n.

(** Number of dots a row stands for. *)
Definition copies (r : row) : nat := Z.to_nat (py_int (r !!! "count")).

(** The rows of a frame with every row repeated [copies] times. *)
Definition replicated (rs : list row) : list row :=
  r ← rs; replicate (copies r) r.

(** A dot of a stack of [n]: it carries an index between 1 and [n] and the
    position the rule gives that index. *)
Definition stacked_dot (sd : option string) (r : row) : Prop :=
  ∃ (n i : nat) (pos : Q),
    1 ≤ i ≤ n ∧ r !! "countidx" = Some (of_nat i) ∧ r !! "stackpos" = Some pos ∧
    stack_rule (countidx_series n) (of_nat i) sd pos.

(** A dot with its index in the stack and the position that goes with it. *)
Definition number_row (g : Q → Q) (r : row) (ci : Q) : row :=
  <["stackpos" := g ci]> (<["countidx" := ci]> r).

(** A row without the two columns the stacking step writes. *)
Definition unstacked (r : row) : row := delete "countidx" (delete "stackpos" r).

(** The bounding box of a stack when binning along x. *)
Definition bbox_x (s : stacking) (r : row) : row :=
  <["y" := 0%Q]> (<["ymax" := stackaxismax s]> (<["ymin" := stackaxismin s]>
  (<["xmax" := (r !!! "x" + r !!! "binwidth" / 2)%Q]>
  (<["xmin" := (r !!! "x" - r !!! "binwidth" / 2)%Q]> r)))).

(** Column [c] exists and no row lacks it. *)
Definition column_filled (c : string) (df : DataFrame) : Prop :=
  c ∈ columns df ∧ Forall (λ r : row, is_Some (r !! c)) (rows df).

(** The frame [draw_group] draws from: what its local name [data] refers
    to once [coord.transform] has returned. *)
Definition frame_drawn (t : result transformed * DataFrame) : option DataFrame :=
  match t with
  | (Ok SameFrame, d) => Some d
  | (Ok (NewFrame d'), _) => Some d'
  | (Raise _, _) => None
  end.

(** The ellipse drawn for one row, from the diameter [size], the aspect
    [factor] and the [stackratio]. *)
Definition dot_ellipse (binaxis : string) (size factor stackratio : Q) (r : row)
    : Ellipse :=
  if decide (binaxis = "x") then
    mkEllipse (r !!! "x", r !!! "y" + (size * factor) * (r !!! "stackpos" * stackratio))%Q
              size (size * factor)%Q
  else
    mkEllipse (r !!! "x" + (size / factor) * (r !!! "stackpos" * stackratio), r !!! "y")%Q
              (size / factor)%Q size.

(** The columns [setup_data] may write. *)
Definition written_columns : list string :=
  ["width"; "countidx"; "stackpos"; "xmin"; "xmax"; "ymin"; "ymax"; "y"].

(** Row [r] is row [r0] on every column outside [cs]. *)
Definition same_outside (cs : list string) (r r0 : row) : Prop :=
  ∀ c, c ∉ cs → r !! c = r0 !! c.

(** The number of dots a frame stands for. *)
Definition dot_count (rs : list row) : nat := sum_list (copies <$> rs).

(** A column read as a series, absent cells read as 0. *)
Definition series (c : string) (df : DataFrame) : list Q :=
  (λ r : row, r !!! c) <$> rows df.

(** The [width] a frame without one gets. *)
Definition default_width (resolution : list Q → Q) (sp : stat_params)
    (data : DataFrame) : Q :=
  match truthy (width sp) with
  | Some w => w
  | None => (resolution (series "x" data) * (9#10))%Q
  end.

(** The columns the bounding-box step writes, by bin axis. *)
Definition box_columns (sp : stat_params) : list string :=
  if decide (binaxis sp = "x") then ["xmin"; "xmax"; "ymin"; "ymax"; "y"]
  else if decide (binaxis sp = "y") then ["ymin"; "ymax"; "xmin"; "xmax"]
  else [].

(** A dot placed in a stack of [n]: it carries some index and the position
    the rule of the direction gives that index in a stack of [n]. *)
Definition placed_dot (sd : option string) (n : nat) (r : row) : Prop :=
  ∃ ci pos, r !! "countidx" = Some ci ∧ r !! "stackpos" = Some pos ∧
            stack_rule (countidx_series n) ci sd pos.

(** What a run of [setup_data_at] hands back: the frame its result names,
    or the exception. *)
Definition frame_returned {Artist} (run : result nat * draw.state Artist)
    : result DataFrame :=
  l ← fst run; Ok (draw.heap (snd run) !!! l).

End dotplot_spec.

(** ** Sample data *)

Module examples.
Import geom_dotplot.

Definition mkrow (x y count binwidth panel group : Q) : row :=
  <["x" := x]> (<["y" := y]> (<["count" := count]> (<["binwidth" := binwidth]>
  (<["PANEL" := panel]> (<["group" := group]> ∅))))).

Definition cols0 : list string := ["x"; "y"; "count"; "binwidth"; "PANEL"; "group"].

(** Three bins holding 2, 3 and 0 observations. *)
Definition df0 : DataFrame :=
  {| columns := cols0;
     rows := [mkrow 2 0 2 1 1 1; mkrow 1 0 3 1 1 1; mkrow 5 0 0 1 1 1] |}.

(** A frame whose only bin is empty. *)
Definition df_zero : DataFrame :=
  {| columns := cols0; rows := [mkrow 5 0 0 1 1 1] |}.

Definition gp0 : geom_params :=
  {| position := "identity"; stackdir := Some "center"; stackratio := 1;
     dotsize := 1; stackgroups := false |}.

Definition gp_stack : geom_params :=
  {| position := "stack"; stackdir := Some "up"; stackratio := 1;
     dotsize := 1; stackgroups := true |}.

Definition gp_sideways : geom_params :=
  {| position := "identity"; stackdir := Some "sideways"; stackratio := 1;
     dotsize := 1; stackgroups := false |}.

Definition sp0 : stat_params :=
  {| method := "dotdensity"; binpositions := "bygroup"; binaxis := "x";
     width := Some (9#10) |}.

Definition sp_z : stat_params :=
  {| method := "dotdensity"; binpositions := "bygroup"; binaxis := "z";
     width := Some (9#10) |}.

Definition res0 (_ : list Q) : Q := 1.

Definition frame_of (r : result DataFrame) : DataFrame :=
  match r with Ok d => d | Raise _ => {| columns := []; rows := [] |} end.

(** What [setup_data] returns for [df0]. *)
Definition out0 : DataFrame :=
  Eval vm_compute in frame_of (returned (setup_data res0 gp0 sp0 df0)).

Definition first_row (d : DataFrame) : row :=
  match rows d with r :: _ => r | [] => ∅ end.

Definition dot0 : row := Eval vm_compute in first_row out0.

(** A group of two dots for [draw_group], with different bin widths. *)
Definition mkdot (x y stackpos binwidth fill color alpha : Q) : row :=
  <["x" := x]> (<["y" := y]> (<["stackpos" := stackpos]> (<["binwidth" := binwidth]>
  (<["fill" := fill]> (<["color" := color]> (<["alpha" := alpha]> ∅)))))).

Definition dots : DataFrame :=
  {| columns := ["x"; "y"; "stackpos"; "binwidth"; "fill"; "color"; "alpha"];
     rows := [mkdot 1 0 (1#2) 2 0 0 1; mkdot 1 0 (3#2) 7 0 0 1] |}.

Definition draw_x : draw_params :=
  {| p_dotsize := 1; p_stackratio := 1; p_binaxis := "x"; p_raster := false |}.

Definition identity_transform (d : DataFrame) (_ : unit) : result transformed * DataFrame :=
  (Ok SameFrame, d).

Definition ranges0 (_ : unit) : (Q * Q) * (Q * Q) := ((0, 4), (0, 2))%Q.

Definition rgba0 (c a : list Q) : result (list (Q * Q)) := Ok (zip c a).

Definition σ_dots : draw.state (PatchCollection (list (Q * Q))) :=
  {| draw.heap := [dots]; draw.axes := [] |}.

Definition drawn : result unit * draw.state (PatchCollection (list (Q * Q))) :=
  Eval vm_compute in draw_group identity_transform ranges0 rgba0 6 4 0 () draw_x σ_dots.

(** A point range: the two component geoms only draw. *)
Definition interval : DataFrame :=
  {| columns := ["x"; "y"; "ymin"; "ymax"; "size"];
     rows := [<["x" := 1]> (<["y" := 1]> (<["ymin" := 0]> (<["ymax" := 2]>
              (<["size" := (1#2)]> ∅))))]%Q |}.

Definition draws (name : string) : @geom_pointrange.geom_draw string unit unit Q :=
  λ d _ _ ax _, (Ok (), d, ax ++ [name]).

Definition σ_interval : draw.state string :=
  {| draw.heap := [interval]; draw.axes := [] |}.

Definition pointrange_run : result unit * draw.state string :=
  geom_pointrange.draw_group (draws "linerange") (draws "point") (1#2) Ok
    0 () () 4%Q σ_interval.

(** The frame [geom_point] gets for [interval] with [fatten = 4]. *)
Definition fat_interval : DataFrame :=
  Eval vm_compute in frame_of (geom_pointrange.fattened (1#2) Ok 4%Q interval).

(** Binning along y. *)
Definition sp_y : stat_params :=
  {| method := "dotdensity"; binpositions := "bygroup"; binaxis := "y";
     width := Some (9#10) |}.

Definition df_y : DataFrame :=
  {| columns := cols0;
     rows := [mkrow 0 2 2 1 1 1; mkrow 0 5 1 1 1 1] |}.

Definition out_y : DataFrame :=
  Eval vm_compute in frame_of (returned (setup_data res0 gp0 sp_y df_y)).

(** A frame without a [count] column. *)
Definition df_nocount : DataFrame :=
  {| columns := ["x"; "y"]; rows := [<["x" := 1%Q]> (<["y" := 0%Q]> ∅)] |}.

(** One stack of three dots, before it is numbered. *)
Definition stack3 : DataFrame :=
  {| columns := cols0; rows := [mkrow 1 0 3 1 1 1; mkrow 1 0 3 1 1 1; mkrow 1 0 3 1 1 1] |}.

Definition numbered3 : DataFrame :=
  Eval vm_compute in frame_of (func (stack_setup (Some "center")) stack3).

Definition numbered3_whole : DataFrame :=
  Eval vm_compute in frame_of (func (stack_setup (Some "centerwhole")) stack3).

Definition numbered3_down : DataFrame :=
  Eval vm_compute in frame_of (func (stack_setup (Some "down")) stack3).

Definition numbered3_up : DataFrame :=
  Eval vm_compute in frame_of (func (stack_setup (Some "up")) stack3).

(** What [setup_data] returns for [df0] under the default parameters. *)
Definition out_default : DataFrame :=
  Eval vm_compute in frame_of (returned (setup_data res0 DEFAULT_PARAMS sp0 df0)).

Definition nth_row (i : nat) (d : DataFrame) : row := default ∅ (rows d !! i).

(** An empty group and an unknown bin axis for [draw_group]. *)
Definition no_dots : DataFrame :=
  {| columns := ["x"; "y"; "stackpos"; "binwidth"; "fill"; "color"; "alpha"];
     rows := [] |}.

Definition σ_no_dots : draw.state (PatchCollection (list (Q * Q))) :=
  {| draw.heap := [no_dots]; draw.axes := [] |}.

(** A point range without a [size] column. *)
Definition interval_nosize : DataFrame :=
  {| columns := ["x"; "y"; "ymin"; "ymax"];
     rows := [<["x" := 1]> (<["y" := 1]> (<["ymin" := 0]> (<["ymax" := 2]> ∅)))]%Q |}.

Definition σ_nosize : draw.state string :=
  {| draw.heap := [interval_nosize]; draw.axes := [] |}.

(** A legend row and box. *)
Definition key_row : row :=
  <["alpha" := 1%Q]> (<["fill" := 0%Q]> (<["color" := 0%Q]> (<["size" := (1#2)%Q]> ∅))).

Definition box : DrawingArea :=
  {| da_width := 20; da_height := 10; da_artists := [] |}.

Definition legend_draws (name : string) : @geom_pointrange.geom_legend string unit :=
  λ d da _, (Ok (), d, da ++ [name]).

(** The sample frame as the only frame, and among others. *)
Definition σ_alone : draw.state unit :=
  {| draw.heap := [df0]; draw.axes := [] |}.

Definition σ_crowded : draw.state unit :=
  {| draw.heap := [df_y; df0; no_dots]; draw.axes := [()] |}.

End examples.

(** * Properties *)

(** ** The exception monad *)

Lemma bind_Ok {A B} (m : result A) (f : A → result B) (b : B) :
  m ≫= f = Ok b → ∃ a, m = Ok a ∧ f a = Ok b.
Proof. destruct m as [a|e]; simpl; [eauto | discriminate]. Qed.

Lemma bind_raises {A B} (m : result A) (f : A → result B) :
  (∀ a, m = Ok a → raises (f a)) → raises (m ≫= f).
Proof. destruct m as [a|e]; simpl; [eauto | intros _; by exists e]. Qed.

Ltac inv_bind H :=
  let a := fresh "a" in
  let Ha := fresh "H" a in
  let H' := fresh in
  apply bind_Ok in H; destruct H as (a & Ha & H'); rename H' into H.

Lemma mapM_Ok {A B} (f : A → result B) (l : list A) (k : list B) :
  mapM f l = Ok k ↔ Forall2 (λ x y, f x = Ok y) l k.
Proof.
  revert k. induction l as [|x l IH]; intros k; simpl.
  - split; [intros [= <-]; constructor | by inversion 1].
  - split.
    + intros H. inv_bind H. inv_bind H. injection H as <-.
      constructor; [done | by apply IH].
    + inversion 1 as [|? y ? k' Hx Hl]; subst. rewrite Hx. simpl.
      apply IH in Hl. rewrite Hl. done.
Qed.

Lemma mapM_Ok_length {A B} (f : A → result B) (l : list A) (k : list B) :
  mapM f l = Ok k → length k = length l.
Proof. rewrite mapM_Ok. intros H. symmetry. by eapply Forall2_length. Qed.

Lemma mapM_Ok_total {A B} (f : A → result B) (g : A → B) (l : list A) (k : list B) :
  (∀ x y, f x = Ok y → y = g x) → mapM f l = Ok k → k = g <$> l.
Proof.
  intros Hg. rewrite mapM_Ok. induction 1 as [|x y l k Hx _ IH]; simpl; [done|].
  by rewrite (Hg _ _ Hx), IH.
Qed.

Lemma mapM_raises_head {A B} (f : A → result B) (x : A) (l : list A) :
  raises (f x) → raises (mapM f (x :: l)).
Proof. intros [e He]. exists e. simpl. by rewrite He. Qed.

(** ** Columns and rows *)

Lemma get_cell_Ok c (r : row) v : pd.get_cell c r = Ok v ↔ r !! c = Some v.
Proof. unfold pd.get_cell. destruct (r !! c); split; congruence. Qed.

Lemma get_col_Ok c df vs :
  pd.get_col c df = Ok vs →
  c ∈ columns df ∧ vs = (λ r : row, r !!! c) <$> rows df ∧
  Forall (λ r : row, is_Some (r !! c)) (rows df).
Proof.
  unfold pd.get_col, pd.has_col. case_bool_decide as Hc; [|discriminate].
  intros Hm. split; [done|]. split.
  - eapply mapM_Ok_total; [|exact Hm]. intros r v Hv.
    apply get_cell_Ok in Hv. by rewrite lookup_total_alt, Hv.
  - apply mapM_Ok in Hm. induction Hm as [|r v ? ? Hv _ IH]; constructor; [|done].
    apply get_cell_Ok in Hv. eauto.
Qed.

Lemma elem_of_add_col c c' cols : c ∈ pd.add_col c' cols ↔ c = c' ∨ c ∈ cols.
Proof.
  unfold pd.add_col. case_bool_decide as Hc.
  - split; [by right | by intros [->|?]].
  - rewrite elem_of_app, list_elem_of_singleton. tauto.
Qed.

Lemma zip_with_fmap_same {A B C} (f : A → B → C) (g : A → B) (l : list A) :
  zip_with f l (g <$> l) = (λ x, f x (g x)) <$> l.
Proof. induction l as [|x l IH]; csimpl; [done | by rewrite IH]. Qed.

Lemma zip_with_fmap_both {A B C D} (f : B → C → D) (g : A → B) (h : A → C) (l : list A) :
  zip_with f (g <$> l) (h <$> l) = (λ x, f (g x) (h x)) <$> l.
Proof. induction l as [|x l IH]; csimpl; [done | by rewrite IH]. Qed.

(** Assigning a series computed row by row is a row-by-row update. *)
Lemma rows_set_col c (g : row → Q) df :
  rows (pd.set_col c (g <$> rows df) df) = (λ r, <[c := g r]> r) <$> rows df.
Proof. simpl. apply zip_with_fmap_same. Qed.

Lemma get_col_rows_fmap c df (T : row → row) (l : list row) vs :
  rows df = T <$> l → (∀ r, T r !!! c = r !!! c) →
  pd.get_col c df = Ok vs → vs = (λ r : row, r !!! c) <$> l.
Proof.
  intros Hrows HT Hget. apply get_col_Ok in Hget as (_ & -> & _).
  rewrite Hrows, <- list_fmap_compose. apply list_fmap_ext. intros _ r _. apply HT.
Qed.

Lemma rows_set_col_fmap c (g : row → Q) (T : row → row) (l : list row) df vs :
  rows df = T <$> l → vs = g <$> l →
  rows (pd.set_col c vs df) = (λ r, <[c := g r]> (T r)) <$> l.
Proof.
  intros Hrows ->. simpl. rewrite Hrows.
  exact (zip_with_fmap_both (λ (r : row) v, <[c := v]> r) T g l).
Qed.

Lemma rows_set_scalar_fmap c v (T : row → row) (l : list row) df :
  rows df = T <$> l →
  rows (pd.set_scalar c v df) = (λ r, <[c := v]> (T r)) <$> l.
Proof. intros Hrows. simpl. rewrite Hrows. by rewrite <- list_fmap_compose. Qed.

(** [df[c] = df[a] op h(df[b])] *)
Lemma rows_assign_binop c a b (f : Q → Q → Q) (h : Q → Q) (T : row → row)
    (l : list row) df xs ys :
  rows df = T <$> l →
  (∀ r, T r !!! a = r !!! a) → (∀ r, T r !!! b = r !!! b) →
  pd.get_col a df = Ok xs → pd.get_col b df = Ok ys →
  rows (pd.set_col c (zip_with f xs (h <$> ys)) df)
  = (λ r, <[c := f (r !!! a) (h (r !!! b))]> (T r)) <$> l.
Proof.
  intros Hrows Ha Hb Hxs Hys.
  apply (get_col_rows_fmap _ _ _ _ _ Hrows Ha) in Hxs.
  apply (get_col_rows_fmap _ _ _ _ _ Hrows Hb) in Hys. subst xs ys.
  apply rows_set_col_fmap; [done|].
  by rewrite <- list_fmap_compose, zip_with_fmap_both.
Qed.

Import geom_dotplot dotplot_spec.

Tactic Notation "inv_bind" hyp(H) "as" ident(a) ident(Ha) :=
  let H' := fresh in
  apply bind_Ok in H; destruct H as (a & Ha & H'); rename H' into H.

Lemma local_Ok {A} name (v : option A) a : local name v = Ok a → v = Some a.
Proof. destruct v; simpl; congruence. Qed.

Lemma stack_setup_recognized sd s :
  stack_setup sd = Some s ↔
  (sd = None ∧ s = stack_up) ∨ (sd = Some "up" ∧ s = stack_up) ∨
  (sd = Some "down" ∧ s = stack_down) ∨ (sd = Some "center" ∧ s = stack_center) ∨
  (sd = Some "centerwhole" ∧ s = stack_centerwhole).
Proof.
  split.
  - destruct sd as [d|]; simpl; [|intros [= <-]; by left].
    repeat case_decide; subst; intros [= <-]; tauto.
  - intros [[-> ->]|[[-> ->]|[[-> ->]|[[-> ->]|[-> ->]]]]]; reflexivity.
Qed.

Lemma stack_setup_axis sd s :
  stack_setup sd = Some s → stack_axis sd = Some (stackaxismin s, stackaxismax s).
Proof.
  rewrite stack_setup_recognized.
  intros [[-> ->]|[[-> ->]|[[-> ->]|[[-> ->]|[-> ->]]]]]; reflexivity.
Qed.

Lemma bounding_boxes_x st sp data out :
  binaxis sp = "x" → bounding_boxes st sp data = Ok out →
  ∃ s, st = Some s ∧ rows out = bbox_x s <$> rows data ∧
       Forall (λ r : row, is_Some (r !! "x") ∧ is_Some (r !! "binwidth")) (rows data).
Proof.
  intros Hx H. unfold bounding_boxes in H. rewrite decide_True in H by done.
  inv_bind H as xs Hxs. inv_bind H as bw Hbw.
  inv_bind H as xs' Hxs'. inv_bind H as bw' Hbw'.
  inv_bind H as s Hs. inv_bind H as s' Hs'. injection H as <-.
  apply local_Ok in Hs. apply local_Ok in Hs'. subst st. injection Hs' as <-.
  exists s. split; [done|]. split.
  - pose proof (rows_assign_binop "xmin" "x" "binwidth" Qminus (λ b, b / 2)%Q
      id (rows data) data xs bw (eq_sym (list_fmap_id _))
      (λ _, eq_refl) (λ _, eq_refl) Hxs Hbw) as R1.
    pose proof (rows_assign_binop "xmax" "x" "binwidth" Qplus (λ b, b / 2)%Q
      _ (rows data) _ xs' bw' R1) as R2.
    lapply R2; [clear R2; intros R2 | intros r; by rewrite lookup_total_insert_ne].
    lapply R2; [clear R2; intros R2 | intros r; by rewrite lookup_total_insert_ne].
    specialize (R2 Hxs' Hbw').
    pose proof (rows_set_scalar_fmap "ymin" (stackaxismin s) _ _ _ R2) as R3.
    pose proof (rows_set_scalar_fmap "ymax" (stackaxismax s) _ _ _ R3) as R4.
    pose proof (rows_set_scalar_fmap "y" 0%Q _ _ _ R4) as R5.
    exact R5.
  - apply get_col_Ok in Hxs as (_ & _ & F1). apply get_col_Ok in Hbw as (_ & _ & F2).
    rewrite Forall_forall in F1, F2. apply Forall_forall. intros r Hr. eauto.
Qed.

(** ** Grouping *)

Lemma groupby_apply_Ok df cols f out :
  groupby_apply df cols f = Ok out →
  (pd.empty df = true ∧ out = df) ∨
  (pd.empty df = false ∧ Forall (λ c, c ∈ columns df) cols ∧
   ∃ keys parts,
     Forall2 (λ r k, pd.row_key cols r = Ok k) (rows df) keys ∧
     Forall2 (λ k p, f {| columns := columns df;
                          rows := pd.group_rows cols k (rows df) |} = Ok p)
             (merge_sort pd.key_le (remove_dups keys)) parts ∧
     out = {| columns := pd.concat_columns parts; rows := concat (rows <$> parts) |}).
Proof.
  unfold groupby_apply. destruct (pd.empty df) eqn:He.
  - intros [= <-]. by left.
  - intros H. right. split; [done|].
    inv_bind H as u Hu. inv_bind H as keys Hkeys. inv_bind H as parts Hparts.
    injection H as <-. split.
    + apply mapM_Ok in Hu. clear -Hu.
      induction Hu as [|c ? ? ? Hc _ IH]; constructor; [|done].
      unfold pd.has_col in Hc. by case_bool_decide.
    + exists keys, parts. by rewrite <- !mapM_Ok.
Qed.

Lemma empty_rows df : columns df ≠ [] → pd.empty df = true → rows df = [].
Proof. unfold pd.empty. destruct (columns df), (rows df); done. Qed.

Lemma not_empty df c r l : c ∈ columns df → rows df = r :: l → pd.empty df = false.
Proof.
  unfold pd.empty. intros Hc ->. destruct (columns df); [|done].
  by apply elem_of_nil in Hc.
Qed.

Lemma group_rows_sub cols k rs r : r ∈ pd.group_rows cols k rs → r ∈ rs ∧ pd.row_key cols r = Ok k.
Proof. unfold pd.group_rows. rewrite list_elem_of_filter. tauto. Qed.

(** A property of the rows that the function establishes on every group
    holds of every row of the result. *)
Lemma groupby_apply_Forall (P Q : row → Prop) df cols f out :
  (∀ g p, f g = Ok p → Forall P (rows g) → Forall Q (rows p)) →
  (pd.empty df = true → Forall Q (rows df)) →
  Forall P (rows df) →
  groupby_apply df cols f = Ok out → Forall Q (rows out).
Proof.
  intros Hf He HP H.
  apply groupby_apply_Ok in H as [[E ->]|(E & _ & keys & parts & _ & Hparts & ->)].
  - by apply He.
  - simpl. apply Forall_concat, Forall_fmap.
    induction Hparts as [|k p ks ps Hp _ IH]; constructor; [|done].
    simpl. eapply Hf; [exact Hp|]. simpl.
    rewrite Forall_forall in HP. apply Forall_forall. intros r Hr.
    apply group_rows_sub in Hr as [Hr _]. auto.
Qed.

Lemma filter_all {A} (P : A → Prop) `{∀ x, Decision (P x)} (l : list A) :
  Forall P l → filter P l = l.
Proof.
  induction 1 as [|x l Hx _ IH]; [done|].
  rewrite filter_cons_True by done. by rewrite IH.
Qed.

Lemma filter_none {A} (P : A → Prop) `{∀ x, Decision (P x)} (l : list A) :
  Forall (λ x, ¬ P x) l → filter P l = [].
Proof.
  induction 1 as [|x l Hx _ IH]; [done|].
  by rewrite filter_cons_False.
Qed.

Lemma group_rows_part cols k k' (g p : list row) :
  Forall (λ r, pd.row_key cols r = Ok k') g →
  Forall2 (λ r r', pd.row_key cols r' = pd.row_key cols r) g p →
  pd.group_rows cols k p = if decide (k' = k) then p else [].
Proof.
  intros Hg Hgp.
  assert (Forall (λ r, pd.row_key cols r = Ok k') p) as Hp.
  { clear k. induction Hgp as [|r r' g p Hr _ IH]; constructor.
    - rewrite Hr. by inversion Hg.
    - apply IH. by inversion Hg. }
  unfold pd.group_rows. case_decide as Hk.
  - subst k'. by apply filter_all.
  - apply filter_none. eapply Forall_impl; [exact Hp|]. simpl. congruence.
Qed.

Lemma group_rows_concat cols f cs rs k ks parts :
  NoDup ks →
  (∀ g p, f g = Ok p →
     Forall2 (λ r r', pd.row_key cols r' = pd.row_key cols r) (rows g) (rows p)) →
  Forall2 (λ k' p, f {| columns := cs; rows := pd.group_rows cols k' rs |} = Ok p)
          ks parts →
  (k ∈ ks → ∃ p, f {| columns := cs; rows := pd.group_rows cols k rs |} = Ok p ∧
                 pd.group_rows cols k (concat (rows <$> parts)) = rows p) ∧
  (k ∉ ks → pd.group_rows cols k (concat (rows <$> parts)) = []).
Proof.
  intros Hnd Hf Hparts. induction Hparts as [|k' p ks ps Hp _ IH]; csimpl.
  { split; [by intros ?%elem_of_nil | done]. }
  apply NoDup_cons in Hnd as [Hk' Hnd]. destruct (IH Hnd) as [IH1 IH2]. clear IH.
  assert (pd.group_rows cols k (rows p) = if decide (k' = k) then rows p else []) as Hkp.
  { eapply group_rows_part; [|exact (Hf _ _ Hp)]. simpl.
    apply Forall_forall. by intros r [_ ?]%group_rows_sub. }
  unfold pd.group_rows in *. rewrite filter_app, Hkp. split.
  - intros [->|Hin]%elem_of_cons.
    + rewrite decide_True by done. exists p. split; [done|].
      rewrite IH2 by done. by rewrite app_nil_r.
    + rewrite decide_False by (intros ->; done). by apply IH1.
  - intros Hnot. apply not_elem_of_cons in Hnot as [Hne Hnot].
    rewrite decide_False by done. by rewrite IH2.
Qed.

Lemma keys_elem_of cols (rs : list row) keys k :
  Forall2 (λ r k, pd.row_key cols r = Ok k) rs keys →
  k ∈ keys ↔ pd.group_rows cols k rs ≠ [].
Proof.
  induction 1 as [|r k' rs keys Hr _ IH]; [by rewrite elem_of_nil|].
  unfold pd.group_rows in *. rewrite elem_of_cons, IH.
  destruct (decide (k' = k)) as [->|Hne].
  - rewrite filter_cons_True by done. split; [done | by left].
  - rewrite filter_cons_False by congruence. split; [|by right].
    by intros [?|?].
Qed.

(** The rows of one group in the result are what the function made of the
    rows of that group, as long as it leaves the key columns alone. *)
Lemma groupby_apply_group df cols f out k :
  (∀ g p, f g = Ok p →
     Forall2 (λ r r', pd.row_key cols r' = pd.row_key cols r) (rows g) (rows p)) →
  (pd.empty df = true → rows df = []) →
  groupby_apply df cols f = Ok out →
  (pd.group_rows cols k (rows df) = [] ∧ pd.group_rows cols k (rows out) = []) ∨
  (pd.group_rows cols k (rows df) ≠ [] ∧
   ∃ p, f {| columns := columns df; rows := pd.group_rows cols k (rows df) |} = Ok p ∧
        pd.group_rows cols k (rows out) = rows p).
Proof.
  intros Hf He H.
  apply groupby_apply_Ok in H as [[E ->]|(E & _ & keys & parts & Hkeys & Hparts & ->)].
  - left. by rewrite (He E).
  - destruct (group_rows_concat cols f (columns df) (rows df) k
      (merge_sort pd.key_le (remove_dups keys)) parts) as [G1 G2];
      [|exact Hf|exact Hparts|].
    { rewrite merge_sort_Permutation. apply NoDup_remove_dups. }
    simpl. destruct (decide (k ∈ keys)) as [Hin|Hnot].
    + right. split; [by apply (keys_elem_of _ _ _ _ Hkeys)|].
      apply G1. by rewrite merge_sort_Permutation, elem_of_remove_dups.
    + left. split.
      * destruct (pd.group_rows cols k (rows df)) eqn:Eg; [done|].
        exfalso. apply Hnot, (keys_elem_of _ _ _ _ Hkeys). by rewrite Eg.
      * apply G2. by rewrite merge_sort_Permutation, elem_of_remove_dups.
Qed.

(** ** Filling the bins *)

Lemma mapM_app_Ok {A B} (f : A → result B) l1 l2 k1 k2 :
  mapM f l1 = Ok k1 → mapM f l2 = Ok k2 → mapM f (l1 ++ l2) = Ok (k1 ++ k2).
Proof. rewrite !mapM_Ok. apply Forall2_app. Qed.

Lemma mapM_const_Ok {A B} (f : nat → result B) (i : nat) (y : B) (l : list A) :
  f i = Ok y → mapM f ((λ _, i) <$> l) = Ok (replicate (length l) y).
Proof.
  intros Hi. apply mapM_Ok. induction l; csimpl; constructor; done.
Qed.

Lemma py_range_length n : length (py_range n) = Z.to_nat n.
Proof. unfold py_range. apply length_seq. Qed.

Lemma iloc_fill (pre l : list row) :
  mapM (λ i, match (pre ++ l) !! i with
             | Some r => Ok r
             | None => Raise (IndexError i)
             end)
       (concat (imap (λ i c, (λ _, length pre + i) <$> py_range (py_int c))
                     ((λ r : row, r !!! "count") <$> l)))
  = Ok (replicated l).
Proof.
  revert pre. induction l as [|r l IH]; intros pre; [done|].
  csimpl. apply mapM_app_Ok.
  - unfold copies. rewrite <- py_range_length. apply mapM_const_Ok.
    rewrite lookup_app_r by lia. by replace (length pre + 0 - length pre) with 0 by lia.
  - specialize (IH (pre ++ [r])). rewrite <- app_assoc in IH. simpl in IH.
    rewrite <- IH. f_equal. f_equal. apply imap_ext. intros i c _. simpl.
    rewrite length_app. simpl. by replace (length pre + 1 + i) with (length pre + S i) by lia.
Qed.

Lemma fill_bins_Ok data rep :
  fill_bins data = Ok rep →
  "count" ∈ columns data ∧ columns rep = columns data ∧
  rows rep = replicated (rows data).
Proof.
  unfold fill_bins, pd.iloc. intros H. inv_bind H as counts Hc. inv_bind H as rs Hrs.
  injection H as <-. apply get_col_Ok in Hc as (Hin & -> & _).
  split; [done|]. split; [done|]. simpl.
  pose proof (iloc_fill [] (rows data)) as Hfill. simpl in Hfill.
  rewrite Hfill in Hrs. congruence.
Qed.

(** Totality: the indices built from the counts are always in range. *)
Lemma fill_bins_total data :
  "count" ∈ columns data →
  Forall (λ r : row, is_Some (r !! "count")) (rows data) →
  ∃ rep, fill_bins data = Ok rep.
Proof.
  intros Hin Hall. unfold fill_bins, pd.iloc, pd.get_col, pd.has_col.
  rewrite bool_decide_eq_true_2 by done.
  assert (mapM (pd.get_cell "count") (rows data)
          = Ok ((λ r : row, r !!! "count") <$> rows data)) as ->.
  { apply mapM_Ok. induction Hall as [|r l [v Hv] _ IH]; csimpl; constructor; [|done].
    apply get_cell_Ok. by rewrite lookup_total_alt, Hv. }
  simpl. pose proof (iloc_fill [] (rows data)) as Hfill. simpl in Hfill.
  rewrite Hfill. simpl. eauto.
Qed.

(** ** Numbering one stack *)

Lemma lookup_zip_insert c (l : list row) (vs : list Q) :
  length vs = length l →
  (λ r : row, r !!! c) <$> zip_with (λ r v, <[c := v]> r) l vs = vs.
Proof.
  revert vs. induction l as [|r l IH]; intros [|v vs] Hlen; try done.
  csimpl. rewrite lookup_total_insert_eq. f_equal. apply IH. simpl in Hlen. lia.
Qed.

Lemma zip_with_zip_with_fmap {A B C D} (f : A → B → C) (f' : C → D → C) (g : B → D)
    (l : list A) (a : list B) :
  zip_with f' (zip_with f l a) (g <$> a) = zip_with (λ r ci, f' (f r ci) (g ci)) l a.
Proof.
  revert a. induction l as [|r l IH]; intros [|ci a]; csimpl; try done.
  by rewrite IH.
Qed.

Lemma length_countidx_series n : length (countidx_series n) = n.
Proof. unfold countidx_series. by rewrite length_fmap, length_seq. Qed.

(** Every recognized direction maps the series pointwise, by its rule. *)
Lemma stackdots_rule sd s a pos :
  stack_setup sd = Some s → stackdots s a = Ok pos →
  ∃ g, pos = g <$> a ∧ ∀ ci, stack_rule a ci sd (g ci).
Proof.
  rewrite stack_setup_recognized.
  intros [[-> ->]|[[-> ->]|[[-> ->]|[[-> ->]|[-> ->]]]]]; simpl; intros H.
  - injection H as <-. eexists; split; [done|]. constructor.
  - injection H as <-. eexists; split; [done|]. constructor.
  - injection H as <-. eexists; split; [done|]. constructor.
  - inv_bind H as m Hm. injection H as <-. eexists; split; [done|].
    intros ci. by constructor.
  - inv_bind H as m Hm. injection H as <-. eexists; split; [done|].
    intros ci. by constructor.
Qed.

Lemma stackdots_total sd s a :
  stack_setup sd = Some s → a ≠ [] → ∃ pos, stackdots s a = Ok pos.
Proof.
  rewrite stack_setup_recognized.
  intros [[-> ->]|[[-> ->]|[[-> ->]|[[-> ->]|[-> ->]]]]] Ha; simpl; eauto;
    destruct a; try done; simpl; eauto.
Qed.

Lemma func_Ok sd s df out :
  stack_setup sd = Some s → func (Some s) df = Ok out →
  ∃ g, (∀ ci, stack_rule (countidx_series (length (rows df))) ci sd (g ci)) ∧
       rows out = zip_with (number_row g) (rows df) (countidx_series (length (rows df))).
Proof.
  intros Hs H. unfold func in H. simpl in H.
  inv_bind H as a Ha. inv_bind H as pos Hpos. injection H as <-.
  apply get_col_Ok in Ha as (_ & -> & _). simpl in Hpos.
  fold (countidx_series (length (rows df))) in *.
  rewrite lookup_zip_insert in Hpos by by rewrite length_countidx_series.
  destruct (stackdots_rule _ _ _ _ Hs Hpos) as (g & -> & Hg).
  exists g. split; [done|]. simpl.
  fold (countidx_series (length (rows df))).
  exact (zip_with_zip_with_fmap (λ (r : row) v, <["countidx" := v]> r)
           (λ (r : row) v, <["stackpos" := v]> r) g _ _).
Qed.

Lemma mapM_get_cell_zip_insert c (l : list row) (vs : list Q) :
  length vs = length l →
  mapM (pd.get_cell c) (zip_with (λ (r : row) v, <[c := v]> r) l vs) = Ok vs.
Proof.
  intros Hlen. apply mapM_Ok. revert vs Hlen.
  induction l as [|r l IH]; intros [|v vs] Hlen; try done; csimpl; constructor.
  - apply get_cell_Ok. apply lookup_insert_eq.
  - apply IH. simpl in Hlen. lia.
Qed.

Lemma func_total sd s df :
  stack_setup sd = Some s → rows df ≠ [] → ∃ out, func (Some s) df = Ok out.
Proof.
  intros Hs Hne. unfold func. simpl.
  unfold pd.get_col, pd.has_col. simpl.
  rewrite bool_decide_eq_true_2 by (apply elem_of_add_col; by left).
  fold (countidx_series (length (rows df))).
  rewrite mapM_get_cell_zip_insert by apply length_countidx_series.
  simpl. destruct (stackdots_total sd s (countidx_series (length (rows df))) Hs) as [pos ->].
  - destruct (rows df); [done|]. done.
  - simpl. eauto.
Qed.

(** ** setup_data *)

Lemma setup_data_Ok res gp sp data out :
  returned (setup_data res gp sp data) = Ok out →
  ∃ staged,
    setup_width res sp data = Ok (caller_data (setup_data res gp sp data)) ∧
    stack_bins gp sp (caller_data (setup_data res gp sp data)) = Ok staged ∧
    bounding_boxes (stack_setup (stackdir gp)) sp staged = Ok out.
Proof.
  unfold setup_data. destruct (setup_width res sp data) as [d1|e]; simpl; [|done].
  intros H. inv_bind H as staged Hst. eauto.
Qed.

(** C9 as the code has it.  When binning along x, every row of the
    returned frame has [xmin = x - binwidth/2] and [xmax = x + binwidth/2];
    [y] is 0; and [ymin], [ymax] are the bounds of the stack axis for the
    chosen direction, the same for all rows.  That [xmax - xmin] is the
    bin width is not part of it: on float64 cells it fails
    ([box_width_is_not_binwidth]). *)
Theorem bounding_box_binaxis_x res gp sp data out (r : row) :
  binaxis sp = "x" →
  returned (setup_data res gp sp data) = Ok out →
  r ∈ rows out →
  ∃ x bw lo hi,
    r !! "x" = Some x ∧ r !! "binwidth" = Some bw ∧
    r !! "xmin" = Some (x - bw / 2)%Q ∧ r !! "xmax" = Some (x + bw / 2)%Q ∧
    r !! "y" = Some 0%Q ∧
    stack_axis (stackdir gp) = Some (lo, hi) ∧
    r !! "ymin" = Some lo ∧ r !! "ymax" = Some hi.
Proof.
  intros Hx Hret Hr.
  apply setup_data_Ok in Hret as (staged & _ & _ & Hbb).
  apply (bounding_boxes_x _ _ _ _ Hx) in Hbb as (s & Hs & Hrows & Hall).
  rewrite Hrows in Hr. apply list_elem_of_fmap in Hr as (r0 & -> & Hr0).
  rewrite Forall_forall in Hall. destruct (Hall _ Hr0) as [[x Hx0] [bw Hbw0]].
  exists x, bw, (stackaxismin s), (stackaxismax s). unfold bbox_x.
  rewrite (lookup_total_correct _ _ _ Hx0), (lookup_total_correct _ _ _ Hbw0).
  repeat split.
  - by rewrite !lookup_insert_ne.
  - by rewrite !lookup_insert_ne.
  - rewrite !lookup_insert_ne by done. apply lookup_insert_eq.
  - rewrite !lookup_insert_ne by done. apply lookup_insert_eq.
  - apply lookup_insert_eq.
  - by apply stack_setup_axis.
  - rewrite !lookup_insert_ne by done. apply lookup_insert_eq.
  - rewrite !lookup_insert_ne by done. apply lookup_insert_eq.
Qed.

Lemma Forall_zip_with_snd {A B C} (P : C → Prop) (Q : B → Prop) (f : A → B → C)
    (l : list A) (a : list B) :
  (∀ x y, Q y → P (f x y)) → Forall Q a → Forall P (zip_with f l a).
Proof.
  intros Hf Ha. revert l. induction Ha as [|y a Hy _ IH]; intros [|x l]; csimpl;
    constructor; auto.
Qed.

Lemma Forall_rows_set_col (P : row → Prop) c vals df :
  (∀ r v, P r → P (<[c := v]> r)) →
  Forall P (rows df) → Forall P (rows (pd.set_col c vals df)).
Proof.
  intros Hins Hall. simpl. revert vals.
  induction Hall as [|r l Hr _ IH]; intros [|v vals]; csimpl; constructor; auto.
Qed.

Lemma Forall_rows_set_scalar (P : row → Prop) c v df :
  (∀ r, P r → P (<[c := v]> r)) →
  Forall P (rows df) → Forall P (rows (pd.set_scalar c v df)).
Proof. intros Hins Hall. simpl. apply Forall_fmap. by eapply Forall_impl. Qed.

Lemma countidx_series_bounds n :
  Forall (λ ci, ∃ i, 1 ≤ i ≤ n ∧ ci = of_nat i) (countidx_series n).
Proof.
  unfold countidx_series. apply Forall_fmap, Forall_seq. intros i Hi. simpl.
  exists i. split; [lia | done].
Qed.

Lemma stacked_dot_insert sd c v (r : row) :
  c ≠ "countidx" → c ≠ "stackpos" → stacked_dot sd r → stacked_dot sd (<[c := v]> r).
Proof.
  intros H1 H2 (n & i & pos & Hi & Hci & Hpos & Hrule).
  exists n, i, pos. by rewrite !lookup_insert_ne.
Qed.

Lemma func_stacked_dot sd s g p :
  stack_setup sd = Some s → func (Some s) g = Ok p → Forall (stacked_dot sd) (rows p).
Proof.
  intros Hs Hf. destruct (func_Ok _ _ _ _ Hs Hf) as (pos & Hrule & ->).
  eapply Forall_zip_with_snd; [|apply countidx_series_bounds].
  intros r ci (i & Hi & ->). exists (length (rows g)), i, (pos (of_nat i)).
  unfold number_row. split; [done|]. split; [|split; [|done]].
  - rewrite lookup_insert_ne by done. apply lookup_insert_eq.
  - apply lookup_insert_eq.
Qed.

Lemma func_y_Forall (P : row → Prop) data g p :
  (∀ c v r, c ∈ ["ymin"; "ymax"] → P r → P (<[c := v]> r)) →
  func_y data g = Ok p → Forall P (rows g) → Forall P (rows p).
Proof.
  intros Hins H Hall. unfold func_y in H.
  inv_bind H as ys Hys. inv_bind H as lo Hlo. inv_bind H as bw Hbw. inv_bind H as b0 Hb0.
  inv_bind H as ys' Hys'. inv_bind H as hi Hhi. inv_bind H as bw' Hbw'.
  inv_bind H as b0' Hb0'. injection H as <-.
  apply Forall_rows_set_scalar; [intros; apply Hins; [repeat constructor|done]|].
  apply Forall_rows_set_scalar; [intros; apply Hins; [repeat constructor|done]|]. done.
Qed.

(** The bounding-box step only writes the five box columns. *)
Lemma bounding_boxes_Forall (P : row → Prop) st sp data out :
  (∀ c v r, c ∈ ["xmin"; "xmax"; "ymin"; "ymax"; "y"] → P r → P (<[c := v]> r)) →
  bounding_boxes st sp data = Ok out → Forall P (rows data) → Forall P (rows out).
Proof.
  intros Hins H Hall. unfold bounding_boxes in H.
  destruct (decide (binaxis sp = "x")) as [Hx|_];
    [|destruct (decide (binaxis sp = "y")) as [Hy|_]].
  - inv_bind H as xs Hxs. inv_bind H as bw Hbw.
    inv_bind H as xs' Hxs'. inv_bind H as bw' Hbw'.
    inv_bind H as s Hs. inv_bind H as s' Hs'. injection H as <-.
    repeat (first [apply Forall_rows_set_scalar | apply Forall_rows_set_col];
            [intros; apply Hins; [repeat constructor|done]|]).
    done.
  - inv_bind H as grouped Hg. inv_bind H as xs Hxs. inv_bind H as ws Hws.
    inv_bind H as s Hs. inv_bind H as xs' Hxs'. inv_bind H as ws' Hws'.
    inv_bind H as s' Hs'. injection H as <-.
    repeat (first [apply Forall_rows_set_scalar | apply Forall_rows_set_col];
            [intros; apply Hins; [repeat constructor|done]|]).
    eapply (groupby_apply_Forall P P); [| |exact Hall|exact Hg]; [|done].
    intros g p Hp. eapply func_y_Forall; [|exact Hp].
    intros c v r Hc. apply Hins. rewrite !elem_of_cons, elem_of_nil in *. tauto.
  - by injection H as <-.
Qed.

Lemma stack_bins_Ok gp sp data staged :
  stack_bins gp sp data = Ok staged →
  ∃ rep, fill_bins data = Ok rep ∧
         groupby_apply rep (groupvars gp sp) (func (stack_setup (stackdir gp))) = Ok staged ∧
         (pd.empty rep = true → rows rep = []).
Proof.
  unfold stack_bins. intros H. inv_bind H as rep Hrep. exists rep.
  split; [done|]. split; [done|]. apply empty_rows.
  apply fill_bins_Ok in Hrep as (Hc & -> & _). intros E. rewrite E in Hc.
  by apply elem_of_nil in Hc.
Qed.

Lemma func_unbound g : func None g = Raise (NameError "stackdots").
Proof. reflexivity. Qed.

Lemma stack_bins_stacked_dot gp sp data staged :
  stack_bins gp sp data = Ok staged → Forall (stacked_dot (stackdir gp)) (rows staged).
Proof.
  intros H. apply stack_bins_Ok in H as (rep & _ & Hg & He).
  eapply (groupby_apply_Forall (λ _, True)); [| | |exact Hg].
  - intros g p Hp _. destruct (stack_setup (stackdir gp)) as [s|] eqn:Hs.
    + by eapply func_stacked_dot.
    + by rewrite func_unbound in Hp.
  - intros E. rewrite (He E). constructor.
  - by apply Forall_true.
Qed.

Lemma recognized_stack_setup sd : recognized sd ↔ ∃ s, stack_setup sd = Some s.
Proof.
  split.
  - intros [->|[->|[->|[->| ->]]]]; simpl; eauto.
  - intros [s Hs]. apply stack_setup_recognized in Hs. unfold recognized.
    destruct Hs as [[-> _]|[[-> _]|[[-> _]|[[-> _]|[-> _]]]]]; tauto.
Qed.

(** The largest [countidx - 1] of a stack of [n] dots is [n - 1]. *)
Lemma foldl_Qmax_countidx (b k : nat) (acc : Q) :
  (acc == of_nat b - 1)%Q →
  (foldl Qmax acc ((λ c, c - 1)%Q <$> (of_nat <$> seq (S b) k)) == of_nat (b + k) - 1)%Q.
Proof.
  revert b acc. induction k as [|k IH]; intros b acc Hacc; csimpl.
  - by rewrite Nat.add_0_r.
  - replace (b + S k) with (S b + k) by lia. apply IH.
    rewrite Hacc. apply Q.max_r. unfold of_nat, Qle. simpl. lia.
Qed.

Lemma np_max_countidx n m :
  np_max ((λ c, c - 1)%Q <$> countidx_series n) = Ok m → (m == of_nat n - 1)%Q.
Proof.
  unfold countidx_series. destruct n as [|n]; csimpl; [done|].
  intros [= <-]. apply (foldl_Qmax_countidx 1 n). reflexivity.
Qed.

(** *** Replication and numbering *)

Lemma mapM_ext_in {A B} (f g : A → result B) (l : list A) :
  (∀ x, x ∈ l → f x = g x) → mapM f l = mapM g l.
Proof.
  induction l as [|x l IH]; intros Hfg; simpl; [done|].
  rewrite (Hfg x) by (by left). rewrite IH; [done|]. intros y Hy. apply Hfg. by right.
Qed.

Lemma row_key_insert cols c v (r : row) :
  c ∉ cols → pd.row_key cols (<[c := v]> r) = pd.row_key cols r.
Proof.
  intros Hc. unfold pd.row_key. apply mapM_ext_in. intros c' Hc'.
  unfold pd.get_cell. rewrite lookup_insert_ne; [done|]. by intros ->.
Qed.

Lemma row_key_number_row cols g (r : row) ci :
  "countidx" ∉ cols → "stackpos" ∉ cols →
  pd.row_key cols (number_row g r ci) = pd.row_key cols r.
Proof. intros H1 H2. unfold number_row. by rewrite !row_key_insert. Qed.

Lemma Forall2_zip_with_same {A B} (R : A → A → Prop) (f : A → B → A)
    (l : list A) (a : list B) :
  length a = length l → (∀ x y, R x (f x y)) → Forall2 R l (zip_with f l a).
Proof.
  intros Hlen Hf. revert a Hlen.
  induction l as [|x l IH]; intros [|y a] Hlen; try done; csimpl; constructor; [done|].
  apply IH. simpl in Hlen. lia.
Qed.

Lemma func_keeps_keys cols sd g p :
  "countidx" ∉ cols → "stackpos" ∉ cols → func (stack_setup sd) g = Ok p →
  Forall2 (λ r r' : row, pd.row_key cols r' = pd.row_key cols r) (rows g) (rows p).
Proof.
  intros H1 H2 Hp.
  destruct (stack_setup sd) as [s|] eqn:Hs; [|by rewrite func_unbound in Hp].
  destruct (func_Ok _ _ _ _ Hs Hp) as (pos & _ & ->).
  apply Forall2_zip_with_same; [apply length_countidx_series|].
  intros r ci. by apply row_key_number_row.
Qed.

Lemma countidx_zip_number_row g (l : list row) (a : list Q) :
  length a = length l →
  (λ r : row, r !! "countidx") <$> zip_with (number_row g) l a = Some <$> a.
Proof.
  revert a. induction l as [|r l IH]; intros [|ci a] Hlen; try done; csimpl.
  rewrite IH by (simpl in Hlen; lia). f_equal.
  unfold number_row. rewrite lookup_insert_ne by done. apply lookup_insert_eq.
Qed.

Lemma unstacked_number_row g (r : row) ci : unstacked (number_row g r ci) = unstacked r.
Proof.
  unfold unstacked, number_row.
  rewrite delete_insert_eq, delete_insert_ne by done.
  by rewrite delete_insert_eq.
Qed.

Lemma unstacked_zip_number_row g (l : list row) (a : list Q) :
  length a = length l →
  unstacked <$> zip_with (number_row g) l a = unstacked <$> l.
Proof.
  revert a. induction l as [|r l IH]; intros [|ci a] Hlen; try done; csimpl.
  rewrite IH by (simpl in Hlen; lia). by rewrite unstacked_number_row.
Qed.

Lemma py_int_zero (c : Q) : (c == 0)%Q → py_int c = 0%Z.
Proof.
  unfold py_int, Qeq. simpl. rewrite Z.mul_1_r. intros ->. apply Z.quot_0_l. done.
Qed.

Lemma not_in_groupvars gp sp c :
  binaxis sp ≠ c → c ≠ "PANEL" → c ≠ "group" → c ∉ groupvars gp sp.
Proof.
  intros H1 H2 H3. unfold groupvars.
  destruct (stackgroups gp); simpl; rewrite !elem_of_cons, elem_of_nil;
    intuition congruence.
Qed.

(** C6. Every row of the frame is repeated [int(count)] times (none for a
    count of 0), and within each stack (the rows agreeing on the bin axis,
    [PANEL] and, unless [stackgroups], [group]) the repeated rows keep
    their order and receive [countidx] 1, 2, ..., n. *)
Theorem bins_filled_and_numbered res gp sp data out :
  binaxis sp ≠ "countidx" → binaxis sp ≠ "stackpos" →
  returned (setup_data res gp sp data) = Ok out →
  ∃ rep staged,
    fill_bins (caller_data (setup_data res gp sp data)) = Ok rep ∧
    rows rep = (r ← rows (caller_data (setup_data res gp sp data));
                replicate (Z.to_nat (py_int (r !!! "count"))) r) ∧
    (∀ r : row, (r !!! "count" == 0)%Q → Z.to_nat (py_int (r !!! "count")) = 0) ∧
    groupby_apply rep (groupvars gp sp) (func (stack_setup (stackdir gp))) = Ok staged ∧
    bounding_boxes (stack_setup (stackdir gp)) sp staged = Ok out ∧
    ∀ k, let dots := pd.group_rows (groupvars gp sp) k (rows rep) in
         let stack := pd.group_rows (groupvars gp sp) k (rows staged) in
         (λ r : row, r !! "countidx") <$> stack = Some <$> countidx_series (length dots) ∧
         unstacked <$> stack = unstacked <$> dots.
Proof.
  intros Hc1 Hc2 Hret.
  apply setup_data_Ok in Hret as (staged & _ & Hst & Hbb).
  apply stack_bins_Ok in Hst as (rep & Hrep & Hg & He).
  exists rep, staged. split; [done|]. split; [by destruct (fill_bins_Ok _ _ Hrep) as (_ & _ & Hrows)|].
  split; [intros r Hr; by rewrite (py_int_zero _ Hr)|]. split; [done|]. split; [done|].
  intros k dots stack.
  assert (("countidx" ∉ groupvars gp sp) ∧ ("stackpos" ∉ groupvars gp sp)) as [G1 G2].
  { split; apply not_in_groupvars; done. }
  destruct (groupby_apply_group _ _ _ _ k (λ g p, func_keeps_keys _ _ g p G1 G2) He Hg)
    as [[E0 E]|(_ & p & Hp & E)]; subst dots stack; rewrite E.
  - by rewrite E0.
  - destruct (stack_setup (stackdir gp)) as [s|] eqn:Hs; [|by rewrite func_unbound in Hp].
    destruct (func_Ok _ _ _ _ Hs Hp) as (pos & _ & ->). simpl.
    rewrite countidx_zip_number_row, unstacked_zip_number_row
      by apply length_countidx_series.
    done.
Qed.

(** *** Warnings *)

Lemma elem_of_if_singleton {A} (b : bool) (x y : A) :
  x ∈ (if b then [y] else []) ↔ b = true ∧ x = y.
Proof.
  destruct b.
  - rewrite list_elem_of_singleton. tauto.
  - rewrite elem_of_nil. split; [done | by intros [? _]].
Qed.

Lemma warnings_issued res gp sp data :
  warnings (setup_data res gp sp data) = issue_warnings gp sp.
Proof. unfold setup_data. by destruct (setup_width res sp data). Qed.

(** C4. Nonsensical parameter combinations only produce warnings: one
    exactly when [position] is ['stack'], one exactly when [stackgroups]
    is set while the stat bins by ['dotdensity'] and ['bygroup']; nothing
    else is ever issued, and neither the returned frame nor the caller's
    frame depends on the three parameters that decide the warnings. *)
Theorem warnings_do_not_change_result res gp sp data :
  let o := setup_data res gp sp data in
  (warn_position ∈ warnings o ↔ position gp = "stack") ∧
  (warn_stackgroups ∈ warnings o ↔
     stackgroups gp = true ∧ method sp = "dotdensity" ∧ binpositions sp = "bygroup") ∧
  (∀ w, w ∈ warnings o → w = warn_position ∨ w = warn_stackgroups) ∧
  (∀ position' method' binpositions',
     let o' := setup_data res
                 {| position := position'; stackdir := stackdir gp;
                    stackratio := stackratio gp; dotsize := dotsize gp;
                    stackgroups := stackgroups gp |}
                 {| method := method'; binpositions := binpositions';
                    binaxis := binaxis sp; width := width sp |} data in
     returned o' = returned o ∧ caller_data o' = caller_data o).
Proof.
  assert (warn_position ≠ warn_stackgroups) as Hne by done.
  simpl. rewrite warnings_issued. unfold issue_warnings.
  split; [|split; [|split]].
  - rewrite elem_of_app, !elem_of_if_singleton, bool_decide_eq_true. tauto.
  - rewrite elem_of_app, !elem_of_if_singleton, !andb_true_iff, !bool_decide_eq_true.
    split; [intros [[_ ?]|[? _]]; [congruence | tauto] | tauto].
  - intros w. rewrite elem_of_app, !elem_of_if_singleton. tauto.
  - intros position' method' binpositions'.
    set (gp' := Build_geom_params _ _ _ _ _). set (sp' := Build_stat_params _ _ _ _).
    unfold setup_data.
    change (setup_width res sp' data) with (setup_width res sp data).
    destruct (setup_width res sp data) as [d1|e]; [|done]. simpl.
    change (stack_bins gp' sp' d1) with (stack_bins gp sp d1).
    split; [|done]. destruct (stack_bins gp sp d1); [|done]. reflexivity.
Qed.

(** *** The width step, once more *)

Lemma setup_width_idempotent res sp data d1 :
  setup_width res sp data = Ok d1 → setup_width res sp d1 = Ok d1.
Proof.
  unfold setup_width. destruct (pd.has_col "width" data) eqn:Hw.
  - intros [= <-]. by rewrite Hw.
  - assert (∀ w, pd.has_col "width" (pd.set_scalar "width" w data) = true) as Hset.
    { intros w. unfold pd.has_col. apply bool_decide_eq_true_2. simpl.
      apply elem_of_add_col. by left. }
    destruct (truthy (width sp)) as [w|].
    + intros [= <-]. by rewrite Hset.
    + intros H. inv_bind H as xs Hxs. injection H as <-. by rewrite Hset.
Qed.

(** *** Unrecognized stacking directions *)

Lemma unrecognized_stack_setup sd : ¬ recognized sd → stack_setup sd = None.
Proof.
  intros Hn. destruct (stack_setup sd) as [s|] eqn:Hs; [|done].
  destruct Hn. apply recognized_stack_setup. eauto.
Qed.

Lemma raises_Raise {A} e : raises (@Raise A e).
Proof. by exists e. Qed.

Lemma not_raises_Ok {A} (a : A) : ¬ raises (Ok a).
Proof. by intros [e ?]. Qed.

Lemma groupby_apply_raises df cols f :
  pd.empty df = false → rows df ≠ [] → (∀ g, raises (f g)) →
  raises (groupby_apply df cols f).
Proof.
  intros He Hne Hf. unfold groupby_apply. rewrite He.
  apply bind_raises. intros _ _. apply bind_raises. intros keys Hkeys.
  apply bind_raises. intros parts Hparts. exfalso.
  apply mapM_Ok in Hkeys. apply mapM_Ok in Hparts.
  destruct (merge_sort pd.key_le (remove_dups keys)) as [|k ks] eqn:Hsort.
  - assert (keys = []) as ->.
    { destruct keys as [|k keys]; [done|].
      assert (k ∈ merge_sort pd.key_le (remove_dups (k :: keys))) as Hin.
      { rewrite merge_sort_Permutation, elem_of_remove_dups. by left. }
      rewrite Hsort in Hin. by apply elem_of_nil in Hin. }
    apply Forall2_nil_inv_r in Hkeys. done.
  - inversion Hparts as [|? p ? ? Hp]; subst.
    destruct (Hf {| columns := columns df; rows := pd.group_rows cols k (rows df) |})
      as [e He']. congruence.
Qed.

Lemma bounding_boxes_unbound sp data :
  binaxis sp = "x" ∨ binaxis sp = "y" → raises (bounding_boxes None sp data).
Proof.
  intros Hax. unfold bounding_boxes.
  destruct (decide (binaxis sp = "x")) as [Hx|Hx];
    [|destruct (decide (binaxis sp = "y")) as [Hy|Hy]; [|tauto]].
  - do 4 (apply bind_raises; intros ? _). apply raises_Raise.
  - do 3 (apply bind_raises; intros ? _). apply raises_Raise.
Qed.

Lemma replicated_nonempty (l : list row) (r : row) :
  r ∈ l → (1 ≤ py_int (r !!! "count"))%Z → replicated l ≠ [].
Proof.
  intros Hin Hc. induction Hin as [r l|r r' l _ IH]; unfold replicated; csimpl.
  - unfold copies. destruct (Z.to_nat (py_int (r !!! "count"))) eqn:E; [lia|done].
  - intros Happ. apply app_eq_nil in Happ as [_ Happ]. by apply IH.
Qed.

Lemma setup_width_rows res sp data d1 (r : row) :
  setup_width res sp data = Ok d1 → r ∈ rows data →
  ∃ r' : row, r' ∈ rows d1 ∧ r' !!! "count" = r !!! "count".
Proof.
  unfold setup_width. intros H Hr.
  assert (∀ w, ∃ r' : row, r' ∈ rows (pd.set_scalar "width" w data) ∧
                          r' !!! "count" = r !!! "count") as Hset.
  { intros w. exists (<["width" := w]> r). split.
    - simpl. apply list_elem_of_fmap. eauto.
    - by rewrite lookup_total_insert_ne. }
  destruct (pd.has_col "width" data).
  - injection H as <-. eauto.
  - destruct (truthy (width sp)) as [w|].
    + injection H as <-. apply Hset.
    + inv_bind H as xs Hxs. injection H as <-. apply Hset.
Qed.

Lemma groupby_apply_empty df cols f :
  rows df = [] → groupby_apply df cols f = Ok df.
Proof.
  intros Hnil. unfold groupby_apply, pd.empty. rewrite Hnil.
  by destruct (columns df).
Qed.

Lemma groupby_apply_unbound df cols out :
  (pd.empty df = true → rows df = []) →
  groupby_apply df cols (func None) = Ok out → out = df ∧ rows df = [].
Proof.
  intros He H. destruct (pd.empty df) eqn:E.
  - unfold groupby_apply in H. rewrite E in H. injection H as <-. auto.
  - exfalso. destruct (groupby_apply_raises df cols (func None)) as [e He'];
      [done| |intros g; apply raises_Raise|congruence].
    unfold pd.empty in E. by destruct (columns df), (rows df).
Qed.


(** *** setup_data returns *)

Lemma mapM_total {A B} (f : A → result B) (l : list A) :
  Forall (λ x, ∃ y, f x = Ok y) l → ∃ k, mapM f l = Ok k.
Proof.
  induction 1 as [|x l [y Hy] _ [k IH]]; simpl; [eauto|].
  rewrite Hy. simpl. rewrite IH. simpl. eauto.
Qed.

Lemma get_col_filled c df :
  column_filled c df → pd.get_col c df = Ok ((λ r : row, r !!! c) <$> rows df).
Proof.
  intros [Hc Hall]. unfold pd.get_col, pd.has_col.
  rewrite bool_decide_eq_true_2 by done. apply mapM_Ok.
  induction Hall as [|r l [v Hv] _ IH]; csimpl; [constructor|].
  constructor; [|done]. apply get_cell_Ok. by rewrite lookup_total_alt, Hv.
Qed.

Lemma is_Some_insert c c' v (r : row) : is_Some (r !! c) → is_Some (<[c' := v]> r !! c).
Proof.
  intros Hr. apply lookup_insert_is_Some. destruct (decide (c' = c)); [by left | by right].
Qed.

Lemma column_filled_set_col c c' vals df :
  column_filled c df → column_filled c (pd.set_col c' vals df).
Proof.
  intros [Hc Hall]. split; [apply elem_of_add_col; by right|].
  apply Forall_rows_set_col; [|done]. intros r v. apply is_Some_insert.
Qed.

Lemma column_filled_set_scalar c c' v df :
  column_filled c df → column_filled c (pd.set_scalar c' v df).
Proof.
  intros [Hc Hall]. split; [apply elem_of_add_col; by right|].
  apply Forall_rows_set_scalar; [|done]. intros r. apply is_Some_insert.
Qed.

Lemma column_filled_new_scalar c v df : column_filled c (pd.set_scalar c v df).
Proof.
  split; [apply elem_of_add_col; by left|]. simpl. apply Forall_fmap, Forall_true.
  intros r. simpl. rewrite lookup_insert_eq. eauto.
Qed.

Lemma replicated_sub (l : list row) (r : row) : r ∈ replicated l → r ∈ l.
Proof.
  unfold replicated. rewrite list_elem_of_bind. intros (r' & Hr & Hr').
  apply elem_of_replicate in Hr as [-> _]. done.
Qed.

Lemma column_filled_fill_bins c data rep :
  fill_bins data = Ok rep → column_filled c data → column_filled c rep.
Proof.
  intros (_ & Hcols & Hrows)%fill_bins_Ok [Hc Hall]. split; [by rewrite Hcols|].
  rewrite Hrows. rewrite Forall_forall in Hall. apply Forall_forall.
  intros r Hr%replicated_sub. auto.
Qed.

Lemma elem_of_foldl_add_col c acc cs :
  c ∈ foldl (λ acc c', pd.add_col c' acc) acc cs ↔ c ∈ acc ∨ c ∈ cs.
Proof.
  revert acc. induction cs as [|c' cs IH]; intros acc; simpl.
  - rewrite elem_of_nil. tauto.
  - rewrite IH, elem_of_add_col, elem_of_cons. tauto.
Qed.

Lemma elem_of_concat_columns_head c p ps :
  c ∈ columns p → c ∈ pd.concat_columns (p :: ps).
Proof.
  intros Hc. unfold pd.concat_columns. simpl.
  assert (∀ acc, c ∈ acc →
    c ∈ foldl (λ acc d, foldl (λ acc c', pd.add_col c' acc) acc (columns d)) acc ps) as Hacc.
  { induction ps as [|p' ps IH]; intros acc Hin; simpl; [done|].
    apply IH, elem_of_foldl_add_col. by left. }
  apply Hacc, elem_of_foldl_add_col. by right.
Qed.

Lemma groupby_apply_columns df cols f out c :
  (∀ g p, f g = Ok p → c ∈ columns g → c ∈ columns p) →
  groupby_apply df cols f = Ok out → c ∈ columns df → c ∈ columns out.
Proof.
  intros Hf H Hc.
  apply groupby_apply_Ok in H as [[E ->]|(E & _ & keys & parts & Hkeys & Hparts & ->)];
    [done|]. simpl.
  destruct (merge_sort pd.key_le (remove_dups keys)) as [|k ks] eqn:Hsort.
  - exfalso. unfold pd.empty in E. destruct (columns df); [done|].
    destruct (rows df) as [|r rs]; [done|].
    inversion Hkeys as [|? k ? keys' Hk Hks]; subst.
    assert (k ∈ merge_sort pd.key_le (remove_dups (k :: keys'))) as Hin.
    { rewrite merge_sort_Permutation, elem_of_remove_dups. by left. }
    rewrite Hsort in Hin. by apply elem_of_nil in Hin.
  - inversion Hparts as [|? p ? ps Hp _]; subst.
    apply elem_of_concat_columns_head. by eapply Hf.
Qed.

Lemma row_key_total cols (r : row) :
  Forall (λ c, is_Some (r !! c)) cols → ∃ k, pd.row_key cols r = Ok k.
Proof.
  intros Hall. unfold pd.row_key. apply mapM_total.
  eapply Forall_impl; [exact Hall|]. simpl. intros c [v Hv].
  exists (Qred v). unfold pd.get_cell. by rewrite Hv.
Qed.

Lemma groupby_apply_total df cols f :
  Forall (λ c, column_filled c df) cols →
  (∀ k, pd.group_rows cols k (rows df) ≠ [] →
        ∃ p, f {| columns := columns df; rows := pd.group_rows cols k (rows df) |} = Ok p) →
  ∃ out, groupby_apply df cols f = Ok out.
Proof.
  intros Hcols Hf. unfold groupby_apply. destruct (pd.empty df); [eauto|].
  assert (mapM (λ c, if pd.has_col c df then Ok () else Raise (KeyError c)) cols
          = Ok (replicate (length cols) ())) as ->.
  { apply mapM_Ok. clear Hf.
    induction Hcols as [|c cs [Hc _] _ IH]; simpl; [constructor|].
    constructor; [|exact IH]. unfold pd.has_col. by rewrite bool_decide_eq_true_2. }
  simpl.
  destruct (mapM_total (pd.row_key cols) (rows df)) as [keys Hkeys].
  { apply Forall_forall. intros r Hr. apply row_key_total.
    eapply Forall_impl; [exact Hcols|]. simpl. intros c [_ Hall].
    rewrite Forall_forall in Hall. auto. }
  rewrite Hkeys. simpl.
  destruct (mapM_total (λ k, f {| columns := columns df;
                                  rows := pd.group_rows cols k (rows df) |})
              (merge_sort pd.key_le (remove_dups keys))) as [parts Hparts].
  { apply Forall_forall. intros k Hk. apply Hf.
    rewrite merge_sort_Permutation, elem_of_remove_dups in Hk.
    apply mapM_Ok in Hkeys. by apply (keys_elem_of _ _ _ _ Hkeys). }
  rewrite Hparts. simpl. eauto.
Qed.

Lemma column_filled_group c cols k df :
  column_filled c df →
  column_filled c {| columns := columns df; rows := pd.group_rows cols k (rows df) |}.
Proof.
  intros [Hc Hall]. split; [done|]. simpl. rewrite Forall_forall in Hall.
  apply Forall_forall. intros r [Hr _]%group_rows_sub. auto.
Qed.

Lemma func_columns sd g p c :
  func (stack_setup sd) g = Ok p → c ∈ columns g → c ∈ columns p.
Proof.
  intros Hp Hc. unfold func in Hp.
  inv_bind Hp as s Hs. inv_bind Hp as a Ha. inv_bind Hp as pos Hpos. injection Hp as <-.
  simpl. rewrite !elem_of_add_col. tauto.
Qed.

Lemma column_filled_stack_bins c gp sp data staged :
  stack_bins gp sp data = Ok staged → column_filled c data → column_filled c staged.
Proof.
  intros Hst Hfilled. unfold stack_bins in Hst. inv_bind Hst as rep Hrep.
  pose proof (column_filled_fill_bins c _ _ Hrep Hfilled) as [Hc Hall]. split.
  - eapply groupby_apply_columns; [|exact Hst|exact Hc].
    intros g p. apply func_columns.
  - eapply (groupby_apply_Forall (λ r : row, is_Some (r !! c))); [| |exact Hall|exact Hst].
    + intros g p Hp Hg. unfold func in Hp.
      inv_bind Hp as s Hs. inv_bind Hp as a Ha. inv_bind Hp as pos Hpos. injection Hp as <-.
      apply Forall_rows_set_col; [intros; by apply is_Some_insert|].
      apply Forall_rows_set_col; [intros; by apply is_Some_insert|]. done.
    + done.
Qed.

Lemma stack_bins_total gp sp data :
  recognized (stackdir gp) →
  Forall (λ c, column_filled c data) ("count" :: groupvars gp sp) →
  ∃ staged, stack_bins gp sp data = Ok staged.
Proof.
  intros [s Hs]%recognized_stack_setup Hcols. apply Forall_cons in Hcols as [Hcount Hcols].
  unfold stack_bins. destruct (fill_bins_total data) as [rep Hrep]; [apply Hcount..|].
  rewrite Hrep. simpl. rewrite Hs. apply groupby_apply_total.
  - eapply Forall_impl; [exact Hcols|]. intros c. by apply column_filled_fill_bins.
  - intros k Hk. by apply (func_total _ _ _ Hs).
Qed.

Lemma sorted_keys_nonempty (k : list Q) (keys : list (list Q)) :
  merge_sort pd.key_le (remove_dups (k :: keys)) ≠ [].
Proof.
  intros Hnil.
  assert (k ∈ merge_sort pd.key_le (remove_dups (k :: keys))) as Hin.
  { rewrite merge_sort_Permutation, elem_of_remove_dups. by left. }
  rewrite Hnil in Hin. by apply elem_of_nil in Hin.
Qed.

(** A filled column stays filled through a grouping whose function keeps
    it filled on every group. *)
Lemma column_filled_groupby c df cols f out :
  (∀ g p, f g = Ok p → column_filled c g → column_filled c p) →
  groupby_apply df cols f = Ok out → column_filled c df → column_filled c out.
Proof.
  intros Hf H Hfilled.
  apply groupby_apply_Ok in H as [[E ->]|(E & _ & keys & parts & Hkeys & Hparts & ->)];
    [done|].
  assert (Forall (column_filled c) parts) as Hall.
  { clear Hkeys. induction Hparts as [|k p ks ps Hp _ IH]; constructor; [|done].
    eapply Hf; [exact Hp|]. by apply column_filled_group. }
  split; simpl.
  - destruct parts as [|p ps].
    + exfalso. apply Forall2_nil_inv_r in Hparts.
      unfold pd.empty in E. destruct (columns df); [done|].
      destruct (rows df) as [|r rs]; [done|].
      inversion Hkeys; subst. by eapply sorted_keys_nonempty.
    + apply elem_of_concat_columns_head. by apply Forall_cons in Hall as [[? _] _].
  - apply Forall_concat, Forall_fmap. eapply Forall_impl; [exact Hall|].
    by intros p [_ ?].
Qed.

Lemma bounding_boxes_x_total s sp data :
  binaxis sp = "x" → column_filled "x" data → column_filled "binwidth" data →
  ∃ out, bounding_boxes (Some s) sp data = Ok out.
Proof.
  intros Hx Fx Fb. unfold bounding_boxes. rewrite decide_True by done.
  rewrite (get_col_filled _ _ Fx), (get_col_filled _ _ Fb). simpl.
  rewrite (get_col_filled "x"), (get_col_filled "binwidth")
    by by apply column_filled_set_col.
  simpl. eauto.
Qed.

Lemma fmap_nonempty {A B} (f : A → B) (l : list A) : l ≠ [] → f <$> l ≠ [].
Proof. by destruct l. Qed.

Lemma np_min_total (a : list Q) : a ≠ [] → ∃ m, np_min a = Ok m.
Proof. destruct a; [done|]. simpl. eauto. Qed.

Lemma np_max_total (a : list Q) : a ≠ [] → ∃ m, np_max a = Ok m.
Proof. destruct a; [done|]. simpl. eauto. Qed.

Lemma func_y_total data g :
  rows g ≠ [] → rows data ≠ [] →
  column_filled "y" g → column_filled "binwidth" data →
  ∃ p, func_y data g = Ok p.
Proof.
  intros Hg Hdata Fy Fb. unfold func_y.
  rewrite (get_col_filled _ _ Fy). simpl.
  destruct (np_min_total ((λ r : row, r !!! "y") <$> rows g)) as [lo ->];
    [by apply fmap_nonempty|]. simpl.
  rewrite (get_col_filled _ _ Fb). simpl.
  destruct (rows data) as [|r0 rs] eqn:Erows; [done|]. simpl.
  rewrite (get_col_filled "y") by by apply column_filled_set_scalar. simpl.
  destruct (np_max_total ((λ r : row, r !!! "y") <$>
              ((λ r : row, <["ymin" := (lo - r0 !!! "binwidth" / 2)%Q]> r) <$> rows g)))
    as [hi ->]; [by do 2 apply fmap_nonempty|]. simpl. eauto.
Qed.

Lemma func_y_filled c data g p :
  func_y data g = Ok p → column_filled c g → column_filled c p.
Proof.
  intros H Hc. unfold func_y in H.
  inv_bind H as ys Hys. inv_bind H as lo Hlo. inv_bind H as bw Hbw. inv_bind H as b0 Hb0.
  inv_bind H as ys' Hys'. inv_bind H as hi Hhi. inv_bind H as bw' Hbw'.
  inv_bind H as b0' Hb0'. injection H as <-.
  by do 2 apply column_filled_set_scalar.
Qed.

Lemma bounding_boxes_y_total s sp data :
  binaxis sp = "y" →
  Forall (λ c, column_filled c data) ["x"; "y"; "width"; "binwidth"; "group"] →
  ∃ out, bounding_boxes (Some s) sp data = Ok out.
Proof.
  intros Hy Hcols. unfold bounding_boxes.
  rewrite decide_False by (rewrite Hy; discriminate). rewrite decide_True by done.
  rewrite !Forall_cons in Hcols. destruct Hcols as (Fx & Fy & Fw & Fb & Fg & _).
  destruct (groupby_apply_total data ["group"] (func_y data)) as [grouped Hgrouped].
  { constructor; [done|constructor]. }
  { intros k Hk. apply func_y_total; [done| |by apply column_filled_group|done].
    intros Hnil. rewrite Hnil in Hk. done. }
  rewrite Hgrouped. simpl.
  pose proof (column_filled_groupby "x" _ _ _ _
    (λ g p, func_y_filled "x" data g p) Hgrouped Fx) as Gx.
  pose proof (column_filled_groupby "width" _ _ _ _
    (λ g p, func_y_filled "width" data g p) Hgrouped Fw) as Gw.
  rewrite (get_col_filled _ _ Gx), (get_col_filled _ _ Gw). simpl.
  rewrite (get_col_filled "x"), (get_col_filled "width")
    by by apply column_filled_set_col.
  simpl. eauto.
Qed.

Lemma setup_width_total res sp data :
  column_filled "x" data → ∃ d1, setup_width res sp data = Ok d1.
Proof.
  intros Fx. unfold setup_width. destruct (pd.has_col "width" data); [eauto|].
  destruct (truthy (width sp)); [eauto|].
  rewrite (get_col_filled _ _ Fx). simpl. eauto.
Qed.

Lemma setup_width_filled res sp data d1 c :
  setup_width res sp data = Ok d1 →
  (∀ c, c ∈ columns data → column_filled c data) →
  c ∈ "width" :: columns data → column_filled c d1.
Proof.
  unfold setup_width. intros H Hwf Hc. unfold pd.has_col in H.
  assert (∀ w, column_filled c (pd.set_scalar "width" w data)) as Hset.
  { intros w. apply elem_of_cons in Hc as [->|Hc].
    - apply column_filled_new_scalar.
    - by apply column_filled_set_scalar, Hwf. }
  case_bool_decide as Hw.
  - injection H as <-. apply Hwf. by apply elem_of_cons in Hc as [->|Hc].
  - destruct (truthy (width sp)) as [w|].
    + injection H as <-. apply Hset.
    + inv_bind H as xs Hxs. injection H as <-. apply Hset.
Qed.

(** On a frame with the columns the stat provides, every column filled,
    [setup_data] returns a frame for each recognized direction and either
    bin axis.  The frame has a row at least: on an empty one plotnine's
    [resolution] raises, which the total [resolution] of the model does not
    show. *)
Lemma setup_data_returns res gp sp data :
  rows data ≠ [] →
  (∀ c, c ∈ columns data → column_filled c data) →
  (∀ c, c ∈ ["x"; "y"; "count"; "binwidth"; "PANEL"; "group"] → c ∈ columns data) →
  recognized (stackdir gp) →
  binaxis sp = "x" ∨ binaxis sp = "y" →
  ∃ out, returned (setup_data res gp sp data) = Ok out.
Proof.
  intros _ Hwf Hcols Hrec Hax.
  assert (∀ c, c ∈ ["x"; "y"; "count"; "binwidth"; "PANEL"; "group"] →
               column_filled c data) as Hfilled by (intros c Hc; by apply Hwf, Hcols).
  destruct (setup_width_total res sp data) as [d1 Hd1];
    [apply Hfilled; repeat constructor|].
  unfold setup_data. rewrite Hd1. simpl.
  assert (∀ c, c ∈ ["x"; "y"; "count"; "binwidth"; "PANEL"; "group"; "width"] →
               column_filled c d1) as Hfilled1.
  { intros c Hc. eapply setup_width_filled; [exact Hd1|exact Hwf|].
    rewrite !elem_of_cons, elem_of_nil in Hc. rewrite elem_of_cons.
    destruct (decide (c = "width")) as [->|Hne]; [by left|right].
    apply Hcols. rewrite !elem_of_cons, elem_of_nil. tauto. }
  destruct (stack_bins_total gp sp d1 Hrec) as [staged Hst].
  { apply Forall_forall. intros c Hc. apply Hfilled1.
    unfold groupvars in Hc.
    destruct Hax as [Ex|Ey]; [rewrite Ex in Hc|rewrite Ey in Hc];
      destruct (stackgroups gp); simpl in Hc;
      rewrite !elem_of_cons, elem_of_nil in *; tauto. }
  rewrite Hst. simpl.
  pose proof (λ c Hc, column_filled_stack_bins c _ _ _ _ Hst (Hfilled1 c Hc)) as Hfilled2.
  apply recognized_stack_setup in Hrec as [s ->].
  destruct Hax as [Hx|Hy].
  - apply bounding_boxes_x_total; [done|apply Hfilled2; repeat constructor..].
  - apply bounding_boxes_y_total; [done|].
    apply Forall_forall. intros c Hc. apply Hfilled2.
    rewrite !elem_of_cons, elem_of_nil in *. tauto.
Qed.

(** ** The stacks of the returned frame *)

(** *** Grouping rearranges the rows and no more *)

Lemma concat_no_groups {A} (ks : list A) : concat ((λ _, @nil row) <$> ks) = [].
Proof. induction ks as [|k ks IH]; csimpl; done. Qed.

Lemma concat_groups_cons cols (r : row) kr rs ks :
  pd.row_key cols r = Ok kr → NoDup ks →
  concat ((λ k, pd.group_rows cols k (r :: rs)) <$> ks)
  ≡ₚ (if decide (kr ∈ ks) then [r] else []) ++
     concat ((λ k, pd.group_rows cols k rs) <$> ks).
Proof.
  intros Hkr. induction ks as [|k ks IH]; intros Hnd; csimpl.
  { done. }
  apply NoDup_cons in Hnd as [Hk Hnd]. rewrite (IH Hnd).
  unfold pd.group_rows at 1. rewrite filter_cons.
  destruct (decide (pd.row_key cols r = Ok k)) as [E|E].
  - assert (kr = k) as -> by congruence.
    rewrite decide_False by done. rewrite decide_True by (by left). done.
  - assert (kr ≠ k) as Hne by congruence.
    destruct (decide (kr ∈ ks)) as [Hin|Hnot].
    + rewrite decide_True by (by right). simpl. symmetry. apply Permutation_middle.
    + rewrite decide_False; [done|]. by intros [?|?]%elem_of_cons.
Qed.

Lemma concat_groups_Permutation cols (rs : list row) keys ks :
  Forall2 (λ r k, pd.row_key cols r = Ok k) rs keys →
  NoDup ks → (∀ k, k ∈ keys → k ∈ ks) →
  concat ((λ k, pd.group_rows cols k rs) <$> ks) ≡ₚ rs.
Proof.
  intros Hkeys Hnd. induction Hkeys as [|r k rs keys Hr _ IH]; intros Hsub.
  - unfold pd.group_rows. simpl. by rewrite concat_no_groups.
  - rewrite (concat_groups_cons _ _ _ _ _ Hr Hnd).
    rewrite decide_True by (apply Hsub; by left). simpl. f_equiv.
    apply IH. intros k' Hk'. apply Hsub. by right.
Qed.

Lemma Forall2_concat_parts (R : row → row → Prop) cols f cs rs ks parts :
  (∀ g p, f g = Ok p → Forall2 R (rows g) (rows p)) →
  Forall2 (λ k p, f {| columns := cs; rows := pd.group_rows cols k rs |} = Ok p)
          ks parts →
  Forall2 R (concat ((λ k, pd.group_rows cols k rs) <$> ks)) (concat (rows <$> parts)).
Proof.
  intros Hf. induction 1 as [|k p ks parts Hp _ IH]; csimpl; [constructor|].
  apply Forall2_app; [|done]. exact (Hf _ _ Hp).
Qed.

(** The result of [groupby_apply] holds, in some order, what the function
    made of the rows of the frame. *)
Lemma groupby_apply_Permutation (R : row → row → Prop) df cols f out :
  (∀ g p, f g = Ok p → Forall2 R (rows g) (rows p)) →
  (pd.empty df = true → rows df = []) →
  groupby_apply df cols f = Ok out →
  ∃ l, l ≡ₚ rows df ∧ Forall2 R l (rows out).
Proof.
  intros Hf He H.
  apply groupby_apply_Ok in H as [[E ->]|(E & _ & keys & parts & Hkeys & Hparts & ->)].
  - exists []. rewrite (He E). split; [done | constructor].
  - eexists. split; [|simpl; eapply Forall2_concat_parts; [exact Hf|exact Hparts]].
    eapply concat_groups_Permutation; [exact Hkeys| |].
    + rewrite merge_sort_Permutation. apply NoDup_remove_dups.
    + intros k Hk. by rewrite merge_sort_Permutation, elem_of_remove_dups.
Qed.

(** *** The box step keeps the stacks *)

Lemma func_y_rows data g p :
  func_y data g = Ok p →
  ∃ lo hi, rows p = (λ r : row, <["ymax" := hi]> (<["ymin" := lo]> r)) <$> rows g.
Proof.
  intros H. unfold func_y in H.
  inv_bind H as ys Hys. inv_bind H as lo Hlo. inv_bind H as bw Hbw. inv_bind H as b0 Hb0.
  inv_bind H as ys' Hys'. inv_bind H as hi Hhi. inv_bind H as bw' Hbw'.
  inv_bind H as b0' Hb0'. injection H as <-.
  eexists _, _. simpl. by rewrite <- list_fmap_compose.
Qed.

Lemma same_outside_refl cs (r : row) : same_outside cs r r.
Proof. by intros c _. Qed.

Lemma same_outside_write cs c v (r r0 : row) :
  c ∈ cs → same_outside cs r r0 → same_outside cs (<[c := v]> r) r0.
Proof.
  intros Hc Hsame c' Hc'. rewrite lookup_insert_ne; [by apply Hsame|].
  by intros ->.
Qed.

Lemma bounding_boxes_Permutation st sp data out :
  (pd.empty data = true → rows data = []) →
  bounding_boxes st sp data = Ok out →
  ∃ l, l ≡ₚ rows data ∧
       Forall2 (λ r0 r : row, same_outside (box_columns sp) r r0) l (rows out).
Proof.
  intros He H. unfold box_columns.
  destruct (decide (binaxis sp = "x")) as [Hx|Hx];
    [|destruct (decide (binaxis sp = "y")) as [Hy|Hy]].
  - apply (bounding_boxes_x _ _ _ _ Hx) in H as (s & _ & -> & _).
    exists (rows data). split; [done|].
    apply Forall2_fmap_r, Forall_Forall2_diag, Forall_forall. intros r _.
    unfold bbox_x.
    repeat (apply same_outside_write;
            [rewrite !elem_of_cons, elem_of_nil; tauto|]).
    apply same_outside_refl.
  - unfold bounding_boxes in H. rewrite decide_False, decide_True in H by done.
    inv_bind H as grouped Hg. inv_bind H as xs Hxs. inv_bind H as ws Hws.
    inv_bind H as s Hs. inv_bind H as xs' Hxs'. inv_bind H as ws' Hws'.
    inv_bind H as s' Hs'. injection H as <-.
    assert (∀ g p, func_y data g = Ok p →
              Forall2 (λ r0 r : row,
                         same_outside ["ymin"; "ymax"; "xmin"; "xmax"] r r0)
                      (rows g) (rows p)) as Hf.
    { intros g p Hp. destruct (func_y_rows _ _ _ Hp) as (lo & hi & ->).
      apply Forall2_fmap_r, Forall_Forall2_diag, Forall_forall. intros r _.
      repeat (apply same_outside_write;
              [rewrite !elem_of_cons, elem_of_nil; tauto|]).
      apply same_outside_refl. }
    destruct (groupby_apply_Permutation _ _ _ _ _ Hf He Hg) as (l & Hl & Hall).
    exists l. split; [done|].
    pose proof (rows_assign_binop "xmin" "x" "width" Qplus (λ w, w * stackaxismin s)%Q
      id (rows grouped) grouped xs ws (eq_sym (list_fmap_id _))
      (λ _, eq_refl) (λ _, eq_refl) Hxs Hws) as R1.
    pose proof (rows_assign_binop "xmax" "x" "width" Qplus (λ w, w * stackaxismax s')%Q
      _ (rows grouped) _ xs' ws' R1) as R2.
    lapply R2; [clear R2; intros R2 | intros r; by rewrite lookup_total_insert_ne].
    lapply R2; [clear R2; intros R2 | intros r; by rewrite lookup_total_insert_ne].
    rewrite (R2 Hxs' Hws'). apply Forall2_fmap_r.
    eapply Forall2_impl; [exact Hall|]. simpl. intros r0 r Hsame.
    repeat (apply same_outside_write;
            [rewrite !elem_of_cons, elem_of_nil; tauto|]).
    exact Hsame.
  - unfold bounding_boxes in H. rewrite !decide_False in H by done.
    injection H as <-. exists (rows data). split; [done|].
    apply Forall_Forall2_diag, Forall_forall. intros r _. apply same_outside_refl.
Qed.

Lemma groupvars_not_box gp sp c : c ∈ groupvars gp sp → c ∉ box_columns sp.
Proof.
  unfold groupvars, box_columns. intros Hc Hbox.
  assert (c = binaxis sp ∨ c = "PANEL" ∨ c = "group") as Hc'.
  { destruct (stackgroups gp); simpl in Hc;
      rewrite !elem_of_cons, elem_of_nil in Hc; tauto. }
  destruct (decide (binaxis sp = "x")) as [Hx|Hx];
    [|destruct (decide (binaxis sp = "y")) as [Hy|Hy]];
    rewrite ?Hx, ?Hy in Hc'; rewrite ?elem_of_cons, elem_of_nil in Hbox;
    intuition (subst; discriminate).
Qed.

Lemma numbering_not_box sp c :
  c = "countidx" ∨ c = "stackpos" → c ∉ box_columns sp.
Proof.
  unfold box_columns. intros Hc Hbox.
  destruct (decide (binaxis sp = "x")); [|destruct (decide (binaxis sp = "y"))];
    rewrite ?elem_of_cons, elem_of_nil in Hbox; intuition (subst; discriminate).
Qed.

Lemma same_outside_row_key cols cs (r r0 : row) :
  (∀ c, c ∈ cols → c ∉ cs) → same_outside cs r r0 →
  pd.row_key cols r = pd.row_key cols r0.
Proof.
  intros Hcols Hsame. unfold pd.row_key. apply mapM_ext_in. intros c Hc.
  unfold pd.get_cell. by rewrite (Hsame c (Hcols c Hc)).
Qed.

Lemma Forall2_fmap_eq {A B} (f : A → B) (l k : list A) :
  Forall2 (λ x y, f y = f x) l k → f <$> k = f <$> l.
Proof. induction 1 as [|x y l k Hxy _ IH]; csimpl; congruence. Qed.

(** *** The stacks after line 123 *)

Lemma placed_number_row sd n g (r : row) ci :
  (∀ ci, stack_rule (countidx_series n) ci sd (g ci)) →
  placed_dot sd n (number_row g r ci).
Proof.
  intros Hg. exists ci, (g ci). unfold number_row.
  split; [rewrite lookup_insert_ne by done; apply lookup_insert_eq|].
  split; [apply lookup_insert_eq | apply Hg].
Qed.

Lemma stack_bins_stack gp sp data staged k :
  binaxis sp ≠ "countidx" → binaxis sp ≠ "stackpos" →
  stack_bins gp sp data = Ok staged →
  let stack := pd.group_rows (groupvars gp sp) k (rows staged) in
  (λ r : row, r !! "countidx") <$> stack = Some <$> countidx_series (length stack) ∧
  Forall (placed_dot (stackdir gp) (length stack)) stack.
Proof.
  intros Hc1 Hc2 Hst stack. subst stack.
  apply stack_bins_Ok in Hst as (rep & _ & Hg & He).
  assert (("countidx" ∉ groupvars gp sp) ∧ ("stackpos" ∉ groupvars gp sp)) as [G1 G2].
  { split; apply not_in_groupvars; done. }
  destruct (groupby_apply_group _ _ _ _ k (λ g p, func_keeps_keys _ _ g p G1 G2) He Hg)
    as [[_ E]|(_ & p & Hp & E)]; rewrite E.
  - split; [done | constructor].
  - destruct (stack_setup (stackdir gp)) as [s|] eqn:Hs; [|by rewrite func_unbound in Hp].
    destruct (func_Ok _ _ _ _ Hs Hp) as (g & Hrule & ->). simpl in *.
    set (dots := pd.group_rows (groupvars gp sp) k (rows rep)) in *.
    assert (length (zip_with (number_row g) dots (countidx_series (length dots)))
            = length dots) as ->.
    { rewrite length_zip_with, length_countidx_series. lia. }
    split; [apply countidx_zip_number_row, length_countidx_series|].
    eapply (Forall_zip_with_snd _ (λ _, True)); [|by apply Forall_forall].
    intros r ci _. by apply placed_number_row.
Qed.

Lemma stack_bins_keyed gp sp data staged :
  binaxis sp ≠ "countidx" → binaxis sp ≠ "stackpos" →
  stack_bins gp sp data = Ok staged →
  Forall (λ r : row, ∃ k, pd.row_key (groupvars gp sp) r = Ok k) (rows staged).
Proof.
  intros Hc1 Hc2 Hst. apply stack_bins_Ok in Hst as (rep & _ & Hg & He).
  assert (("countidx" ∉ groupvars gp sp) ∧ ("stackpos" ∉ groupvars gp sp)) as [G1 G2].
  { split; apply not_in_groupvars; done. }
  set (keyed := λ r : row, ∃ k, pd.row_key (groupvars gp sp) r = Ok k).
  assert (Forall keyed (rows rep)) as Hrep.
  { destruct (groupby_apply_Ok _ _ _ _ Hg) as [[E _]|(_ & _ & keys & _ & Hkeys & _)].
    - rewrite (He E). constructor.
    - clear -Hkeys. induction Hkeys; constructor; [by eexists | done]. }
  eapply (groupby_apply_Forall keyed keyed); [| |exact Hrep|exact Hg].
  - intros g p Hp Hall. pose proof (func_keeps_keys _ _ _ _ G1 G2 Hp) as Hkeep.
    eapply Forall2_Forall_r; [exact Hkeep|].
    eapply Forall_impl; [exact Hall|]. intros r [k Hk] r' Hr'. exists k. congruence.
  - intros E. rewrite (He E). constructor.
Qed.


(** ** Frames by reference *)

Section draw_lemmas.
Context {Artist : Type}.
Implicit Types σ : draw.state Artist.

Lemma bind_run {A B} (m : draw.M Artist A) (f : A → draw.M Artist B) σ :
  draw.bind m f σ = match m σ with
                    | (Ok a, σ') => f a σ'
                    | (Raise e, σ') => (Raise e, σ')
                    end.
Proof. reflexivity. Qed.

Lemma read_col_run l c σ :
  draw.read_col l c σ = (pd.get_col c (draw.heap σ !!! l), σ).
Proof. reflexivity. Qed.

Lemma lift_run {A} (r : result A) σ : draw.lift r σ = (r, σ).
Proof. reflexivity. Qed.

Lemma lookup_total_heap (h : list DataFrame) l d : h !! l = Some d → h !!! l = d.
Proof. apply list_lookup_total_correct. Qed.

Lemma lookup_total_insert_heap (h : list DataFrame) l d :
  l < length h → <[l := d]> h !!! l = d.
Proof. intros Hl. apply list_lookup_total_correct. by apply list_lookup_insert_eq. Qed.

Lemma copy_run l d σ :
  draw.heap σ !! l = Some d →
  draw.copy l σ = (Ok (length (draw.heap σ)),
                   {| draw.heap := draw.heap σ ++ [d]; draw.axes := draw.axes σ |}).
Proof.
  intros Hd. unfold draw.copy, draw.bind, draw.load, draw.alloc.
  by rewrite (lookup_total_heap _ _ _ Hd).
Qed.

Lemma call_run (f : draw.method Artist) l d r d' ax σ :
  draw.heap σ !! l = Some d → f d (draw.axes σ) = (r, d', ax) →
  draw.call f l σ = (r, {| draw.heap := <[l := d']> (draw.heap σ); draw.axes := ax |}).
Proof.
  intros Hd Hf. unfold draw.call. by rewrite (lookup_total_heap _ _ _ Hd), Hf.
Qed.

Lemma read_col_at l c d σ :
  draw.heap σ !! l = Some d → draw.read_col l c σ = (pd.get_col c d, σ).
Proof. intros Hd. by rewrite read_col_run, (lookup_total_heap _ _ _ Hd). Qed.

Lemma write_col_run l c vals d σ :
  draw.heap σ !! l = Some d →
  draw.write_col l c vals σ
  = (Ok (), {| draw.heap := <[l := pd.set_col c vals d]> (draw.heap σ);
               draw.axes := draw.axes σ |}).
Proof.
  intros Hd. unfold draw.write_col, draw.bind, draw.load, draw.store.
  by rewrite (lookup_total_heap _ _ _ Hd).
Qed.

Lemma write_scalar_run l c v d σ :
  draw.heap σ !! l = Some d →
  draw.write_scalar l c v σ
  = (Ok (), {| draw.heap := <[l := pd.set_scalar c v d]> (draw.heap σ);
               draw.axes := draw.axes σ |}).
Proof.
  intros Hd. unfold draw.write_scalar, draw.bind, draw.load, draw.store.
  by rewrite (lookup_total_heap _ _ _ Hd).
Qed.

End draw_lemmas.

(** ** geom_pointrange *)

Section pointrange.
Import geom_pointrange.
Context {Artist PanelParams Coord Params : Type}.
Variables (linerange point : @geom_draw Artist PanelParams Coord Params).
Variable stroke : Q.
Variable fatten : Params → result Q.

(** What one call does to the frames and the axes, case by case. *)
Lemma pointrange_draw_group_run σ data d pp coord params r1 d1 ax1 :
  draw.heap σ !! data = Some d →
  linerange d pp coord (draw.axes σ) params = (r1, d1, ax1) →
  draw_group linerange point stroke fatten data pp coord params σ
  = match r1 with
    | Raise e => (Raise e, {| draw.heap := draw.heap σ ++ [d1]; draw.axes := ax1 |})
    | Ok _ =>
        match fattened stroke fatten params d with
        | Raise e =>
            (Raise e, {| draw.heap := draw.heap σ ++ [d1]; draw.axes := ax1 |})
        | Ok d' =>
            let '(r2, d2, ax2) := point d' pp coord ax1 params in
            (r2, {| draw.heap := <[data := d2]> (draw.heap σ) ++ [d1];
                    draw.axes := ax2 |})
        end
    end.
Proof.
  intros Hd Hlr. pose proof (lookup_lt_Some _ _ _ Hd) as Hlt.
  unfold draw_group. rewrite bind_run, (copy_run _ _ _ Hd).
  rewrite bind_run.
  erewrite call_run; [|simpl; by apply list_lookup_middle|simpl; exact Hlr].
  simpl. rewrite insert_app_r_alt, Nat.sub_diag by lia. simpl.
  destruct r1 as [[]|e]; [|done].
  assert ((draw.heap σ ++ [d1]) !! data = Some d) as Hd1 by by rewrite lookup_app_l.
  rewrite bind_run. erewrite read_col_at; [|simpl; exact Hd1]. unfold fattened.
  destruct (pd.get_col "size" d) as [size|e]; [|done]. simpl.
  rewrite bind_run, lift_run. destruct (fatten params) as [f|e]; [|done]. simpl.
  rewrite bind_run. erewrite write_col_run; [|simpl; exact Hd1]. simpl.
  rewrite bind_run. erewrite write_scalar_run;
    [|simpl; apply list_lookup_insert_eq; rewrite length_app; lia].
  simpl. rewrite list_insert_insert_eq.
  destruct (point _ pp coord ax1 params) as [[r2 d2] ax2] eqn:Hpt.
  erewrite call_run;
    [|simpl; apply list_lookup_insert_eq; rewrite length_app; lia|simpl; exact Hpt].
  simpl. rewrite list_insert_insert_eq, insert_app_l by lia. done.
Qed.

End pointrange.

(** C2. [geom_pointrange.draw_group] draws what [geom_linerange.draw_group]
    draws from a copy of the data followed by what [geom_point.draw_group]
    draws from the data with [size] multiplied by [fatten] and [stroke]
    set to the default stroke of [geom_point]; it ends the way that
    composition ends. *)
Theorem pointrange_draws_linerange_then_point
    {Artist PanelParams Coord Params : Type}
    (linerange point : @geom_pointrange.geom_draw Artist PanelParams Coord Params)
    (stroke : Q) (fatten : Params → result Q)
    (σ : draw.state Artist) (data : nat) (d : DataFrame) pp coord params :
  draw.heap σ !! data = Some d →
  let run := geom_pointrange.draw_group linerange point stroke fatten
               data pp coord params σ in
  (fst run, draw.axes (snd run))
  = geom_pointrange.linerange_then_point linerange point stroke fatten
      d pp coord params (draw.axes σ).
Proof.
  intros Hd run. subst run. unfold geom_pointrange.linerange_then_point.
  destruct (linerange d pp coord (draw.axes σ) params) as [[r1 d1] ax1] eqn:Hlr.
  rewrite (pointrange_draw_group_run _ _ _ _ _ _ _ _ _ _ _ _ _ Hd Hlr).
  destruct r1 as [[]|e]; [|done].
  destruct (geom_pointrange.fattened stroke fatten params d) as [d'|e]; [|done].
  by destruct (point d' pp coord ax1 params) as [[r2 d2] ax2].
Qed.

(** ** geom_dotplot.draw_group *)

Section dotplot.
Context {Colors PanelParams : Type}.
Variable coord_transform : DataFrame → PanelParams → result transformed * DataFrame.
Variable coord_range : PanelParams → (Q * Q) * (Q * Q).
Variable to_rgba : list Q → list Q → result Colors.
Variables ax_width ax_height : Q.

Local Abbreviation draw_group := (draw_group coord_transform coord_range to_rgba ax_width ax_height).
Local Abbreviation transform := (@transform Colors PanelParams coord_transform).
Local Abbreviation factor := (factor coord_range ax_width ax_height).

Lemma transform_run σ data d pp :
  draw.heap σ !! data = Some d →
  ∃ σ1, draw.axes σ1 = draw.axes σ ∧
        draw.heap σ1 !! data = Some (snd (coord_transform d pp)) ∧
        ((∃ e, transform data pp σ = (Raise e, σ1) ∧
               frame_drawn (coord_transform d pp) = None) ∨
         (∃ l dt, transform data pp σ = (Ok l, σ1) ∧
                  frame_drawn (coord_transform d pp) = Some dt ∧
                  draw.heap σ1 !! l = Some dt)).
Proof.
  intros Hd. pose proof (lookup_lt_Some _ _ _ Hd) as Hlt.
  unfold geom_dotplot.transform. rewrite (lookup_total_heap _ _ _ Hd).
  destruct (coord_transform d pp) as [[[|d']|e] d1]; simpl.
  - eexists. split; [|split; [|right; exists data, d1; split; [done|]]]; simpl;
      [done|by apply list_lookup_insert_eq|]. split; [done|].
    by apply list_lookup_insert_eq.
  - eexists. split; [|split; [|right; eexists _, d'; split; [done|]]]; simpl; [done| |].
    + rewrite lookup_app_l by (by rewrite length_insert).
      by apply list_lookup_insert_eq.
    + split; [done|]. by apply list_lookup_middle.
  - eexists. split; [|split; [|left; exists e; split; done]]; simpl; [done|].
    by apply list_lookup_insert_eq.
Qed.

Ltac run_step :=
  rewrite ?bind_run, ?read_col_run, ?lift_run; simpl;
  match goal with
  | |- context [pd.get_col ?c ?d] => destruct (pd.get_col c d); [|done]
  | |- context [to_rgba ?x ?y] => destruct (to_rgba x y); [|done]
  | |- context [pd.first ?x] => destruct (pd.first x); [|done]
  end.

(** After [coord.transform] the method only reads frames. *)
Lemma draw_group_heap σ data pp params :
  draw.heap (snd (draw_group data pp params σ))
  = draw.heap (snd (transform data pp σ)).
Proof.
  unfold geom_dotplot.draw_group. rewrite bind_run.
  destruct (transform data pp σ) as [[l|e] σ1]; [|done]. simpl.
  destruct (decide (p_binaxis params = "x"));
    [|destruct (decide (p_binaxis params = "y"))];
    repeat run_step; rewrite ?bind_run; done.
Qed.

Lemma get_col_total_Ok c df vs :
  pd.get_col c df = Ok vs → vs = (λ r : row, r !!! c) <$> rows df.
Proof. by intros (_ & -> & _)%get_col_Ok. Qed.

Ltac run_step_in H :=
  rewrite bind_run in H;
  first [erewrite read_col_at in H by eassumption | rewrite lift_run in H];
  match type of H with
  | context [match ?r with Ok _ => _ | Raise _ => _ end] =>
      let E := fresh "E" in destruct r eqn:E; [|done]
  end.

Lemma draw_group_Ok σ data d pp params σ' :
  draw.heap σ !! data = Some d →
  draw_group data pp params σ = (Ok (), σ') →
  ∃ dt fill color b0 bws,
    frame_drawn (coord_transform d pp) = Some dt ∧
    pd.get_col "binwidth" dt = Ok (b0 :: bws) ∧
    Forall (λ r : row, is_Some (r !! "x") ∧ is_Some (r !! "y") ∧
                       is_Some (r !! "stackpos")) (rows dt) ∧
    (p_binaxis params = "x" ∨ p_binaxis params = "y") ∧
    draw.axes σ' = draw.axes σ ++
      [{| patches := dot_ellipse (p_binaxis params) (b0 * p_dotsize params)
                       (factor pp) (p_stackratio params) <$> rows dt;
          edgecolors := color; facecolors := fill;
          rasterized := p_raster params |}].
Proof.
  intros Hd Hrun.
  destruct (transform_run σ data d pp Hd)
    as (σ1 & Hax & _ & [(e & Ht & _)|(l & dt & Ht & Hdt & Hl)]);
    unfold geom_dotplot.draw_group in Hrun; rewrite bind_run, Ht in Hrun; [done|].
  do 9 run_step_in Hrun.
  match goal with H : pd.first ?a = Ok ?b |- _ =>
    destruct a as [|b0 bws]; [done|]; injection H as <- end.
  match goal with H : to_rgba _ _ = Ok ?c, H' : to_rgba _ _ = Ok ?c' |- _ =>
    exists dt, c, c', b0, bws end.
  split; [done|]. split; [done|].
  match goal with H : pd.get_col "stackpos" dt = Ok _ |- _ =>
    pose proof (get_col_Ok _ _ _ H) as (_ & -> & Hpos) end.
  rewrite bind_run in Hrun. unfold dot_ellipse.
  destruct (decide (p_binaxis params = "x")) as [Hx|Hx];
    [|destruct (decide (p_binaxis params = "y")) as [Hy|Hy]; [|done]].
  all: do 2 run_step_in Hrun.
  all: repeat match goal with H : pd.get_col ?c _ = Ok ?v |- _ =>
         match c with
         | "x" => idtac | "y" => idtac
         end;
         let F := fresh "F" in
         pose proof (get_col_Ok _ _ _ H) as (_ & -> & F); clear H end.
  all: simpl in Hrun; injection Hrun as <-; simpl; rewrite Hax.
  all: split; [rewrite Forall_forall in *; intros r Hr; repeat split; auto|].
  all: split; [first [by left | by right]|]. all: do 2 f_equal.
  all: rewrite <- !list_fmap_compose, !zip_with_fmap_both; done.
Qed.

(** On a non-empty frame with the columns it reads, every column filled,
    the method draws. *)
Lemma draw_group_returns σ data d dt pp params :
  draw.heap σ !! data = Some d →
  frame_drawn (coord_transform d pp) = Some dt →
  Forall (λ c, column_filled c dt)
         ["fill"; "alpha"; "color"; "binwidth"; "stackpos"; "x"; "y"] →
  rows dt ≠ [] →
  (∀ c a, ∃ rgba, to_rgba c a = Ok rgba) →
  p_binaxis params = "x" ∨ p_binaxis params = "y" →
  ∃ σ', draw_group data pp params σ = (Ok (), σ').
Proof.
  intros Hd Hdt Hcols Hne Hrgba Hax.
  rewrite !Forall_cons in Hcols.
  destruct Hcols as (Ffill & Falpha & Fcolor & Fbw & Fpos & Fx & Fy & _).
  destruct (transform_run σ data d pp Hd)
    as (σ1 & _ & _ & [(e & _ & Hnone)|(l & dt' & Ht & Hdt' & Hl)]);
    [congruence|].
  assert (dt' = dt) as -> by congruence.
  unfold geom_dotplot.draw_group. rewrite bind_run, Ht.
  rewrite bind_run, (read_col_at _ _ _ _ Hl), (get_col_filled _ _ Ffill).
  rewrite bind_run, (read_col_at _ _ _ _ Hl), (get_col_filled _ _ Falpha).
  rewrite bind_run, lift_run.
  match goal with |- context [to_rgba ?c ?a] => destruct (Hrgba c a) as [fill ->] end.
  rewrite bind_run, (read_col_at _ _ _ _ Hl), (get_col_filled _ _ Fcolor).
  rewrite bind_run, (read_col_at _ _ _ _ Hl), (get_col_filled _ _ Falpha).
  rewrite bind_run, lift_run.
  match goal with |- context [to_rgba ?c ?a] => destruct (Hrgba c a) as [color ->] end.
  rewrite bind_run, (read_col_at _ _ _ _ Hl), (get_col_filled _ _ Fbw).
  rewrite bind_run, lift_run.
  destruct (rows dt) as [|r0 rs] eqn:Erows; [done|]. simpl pd.first. cbv iota.
  rewrite bind_run, (read_col_at _ _ _ _ Hl), (get_col_filled _ _ Fpos).
  rewrite bind_run.
  destruct Hax as [Hx|Hy].
  - rewrite decide_True by done.
    rewrite bind_run, (read_col_at _ _ _ _ Hl), (get_col_filled _ _ Fx).
    rewrite bind_run, (read_col_at _ _ _ _ Hl), (get_col_filled _ _ Fy).
    simpl. eauto.
  - rewrite decide_False by (rewrite Hy; discriminate). rewrite decide_True by done.
    rewrite bind_run, (read_col_at _ _ _ _ Hl), (get_col_filled _ _ Fx).
    rewrite bind_run, (read_col_at _ _ _ _ Hl), (get_col_filled _ _ Fy).
    simpl. eauto.
Qed.

Lemma first_row_binwidth dt b0 bws :
  pd.get_col "binwidth" dt = Ok (b0 :: bws) →
  ∃ r0 : row, rows dt !! 0 = Some r0 ∧ r0 !! "binwidth" = Some b0.
Proof.
  intros (_ & Hvs & Hall)%get_col_Ok.
  destruct (rows dt) as [|r0 rs]; [done|]. exists r0. split; [done|].
  injection Hvs as -> _. apply Forall_cons in Hall as [[v Hv] _].
  by rewrite (lookup_total_correct _ _ _ Hv).
Qed.

Lemma factor_spec pp :
  (factor pp ==
   (ax_width / ax_height) * (np_ptp (snd (coord_range pp)) / np_ptp (fst (coord_range pp))))%Q.
Proof. unfold geom_dotplot.factor, Qdiv. ring. Qed.

(** C5. Every dot is an ellipse corrected by the aspect of the axes.  With
    [size] the bin width of the first row times [dotsize] and [factor] the
    axes' width over height times the extent of the y range over that of
    the x range: binning along x, the ellipse is [size] wide and
    [size * factor] high, centred at [(x, y + height * stackpos *
    stackratio)]; binning along y, it is [size / factor] wide and [size]
    high, centred at [(x + width * stackpos * stackratio, y)]. *)
Theorem dots_are_aspect_corrected_ellipses σ data d pp params σ' :
  draw.heap σ !! data = Some d →
  draw_group data pp params σ = (Ok (), σ') →
  ∃ dt coll b0,
    frame_drawn (coord_transform d pp) = Some dt ∧
    draw.axes σ' = draw.axes σ ++ [coll] ∧
    (∃ r0 : row, rows dt !! 0 = Some r0 ∧ r0 !! "binwidth" = Some b0) ∧
    let size := (b0 * p_dotsize params)%Q in
    let factor := ((ax_width / ax_height) *
                   (np_ptp (snd (coord_range pp)) / np_ptp (fst (coord_range pp))))%Q in
    Forall2 (λ (r : row) (e : Ellipse),
      ∃ x y pos,
        r !! "x" = Some x ∧ r !! "y" = Some y ∧ r !! "stackpos" = Some pos ∧
        ((p_binaxis params = "x" ∧
          (ellipse_width e == size)%Q ∧ (ellipse_height e == size * factor)%Q ∧
          (fst (center e) == x)%Q ∧
          (snd (center e) == y + ellipse_height e * pos * p_stackratio params)%Q) ∨
         (p_binaxis params = "y" ∧
          (ellipse_width e == size / factor)%Q ∧ (ellipse_height e == size)%Q ∧
          (fst (center e) == x + ellipse_width e * pos * p_stackratio params)%Q ∧
          (snd (center e) == y)%Q)))
      (rows dt) (patches coll).
Proof.
  intros Hd Hrun.
  destruct (draw_group_Ok _ _ _ _ _ _ Hd Hrun)
    as (dt & fill & color & b0 & bws & Hdt & Hbw & Hall & Hax & Haxes).
  eexists dt, _, b0. split; [done|]. split; [exact Haxes|].
  split; [by eapply first_row_binwidth|]. simpl.
  apply Forall2_fmap_r, Forall_Forall2_diag.
  eapply Forall_impl; [exact Hall|]. simpl.
  intros r ([x Hx] & [y Hy] & [pos Hpos]). exists x, y, pos.
  split; [done|]. split; [done|]. split; [done|].
  unfold dot_ellipse.
  rewrite (lookup_total_correct _ _ _ Hx), (lookup_total_correct _ _ _ Hy),
    (lookup_total_correct _ _ _ Hpos).
  pose proof (factor_spec pp) as HF.
  destruct Hax as [Hax|Hax]; rewrite Hax; [left|right]; simpl.
  - split; [done|]. split; [reflexivity|]. split; [by rewrite HF|].
    split; [reflexivity|]. ring.
  - split; [done|]. split; [by rewrite HF|]. split; [reflexivity|].
    split; [ring | reflexivity].
Qed.

(** C10. The size of every dot comes from the first row alone: whatever
    the other rows hold in [binwidth], all ellipses of the group have the
    width and height computed from [data.loc[0, 'binwidth'] * dotsize]. *)
Theorem dots_sized_from_first_row σ data d pp params σ' :
  draw.heap σ !! data = Some d →
  draw_group data pp params σ = (Ok (), σ') →
  ∃ dt coll (r0 : row) b0,
    frame_drawn (coord_transform d pp) = Some dt ∧
    draw.axes σ' = draw.axes σ ++ [coll] ∧
    rows dt !! 0 = Some r0 ∧ r0 !! "binwidth" = Some b0 ∧
    length (patches coll) = length (rows dt) ∧
    ∀ e, e ∈ patches coll →
      ellipse_width e
      = (if decide (p_binaxis params = "x") then b0 * p_dotsize params
         else b0 * p_dotsize params / factor pp)%Q ∧
      ellipse_height e
      = (if decide (p_binaxis params = "x") then b0 * p_dotsize params * factor pp
         else b0 * p_dotsize params)%Q.
Proof.
  intros Hd Hrun.
  destruct (draw_group_Ok _ _ _ _ _ _ Hd Hrun)
    as (dt & fill & color & b0 & bws & Hdt & Hbw & Hall & Hax & Haxes).
  destruct (first_row_binwidth _ _ _ Hbw) as (r0 & Hr0 & Hb0).
  eexists dt, _, r0, b0. split; [done|]. split; [exact Haxes|].
  split; [done|]. split; [done|]. simpl. split; [by rewrite length_fmap|].
  intros e (r & -> & _)%list_elem_of_fmap. unfold dot_ellipse.
  by destruct (decide (p_binaxis params = "x")).
Qed.

(** Whatever the outcome, the caller's frame is as [coord.transform] left
    it. *)
Lemma dotplot_caller_frame σ data d pp params :
  draw.heap σ !! data = Some d →
  draw.heap (snd (draw_group data pp params σ)) !! data
  = Some (snd (coord_transform d pp)).
Proof.
  intros Hd. rewrite draw_group_heap.
  destruct (transform_run σ data d pp Hd)
    as (σ1 & _ & Hcaller & [(e & Ht & _)|(l & dt & Ht & _ & _)]); by rewrite Ht.
Qed.

End dotplot.

(** ** setup_data among the frames of its caller *)

Section setup_by_reference.
Context {Artist : Type}.
Variable resolution : list Q → Q.
Implicit Types σ : draw.state Artist.

Local Abbreviation setup_width_at := (@setup_width_at Artist resolution).
Local Abbreviation setup_data_at := (@setup_data_at Artist resolution).

(** *** The frame made last *)

Lemma lookup_total_last (pre : list DataFrame) d : (pre ++ [d]) !!! length pre = d.
Proof. apply list_lookup_total_correct. by apply list_lookup_middle. Qed.

Lemma insert_last (pre : list DataFrame) d d' :
  <[length pre := d']> (pre ++ [d]) = pre ++ [d'].
Proof. by rewrite insert_app_r_alt, Nat.sub_diag by lia. Qed.

Lemma load_last pre d (a : list Artist) :
  draw.load (length pre) {| draw.heap := pre ++ [d]; draw.axes := a |}
  = (Ok d, {| draw.heap := pre ++ [d]; draw.axes := a |}).
Proof. unfold draw.load. simpl. by rewrite lookup_total_last. Qed.

Lemma read_col_last pre d (a : list Artist) c :
  draw.read_col (length pre) c {| draw.heap := pre ++ [d]; draw.axes := a |}
  = (pd.get_col c d, {| draw.heap := pre ++ [d]; draw.axes := a |}).
Proof. rewrite read_col_run. simpl. by rewrite lookup_total_last. Qed.

Lemma write_col_last pre d (a : list Artist) c vals :
  draw.write_col (length pre) c vals {| draw.heap := pre ++ [d]; draw.axes := a |}
  = (Ok (), {| draw.heap := pre ++ [pd.set_col c vals d]; draw.axes := a |}).
Proof.
  erewrite write_col_run; [|simpl; by apply list_lookup_middle].
  simpl. by rewrite insert_last.
Qed.

Lemma write_scalar_last pre d (a : list Artist) c v :
  draw.write_scalar (length pre) c v {| draw.heap := pre ++ [d]; draw.axes := a |}
  = (Ok (), {| draw.heap := pre ++ [pd.set_scalar c v d]; draw.axes := a |}).
Proof.
  erewrite write_scalar_run; [|simpl; by apply list_lookup_middle].
  simpl. by rewrite insert_last.
Qed.

Lemma alloc_run d σ :
  draw.alloc d σ = (Ok (length (draw.heap σ)),
                    {| draw.heap := draw.heap σ ++ [d]; draw.axes := draw.axes σ |}).
Proof. reflexivity. Qed.

Lemma take_prefix (pre fresh : list DataFrame) : take (length pre) (pre ++ fresh) = pre.
Proof. apply take_app_length. Qed.

(** *** The three steps *)

Lemma setup_width_at_run sp σ l d :
  draw.heap σ !! l = Some d →
  setup_width_at sp l σ
  = match setup_width resolution sp d with
    | Ok d1 => (Ok (), {| draw.heap := <[l := d1]> (draw.heap σ);
                          draw.axes := draw.axes σ |})
    | Raise e => (Raise e, σ)
    end.
Proof.
  intros Hd. unfold geom_dotplot.setup_width_at, setup_width.
  rewrite bind_run. unfold draw.load. rewrite (lookup_total_heap _ _ _ Hd).
  destruct (pd.has_col "width" d).
  - unfold draw.ret. rewrite (list_insert_id _ _ _ Hd). by destruct σ.
  - destruct (truthy (width sp)) as [w|].
    + by rewrite (write_scalar_run _ _ _ _ _ Hd).
    + rewrite bind_run, (read_col_at _ _ _ _ Hd).
      destruct (pd.get_col "x" d) as [xs|e]; simpl; [|done].
      by rewrite (write_scalar_run _ _ _ _ _ Hd).
Qed.

Lemma stack_bins_at_run gp sp σ l d :
  draw.heap σ !! l = Some d →
  @stack_bins_at Artist gp sp l σ
  = match fill_bins d with
    | Raise e => (Raise e, σ)
    | Ok rep =>
        let pre := draw.heap σ ++ [rep] in
        match groupby_apply rep (groupvars gp sp) (func (stack_setup (stackdir gp))) with
        | Raise e => (Raise e, {| draw.heap := pre; draw.axes := draw.axes σ |})
        | Ok staged =>
            (Ok (length pre), {| draw.heap := pre ++ [staged]; draw.axes := draw.axes σ |})
        end
    end.
Proof.
  intros Hd. unfold stack_bins_at, fill_bins.
  rewrite bind_run, (read_col_at _ _ _ _ Hd).
  destruct (pd.get_col "count" d) as [counts|e]; simpl; [|done].
  rewrite bind_run. unfold draw.load at 1. rewrite (lookup_total_heap _ _ _ Hd).
  rewrite bind_run, lift_run.
  destruct (pd.iloc _ d) as [rep|e]; simpl; [|done].
  rewrite bind_run, alloc_run, bind_run, load_last, bind_run, lift_run.
  destruct (groupby_apply rep _ _) as [staged|e]; simpl; [|done].
  by rewrite alloc_run.
Qed.

Ltac box_stop :=
  unfold frame_returned; simpl; by rewrite <- ?app_assoc, take_prefix.

Ltac box_step :=
  rewrite bind_run;
  first [ rewrite read_col_last | rewrite write_col_last
        | rewrite write_scalar_last | rewrite lift_run ];
  cbv beta iota;
  try match goal with
      | |- context [match ?r with Ok _ => _ | Raise _ => _ end] =>
          lazymatch r with
          | pd.get_col _ _ => idtac
          | local _ _ => idtac
          end;
          destruct r; cbv beta iota; simpl (_ ≫= _); [|box_stop]
      end.

(** The box step writes to the frame it is given, or to the one it makes,
    and to no frame made before. *)
Lemma bounding_boxes_at_run st sp pre staged (a : list Artist) :
  let run := @bounding_boxes_at Artist st sp (length pre)
               {| draw.heap := pre ++ [staged]; draw.axes := a |} in
  take (length pre) (draw.heap (snd run)) = pre ∧
  draw.axes (snd run) = a ∧
  frame_returned run = bounding_boxes st sp staged.
Proof.
  intros run. subst run. unfold bounding_boxes_at, bounding_boxes.
  destruct (decide (binaxis sp = "x")) as [Hx|Hx];
    [|destruct (decide (binaxis sp = "y")) as [Hy|Hy]].
  - do 11 box_step. unfold draw.ret, frame_returned. simpl.
    by rewrite take_prefix, lookup_total_last.
  - rewrite bind_run, load_last. cbv beta iota. rewrite bind_run, lift_run.
    cbv beta iota.
    destruct (groupby_apply staged ["group"] (func_y staged)) as [grouped|e];
      cbv beta iota; simpl (_ ≫= _); [|box_stop].
    rewrite bind_run, alloc_run. cbv beta iota. simpl draw.heap. simpl draw.axes.
    do 8 box_step. unfold draw.ret, frame_returned. simpl.
    by rewrite <- app_assoc, take_prefix, app_assoc, lookup_total_last.
  - unfold draw.ret, frame_returned. simpl.
    by rewrite take_prefix, lookup_total_last.
Qed.

(** *** The whole call *)

Lemma setup_data_at_run gp sp σ l d :
  draw.heap σ !! l = Some d →
  let o := setup_data resolution gp sp d in
  let run := setup_data_at gp sp l σ in
  take (length (draw.heap σ)) (draw.heap (snd run)) = <[l := caller_data o]> (draw.heap σ) ∧
  draw.axes (snd run) = draw.axes σ ∧
  frame_returned run = returned o.
Proof.
  intros Hd. pose proof (lookup_lt_Some _ _ _ Hd) as Hlt.
  unfold geom_dotplot.setup_data_at, setup_data.
  rewrite bind_run, (setup_width_at_run _ _ _ _ Hd).
  destruct (setup_width resolution sp d) as [d1|e]; simpl.
  2: { rewrite firstn_all, (list_insert_id _ _ _ Hd). done. }
  set (h1 := <[l := d1]> (draw.heap σ)).
  assert (h1 !! l = Some d1) as Hd1 by (by apply list_lookup_insert_eq).
  assert (length h1 = length (draw.heap σ)) as Hlen by apply length_insert.
  rewrite bind_run. erewrite stack_bins_at_run; [|simpl; exact Hd1].
  unfold stack_bins. simpl.
  destruct (fill_bins d1) as [rep|e]; simpl; [|by rewrite firstn_all2 by lia].
  destruct (groupby_apply rep _ _) as [staged|e]; simpl.
  2: { rewrite <- Hlen. by rewrite take_prefix. }
  destruct (bounding_boxes_at_run (stack_setup (stackdir gp)) sp (h1 ++ [rep]) staged
              (draw.axes σ)) as (Hpre & Hax & Hret).
  split; [|split; [exact Hax | exact Hret]].
  rewrite <- Hlen. transitivity (take (length h1) (h1 ++ [rep])); [|apply take_prefix].
  symmetry. etransitivity; [exact (f_equal (take (length h1)) (eq_sym Hpre))|].
  rewrite take_take. f_equal. rewrite length_app. simpl. lia.
Qed.


End setup_by_reference.

(** ** The caller's frame *)

(** C3 as the code has it.  [geom_dotplot.draw_group] writes nothing to
    the frame it is given: after the call, whatever its outcome, that frame
    is as [coord.transform] left it.  [geom_pointrange.draw_group] hands
    [geom_linerange] a copy but then writes to the frame it was given: when
    the line range is drawn and [size] and [fatten] are there, the caller
    finds its frame with [size] multiplied by [fatten] and a [stroke]
    column, as [geom_point] left it. *)
Theorem caller_frame_after_draw_group :
  (∀ (Colors PanelParams : Type) coord_transform coord_range
     (to_rgba : list Q → list Q → result Colors) ax_width ax_height
     (σ : draw.state (geom_dotplot.PatchCollection Colors)) data d
     (pp : PanelParams) params,
     draw.heap σ !! data = Some d →
     draw.heap (snd (geom_dotplot.draw_group coord_transform coord_range to_rgba
                       ax_width ax_height data pp params σ)) !! data
     = Some (snd (coord_transform d pp))) ∧
  (∀ (Artist PanelParams Coord Params : Type)
     (linerange point : @geom_pointrange.geom_draw Artist PanelParams Coord Params)
     stroke fatten (σ : draw.state Artist) data d d' pp coord params,
     draw.heap σ !! data = Some d →
     fst (fst (linerange d pp coord (draw.axes σ) params)) = Ok () →
     geom_pointrange.fattened stroke fatten params d = Ok d' →
     draw.heap (snd (geom_pointrange.draw_group linerange point stroke fatten
                       data pp coord params σ)) !! data
     = Some (snd (fst (point d' pp coord
                         (snd (linerange d pp coord (draw.axes σ) params)) params)))).
Proof.
  split.
  - intros. by apply dotplot_caller_frame.
  - intros Artist PanelParams Coord Params linerange point stroke fatten σ data d d'
      pp coord params Hd Hlr Hfat.
    destruct (linerange d pp coord (draw.axes σ) params) as [[r1 d1] ax1] eqn:Elr.
    simpl in Hlr. subst r1. simpl.
    rewrite (pointrange_draw_group_run _ _ _ _ _ _ _ _ _ _ _ _ _ Hd Elr), Hfat.
    destruct (point d' pp coord ax1 params) as [[r2 d2] ax2]. simpl.
    rewrite lookup_app_l by (rewrite length_insert; by eapply lookup_lt_Some).
    apply list_lookup_insert_eq. by eapply lookup_lt_Some.
Qed.

(** ** Worked examples *)

Import geom_dotplot dotplot_spec examples.

(** C3, as stated, fails: drawing the sample point range leaves the
    caller's frame with [size] 2 instead of 1/2 and with a [stroke]
    column. *)
Lemma pointrange_writes_to_caller_frame :
  fst pointrange_run = Ok () ∧
  draw.heap (snd pointrange_run) !! 0 ≠ draw.heap σ_interval !! 0.
Proof. split; [reflexivity | vm_compute; discriminate]. Qed.


(** C9, as stated, fails on float64 cells: for [x = 1.0] and
    [binwidth = 0.1] the code stores [xmin = 0.95] and
    [xmax = 1.05], and [xmax - xmin] is [0.10000000000000009], not the bin
    width. *)
Lemma box_width_is_not_binwidth :
  let '(xmin, xmax) := box_x_float64 1%float (1 / 10)%float in
  PrimFloat.eqb (xmax - xmin)%float (1 / 10)%float = false.
Proof. vm_compute. reflexivity. Qed.

Lemma bounding_box_binaxis_x_witness :
  binaxis sp0 = "x" ∧
  returned (setup_data res0 gp0 sp0 df0) = Ok out0 ∧
  dot0 ∈ rows out0 ∧
  ∃ x bw lo hi,
    dot0 !! "x" = Some x ∧ dot0 !! "binwidth" = Some bw ∧
    dot0 !! "xmin" = Some (x - bw / 2)%Q ∧ dot0 !! "xmax" = Some (x + bw / 2)%Q ∧
    dot0 !! "y" = Some 0%Q ∧
    stack_axis (stackdir gp0) = Some (lo, hi) ∧
    dot0 !! "ymin" = Some lo ∧ dot0 !! "ymax" = Some hi.
Proof.
  assert (binaxis sp0 = "x") as H1 by reflexivity.
  assert (returned (setup_data res0 gp0 sp0 df0) = Ok out0) as H2
    by (vm_compute; reflexivity).
  assert (dot0 ∈ rows out0) as H3 by (vm_compute; left).
  split; [exact H1|]. split; [exact H2|]. split; [exact H3|].
  exact (bounding_box_binaxis_x res0 gp0 sp0 df0 out0 dot0 H1 H2 H3).
Defined.


Lemma bins_filled_and_numbered_witness :
  binaxis sp0 ≠ "countidx" ∧ binaxis sp0 ≠ "stackpos" ∧
  returned (setup_data res0 gp0 sp0 df0) = Ok out0 ∧
  ∃ rep staged,
    fill_bins (caller_data (setup_data res0 gp0 sp0 df0)) = Ok rep ∧
    rows rep = (r ← rows (caller_data (setup_data res0 gp0 sp0 df0));
                replicate (Z.to_nat (py_int (r !!! "count"))) r) ∧
    (∀ r : row, (r !!! "count" == 0)%Q → Z.to_nat (py_int (r !!! "count")) = 0) ∧
    groupby_apply rep (groupvars gp0 sp0) (func (stack_setup (stackdir gp0))) = Ok staged ∧
    bounding_boxes (stack_setup (stackdir gp0)) sp0 staged = Ok out0 ∧
    ∀ k, let dots := pd.group_rows (groupvars gp0 sp0) k (rows rep) in
         let stack := pd.group_rows (groupvars gp0 sp0) k (rows staged) in
         (λ r : row, r !! "countidx") <$> stack = Some <$> countidx_series (length dots) ∧
         unstacked <$> stack = unstacked <$> dots.
Proof.
  assert (binaxis sp0 ≠ "countidx") as H1 by (simpl; discriminate).
  assert (binaxis sp0 ≠ "stackpos") as H2 by (simpl; discriminate).
  assert (returned (setup_data res0 gp0 sp0 df0) = Ok out0) as H3
    by (vm_compute; reflexivity).
  split; [exact H1|]. split; [exact H2|]. split; [exact H3|].
  exact (bins_filled_and_numbered res0 gp0 sp0 df0 out0 H1 H2 H3).
Defined.

Lemma warnings_do_not_change_result_witness :
  warn_position ∈ warnings (setup_data res0 gp_stack sp0 df0) ∧
  warn_stackgroups ∈ warnings (setup_data res0 gp_stack sp0 df0) ∧
  returned (setup_data res0 gp_stack sp0 df0)
  = returned (setup_data res0
      {| position := "identity"; stackdir := stackdir gp_stack;
         stackratio := stackratio gp_stack; dotsize := dotsize gp_stack;
         stackgroups := stackgroups gp_stack |}
      {| method := "histodot"; binpositions := "all";
         binaxis := binaxis sp0; width := width sp0 |} df0).
Proof.
  destruct (warnings_do_not_change_result res0 gp_stack sp0 df0) as (Hp & Hs & _ & Hsame).
  split; [apply Hp; reflexivity|].
  split; [apply Hs; repeat split; reflexivity|].
  symmetry. exact (proj1 (Hsame "identity" "histodot" "all")).
Defined.



Lemma pointrange_draws_linerange_then_point_witness :
  draw.heap σ_interval !! 0 = Some interval ∧
  (fst pointrange_run, draw.axes (snd pointrange_run))
  = geom_pointrange.linerange_then_point (draws "linerange") (draws "point") (1#2) Ok
      interval () () 4%Q (draw.axes σ_interval).
Proof.
  assert (draw.heap σ_interval !! 0 = Some interval) as H1 by reflexivity.
  split; [exact H1|].
  exact (pointrange_draws_linerange_then_point (draws "linerange") (draws "point")
           (1#2) Ok σ_interval 0 interval () () 4%Q H1).
Defined.

Lemma dots_are_aspect_corrected_ellipses_witness :
  draw.heap σ_dots !! 0 = Some dots ∧
  draw_group identity_transform ranges0 rgba0 6 4 0 () draw_x σ_dots = (Ok (), snd drawn) ∧
  ∃ dt coll b0,
    frame_drawn (identity_transform dots ()) = Some dt ∧
    draw.axes (snd drawn) = draw.axes σ_dots ++ [coll] ∧
    (∃ r0 : row, rows dt !! 0 = Some r0 ∧ r0 !! "binwidth" = Some b0) ∧
    let size := (b0 * p_dotsize draw_x)%Q in
    let factor := ((6 / 4) * (np_ptp (snd (ranges0 ())) / np_ptp (fst (ranges0 ()))))%Q in
    Forall2 (λ (r : row) (e : Ellipse),
      ∃ x y pos,
        r !! "x" = Some x ∧ r !! "y" = Some y ∧ r !! "stackpos" = Some pos ∧
        ((p_binaxis draw_x = "x" ∧
          (ellipse_width e == size)%Q ∧ (ellipse_height e == size * factor)%Q ∧
          (fst (center e) == x)%Q ∧
          (snd (center e) == y + ellipse_height e * pos * p_stackratio draw_x)%Q) ∨
         (p_binaxis draw_x = "y" ∧
          (ellipse_width e == size / factor)%Q ∧ (ellipse_height e == size)%Q ∧
          (fst (center e) == x + ellipse_width e * pos * p_stackratio draw_x)%Q ∧
          (snd (center e) == y)%Q)))
      (rows dt) (patches coll).
Proof.
  assert (draw.heap σ_dots !! 0 = Some dots) as H1 by reflexivity.
  assert (draw_group identity_transform ranges0 rgba0 6 4 0 () draw_x σ_dots
          = (Ok (), snd drawn)) as H2 by (vm_compute; reflexivity).
  split; [exact H1|]. split; [exact H2|].
  exact (dots_are_aspect_corrected_ellipses identity_transform ranges0 rgba0 6 4
           σ_dots 0 dots () draw_x (snd drawn) H1 H2).
Defined.

Lemma dots_sized_from_first_row_witness :
  draw.heap σ_dots !! 0 = Some dots ∧
  draw_group identity_transform ranges0 rgba0 6 4 0 () draw_x σ_dots = (Ok (), snd drawn) ∧
  ∃ dt coll (r0 : row) b0,
    frame_drawn (identity_transform dots ()) = Some dt ∧
    draw.axes (snd drawn) = draw.axes σ_dots ++ [coll] ∧
    rows dt !! 0 = Some r0 ∧ r0 !! "binwidth" = Some b0 ∧
    length (patches coll) = length (rows dt) ∧
    ∀ e, e ∈ patches coll →
      ellipse_width e
      = (if decide (p_binaxis draw_x = "x") then b0 * p_dotsize draw_x
         else b0 * p_dotsize draw_x / factor ranges0 6 4 ())%Q ∧
      ellipse_height e
      = (if decide (p_binaxis draw_x = "x")
         then b0 * p_dotsize draw_x * factor ranges0 6 4 ()
         else b0 * p_dotsize draw_x)%Q.
Proof.
  assert (draw.heap σ_dots !! 0 = Some dots) as H1 by reflexivity.
  assert (draw_group identity_transform ranges0 rgba0 6 4 0 () draw_x σ_dots
          = (Ok (), snd drawn)) as H2 by (vm_compute; reflexivity).
  split; [exact H1|]. split; [exact H2|].
  exact (dots_sized_from_first_row identity_transform ranges0 rgba0 6 4
           σ_dots 0 dots () draw_x (snd drawn) H1 H2).
Defined.

Lemma caller_frame_after_draw_group_witness :
  (draw.heap σ_dots !! 0 = Some dots ∧
   draw.heap (snd (draw_group identity_transform ranges0 rgba0 6 4 0 () draw_x σ_dots)) !! 0
   = Some (snd (identity_transform dots ()))) ∧
  (draw.heap σ_interval !! 0 = Some interval ∧
   fst (fst (draws "linerange" interval () () (draw.axes σ_interval) 4%Q)) = Ok () ∧
   geom_pointrange.fattened (1#2) Ok 4%Q interval = Ok fat_interval ∧
   draw.heap (snd pointrange_run) !! 0
   = Some (snd (fst (draws "point" fat_interval () ()
                       (snd (draws "linerange" interval () () (draw.axes σ_interval) 4%Q))
                       4%Q)))).
Proof.
  destruct caller_frame_after_draw_group as [Hdot Hpr].
  assert (draw.heap σ_dots !! 0 = Some dots) as H1 by reflexivity.
  assert (draw.heap σ_interval !! 0 = Some interval) as H2 by reflexivity.
  assert (fst (fst (draws "linerange" interval () () (draw.axes σ_interval) 4%Q)) = Ok ())
    as H3 by reflexivity.
  assert (geom_pointrange.fattened (1#2) Ok 4%Q interval = Ok fat_interval) as H4
    by (vm_compute; reflexivity).
  split.
  - split; [exact H1|].
    exact (Hdot _ _ identity_transform ranges0 rgba0 6%Q 4%Q σ_dots 0 dots () draw_x H1).
  - split; [exact H2|]. split; [exact H3|]. split; [exact H4|].
    exact (Hpr _ _ _ _ (draws "linerange") (draws "point") (1#2)%Q Ok σ_interval 0
             interval fat_interval () () 4%Q H2 H3 H4).
Defined.

(** * Further properties of geom_dotplot.setup_data *)

(** ** What the rows keep *)

Lemma stack_bins_Forall (P : row → Prop) gp sp data staged :
  (∀ c v r, c ∈ ["countidx"; "stackpos"] → P r → P (<[c := v]> r)) →
  Forall P (rows data) → stack_bins gp sp data = Ok staged → Forall P (rows staged).
Proof.
  intros Hins Hall Hst. apply stack_bins_Ok in Hst as (rep & Hrep & Hg & _).
  assert (Forall P (rows rep)) as Hrep_all.
  { destruct (fill_bins_Ok _ _ Hrep) as (_ & _ & ->).
    rewrite Forall_forall in Hall. apply Forall_forall.
    intros r Hr%replicated_sub. auto. }
  eapply (groupby_apply_Forall P P); [|done|exact Hrep_all|exact Hg].
  intros g p Hp Hgall. unfold func in Hp.
  inv_bind Hp as s Hs. inv_bind Hp as a Ha. inv_bind Hp as pos Hpos. injection Hp as <-.
  apply Forall_rows_set_col; [intros; apply Hins; [repeat constructor|done]|].
  apply Forall_rows_set_col; [intros; apply Hins; [repeat constructor|done]|]. done.
Qed.

Lemma setup_width_Forall (P : row → Prop) res sp data d1 :
  (∀ v r, P r → P (<["width" := v]> r)) →
  Forall P (rows data) → setup_width res sp data = Ok d1 → Forall P (rows d1).
Proof.
  intros Hins Hall. unfold setup_width.
  destruct (pd.has_col "width" data); [intros [= <-]; exact Hall|].
  destruct (truthy (width sp)) as [w|].
  - intros [= <-]. apply Forall_rows_set_scalar; [apply Hins | exact Hall].
  - intros H. inv_bind H as xs Hxs. injection H as <-.
    apply Forall_rows_set_scalar; [apply Hins | exact Hall].
Qed.

(** A property of the rows that survives a write to any of the columns
    [setup_data] writes holds of every row it returns. *)
Lemma setup_data_Forall (P : row → Prop) res gp sp data out :
  (∀ c v r, c ∈ written_columns → P r → P (<[c := v]> r)) →
  Forall P (rows data) → returned (setup_data res gp sp data) = Ok out →
  Forall P (rows out).
Proof.
  intros Hins Hall Hret. apply setup_data_Ok in Hret as (staged & Hw & Hst & Hbb).
  eapply bounding_boxes_Forall; [|exact Hbb|].
  { intros c v r Hc. apply Hins. unfold written_columns.
    rewrite !elem_of_cons, elem_of_nil in *. tauto. }
  eapply stack_bins_Forall; [|
    |exact Hst].
  { intros c v r Hc. apply Hins. unfold written_columns.
    rewrite !elem_of_cons, elem_of_nil in *. tauto. }
  eapply setup_width_Forall; [|exact Hall|exact Hw].
  intros v r. apply Hins. unfold written_columns. by left.
Qed.

Lemma same_outside_insert cs c v (r r0 : row) :
  c ∈ cs → same_outside cs r r0 → same_outside cs (<[c := v]> r) r0.
Proof.
  intros Hc Hsame c' Hc'. rewrite lookup_insert_ne; [by apply Hsame|].
  by intros ->.
Qed.

(** X1. Every dot is a copy of a row of the input: outside the columns
    [setup_data] writes ([width], [countidx], [stackpos] and the box
    columns) it holds what that row holds. *)
Theorem dots_are_copies_of_rows res gp sp data out :
  returned (setup_data res gp sp data) = Ok out →
  Forall (λ r : row, ∃ r0 : row, r0 ∈ rows data ∧ same_outside written_columns r r0)
         (rows out).
Proof.
  intros Hret. eapply setup_data_Forall; [| |exact Hret].
  - intros c v r Hc (r0 & Hr0 & Hsame). exists r0. split; [done|].
    by apply same_outside_insert.
  - apply Forall_forall. intros r Hr. exists r. split; [done|]. by intros c _.
Qed.

Lemma dots_are_copies_of_rows_witness :
  returned (setup_data res0 gp0 sp0 df0) = Ok out0 ∧
  Forall (λ r : row, ∃ r0 : row, r0 ∈ rows df0 ∧ same_outside written_columns r r0)
         (rows out0).
Proof.
  assert (returned (setup_data res0 gp0 sp0 df0) = Ok out0) as H1
    by (vm_compute; reflexivity).
  split; [exact H1|]. exact (dots_are_copies_of_rows res0 gp0 sp0 df0 out0 H1).
Defined.

(** X2. A frame that comes without a [width] column gets one: every row
    returned holds the stat's [width] when that is set and not 0, and 0.9
    times the resolution of [x] otherwise. *)
Theorem missing_width_is_filled_in res gp sp data out :
  "width" ∉ columns data →
  returned (setup_data res gp sp data) = Ok out →
  Forall (λ r : row, r !! "width" = Some (default_width res sp data)) (rows out).
Proof.
  intros Hno Hret. apply setup_data_Ok in Hret as (staged & Hw & Hst & Hbb).
  assert (Forall (λ r : row, r !! "width" = Some (default_width res sp data))
                 (rows (caller_data (setup_data res gp sp data)))) as Hd1.
  { revert Hw. generalize (caller_data (setup_data res gp sp data)). intros d1.
    unfold setup_width, pd.has_col, default_width.
    rewrite bool_decide_eq_false_2 by done.
    destruct (truthy (width sp)) as [w|].
    - intros [= <-]. simpl. apply Forall_fmap, Forall_true. intros r.
      apply lookup_insert_eq.
    - intros H. inv_bind H as xs Hxs. injection H as <-.
      apply get_col_Ok in Hxs as (_ & -> & _).
      simpl. apply Forall_fmap, Forall_true. intros r. apply lookup_insert_eq. }
  eapply bounding_boxes_Forall; [|exact Hbb|].
  { intros c v r Hc Hr. rewrite lookup_insert_ne; [done|].
    intros ->. rewrite !elem_of_cons, elem_of_nil in Hc. intuition discriminate. }
  eapply stack_bins_Forall; [| exact Hd1 |exact Hst].
  intros c v r Hc Hr. rewrite lookup_insert_ne; [done|].
  intros ->. rewrite !elem_of_cons, elem_of_nil in Hc. intuition discriminate.
Qed.

Lemma missing_width_is_filled_in_witness :
  ("width" ∉ columns df0) ∧
  returned (setup_data res0 gp0 sp0 df0) = Ok out0 ∧
  Forall (λ r : row, r !! "width" = Some (default_width res0 sp0 df0)) (rows out0).
Proof.
  assert ("width" ∉ columns df0) as H1
    by (apply (bool_decide_unpack _); vm_compute; exact I).
  assert (returned (setup_data res0 gp0 sp0 df0) = Ok out0) as H2
    by (vm_compute; reflexivity).
  split; [exact H1|]. split; [exact H2|].
  exact (missing_width_is_filled_in res0 gp0 sp0 df0 out0 H1 H2).
Defined.

(** X3. The only thing [setup_data] writes to the frame it is given is
    the [width] column: a frame that has one is left as it is, and any
    other frame keeps its rows, in order, with every other cell and every
    column it had. *)
Theorem setup_data_writes_only_width res gp sp data :
  let d' := caller_data (setup_data res gp sp data) in
  ("width" ∈ columns data → d' = data) ∧
  Forall2 (λ r r' : row, ∀ c, c ≠ "width" → r' !! c = r !! c) (rows data) (rows d') ∧
  (∀ c, c ∈ columns data → c ∈ columns d') ∧
  (∀ c, c ∈ columns d' → c = "width" ∨ c ∈ columns data).
Proof.
  simpl.
  assert (Forall2 (λ r r' : row, ∀ c, c ≠ "width" → r' !! c = r !! c)
                  (rows data) (rows data)) as Hsame.
  { apply Forall_Forall2_diag, Forall_true. done. }
  assert (∀ w, Forall2 (λ r r' : row, ∀ c, c ≠ "width" → r' !! c = r !! c)
                 (rows data) (rows (pd.set_scalar "width" w data))) as Hset.
  { intros w. simpl. apply Forall2_fmap_r, Forall_Forall2_diag, Forall_true.
    intros r c Hc. by rewrite lookup_insert_ne. }
  assert (∀ w c, c ∈ columns (pd.set_scalar "width" w data) ↔
                 c = "width" ∨ c ∈ columns data) as Hcols.
  { intros w c. simpl. apply elem_of_add_col. }
  unfold setup_data, setup_width, pd.has_col.
  case_bool_decide as Hw; simpl.
  { split; [done|]. split; [done|]. split; [done|]. by right. }
  destruct (truthy (width sp)) as [w|]; simpl.
  { split; [done|]. split; [apply Hset|]. split; intros c; rewrite Hcols; tauto. }
  destruct (pd.get_col "x" data) as [xs|e]; simpl.
  - split; [done|]. split; [apply Hset|]. split; intros c; rewrite Hcols; tauto.
  - split; [done|]. split; [done|]. split; [done|]. by right.
Qed.

Lemma setup_data_writes_only_width_witness :
  Forall2 (λ r r' : row, ∀ c, c ≠ "width" → r' !! c = r !! c)
          (rows df0) (rows (caller_data (setup_data res0 gp0 sp0 df0))).
Proof. exact (proj1 (proj2 (setup_data_writes_only_width res0 gp0 sp0 df0))). Defined.

(** ** How many dots *)

Lemma sum_list_fmap_plus {A} (f g : A → nat) (l : list A) :
  sum_list ((λ x, f x + g x) <$> l) = sum_list (f <$> l) + sum_list (g <$> l).
Proof. induction l as [|x l IH]; csimpl; [done|]. rewrite IH. lia. Qed.

Lemma sum_list_indicator `{EqDecision A} (x0 : A) (l : list A) :
  NoDup l → x0 ∈ l → sum_list ((λ x, if decide (x0 = x) then 1 else 0) <$> l) = 1.
Proof.
  induction 1 as [|x l Hx Hnd IH]; [by intros ?%elem_of_nil|].
  csimpl. intros [->|Hin]%elem_of_cons.
  - rewrite decide_True by done.
    assert (sum_list ((λ y, if decide (x = y) then 1 else 0) <$> l) = 0) as ->; [|done].
    clear IH Hnd. induction l as [|y l IH]; csimpl; [done|].
    apply not_elem_of_cons in Hx as [Hne Hx].
    rewrite decide_False by done. by rewrite IH.
  - rewrite decide_False by (intros ->; done). by rewrite IH.
Qed.

Lemma length_concat_rows (parts : list DataFrame) :
  length (concat (rows <$> parts)) = sum_list ((λ p, length (rows p)) <$> parts).
Proof.
  induction parts as [|p ps IH]; csimpl; [done|]. by rewrite length_app, IH.
Qed.

Lemma sum_group_lengths cols (rs : list row) keys ks :
  Forall2 (λ r k, pd.row_key cols r = Ok k) rs keys →
  NoDup ks → (∀ k, k ∈ keys → k ∈ ks) →
  sum_list ((λ k, length (pd.group_rows cols k rs)) <$> ks) = length rs.
Proof.
  intros Hkeys Hnd. induction Hkeys as [|r k0 rs keys Hr _ IH]; intros Hsub.
  - clear Hsub Hnd. induction ks as [|k ks IH]; [done|]. exact IH.
  - transitivity (sum_list ((λ k, (if decide (k0 = k) then 1 else 0)
                                  + length (pd.group_rows cols k rs)) <$> ks)).
    { f_equal. apply list_fmap_ext. intros _ k _.
      unfold pd.group_rows. destruct (decide (k0 = k)) as [->|Hne].
      - by rewrite filter_cons_True.
      - rewrite filter_cons_False; [done|]. rewrite Hr. congruence. }
    rewrite sum_list_fmap_plus, (sum_list_indicator k0 ks Hnd).
    + rewrite IH; [done|]. intros k Hk. apply Hsub. by right.
    + apply Hsub. by left.
Qed.

(** A grouping whose function keeps the number of rows of every group
    keeps the number of rows of the frame. *)
Lemma groupby_apply_length df cols f out :
  (∀ g p, f g = Ok p → length (rows p) = length (rows g)) →
  groupby_apply df cols f = Ok out → length (rows out) = length (rows df).
Proof.
  intros Hf H.
  apply groupby_apply_Ok in H as [[E ->]|(E & _ & keys & parts & Hkeys & Hparts & ->)];
    [done|]. simpl.
  rewrite length_concat_rows.
  rewrite <- (sum_group_lengths cols (rows df) keys
                (merge_sort pd.key_le (remove_dups keys)) Hkeys).
  - f_equal. induction Hparts as [|k p ks ps Hp _ IH]; csimpl; [done|].
    rewrite IH. f_equal. by rewrite (Hf _ _ Hp).
  - rewrite merge_sort_Permutation. apply NoDup_remove_dups.
  - intros k Hk. by rewrite merge_sort_Permutation, elem_of_remove_dups.
Qed.

Lemma length_replicated (l : list row) : length (replicated l) = dot_count l.
Proof.
  unfold replicated, dot_count. induction l as [|r l IH]; csimpl; [done|].
  by rewrite length_app, length_replicate, IH.
Qed.

Lemma func_length sd g p :
  func (stack_setup sd) g = Ok p → length (rows p) = length (rows g).
Proof.
  intros Hp. destruct (stack_setup sd) as [s|] eqn:Hs; [|by rewrite func_unbound in Hp].
  destruct (func_Ok _ _ _ _ Hs Hp) as (pos & _ & ->).
  rewrite length_zip_with, length_countidx_series. lia.
Qed.

Lemma func_y_length data g p :
  func_y data g = Ok p → length (rows p) = length (rows g).
Proof.
  intros H. unfold func_y in H.
  inv_bind H as ys Hys. inv_bind H as lo Hlo. inv_bind H as bw Hbw. inv_bind H as b0 Hb0.
  inv_bind H as ys' Hys'. inv_bind H as hi Hhi. inv_bind H as bw' Hbw'.
  inv_bind H as b0' Hb0'. injection H as <-. simpl. by rewrite !length_fmap.
Qed.

Lemma length_rows_set_col c a b (f : Q → Q → Q) (h : Q → Q) df xs ys :
  pd.get_col a df = Ok xs → pd.get_col b df = Ok ys →
  length (rows (pd.set_col c (zip_with f xs (h <$> ys)) df)) = length (rows df).
Proof.
  intros Hxs Hys.
  rewrite (rows_assign_binop c a b f h id (rows df) df xs ys
             (eq_sym (list_fmap_id _)) (λ _, eq_refl) (λ _, eq_refl) Hxs Hys).
  by rewrite length_fmap.
Qed.

Lemma bounding_boxes_length st sp data out :
  bounding_boxes st sp data = Ok out → length (rows out) = length (rows data).
Proof.
  intros H. unfold bounding_boxes in H.
  destruct (decide (binaxis sp = "x")) as [Hx|_];
    [|destruct (decide (binaxis sp = "y")) as [Hy|_]].
  - inv_bind H as xs Hxs. inv_bind H as bw Hbw.
    inv_bind H as xs' Hxs'. inv_bind H as bw' Hbw'.
    inv_bind H as s Hs. inv_bind H as s' Hs'. injection H as <-.
    cbn [rows pd.set_scalar]. rewrite !length_fmap.
    rewrite (length_rows_set_col _ _ _ _ _ _ _ _ Hxs' Hbw').
    by rewrite (length_rows_set_col _ _ _ _ _ _ _ _ Hxs Hbw).
  - inv_bind H as grouped Hg. inv_bind H as xs Hxs. inv_bind H as ws Hws.
    inv_bind H as s Hs. inv_bind H as xs' Hxs'. inv_bind H as ws' Hws'.
    inv_bind H as s' Hs'. injection H as <-.
    rewrite (length_rows_set_col _ _ _ _ _ _ _ _ Hxs' Hws').
    rewrite (length_rows_set_col _ _ _ _ _ _ _ _ Hxs Hws).
    eapply groupby_apply_length; [|exact Hg]. apply func_y_length.
  - by injection H as <-.
Qed.

Lemma copies_insert_width w (r : row) : copies (<["width" := w]> r) = copies r.
Proof. unfold copies. by rewrite lookup_total_insert_ne. Qed.

Lemma setup_width_dot_count res sp data d1 :
  setup_width res sp data = Ok d1 → dot_count (rows d1) = dot_count (rows data).
Proof.
  assert (∀ w, dot_count (rows (pd.set_scalar "width" w data)) = dot_count (rows data))
    as Hset.
  { intros w. unfold dot_count. simpl. rewrite <- list_fmap_compose. f_equal.
    apply list_fmap_ext. intros _ r _. apply copies_insert_width. }
  unfold setup_width. destruct (pd.has_col "width" data); [by intros [= <-]|].
  destruct (truthy (width sp)) as [w|]; [by intros [= <-]|].
  intros H. inv_bind H as xs Hxs. by injection H as <-.
Qed.

(** X4. [setup_data] returns one row per observation: the number of rows
    it returns is the sum, over the rows it is given, of [int(count)]
    (none for a count below 1), whatever the direction and the bin axis. *)
Theorem one_row_per_observation res gp sp data out :
  returned (setup_data res gp sp data) = Ok out →
  length (rows out)
  = sum_list ((λ r : row, Z.to_nat (py_int (r !!! "count"))) <$> rows data).
Proof.
  intros Hret. apply setup_data_Ok in Hret as (staged & Hw & Hst & Hbb).
  rewrite (bounding_boxes_length _ _ _ _ Hbb).
  apply stack_bins_Ok in Hst as (rep & Hrep & Hg & _).
  rewrite (groupby_apply_length _ _ _ _ (func_length (stackdir gp)) Hg).
  destruct (fill_bins_Ok _ _ Hrep) as (_ & _ & ->).
  rewrite length_replicated. exact (setup_width_dot_count _ _ _ _ Hw).
Qed.

Lemma one_row_per_observation_witness :
  returned (setup_data res0 gp0 sp0 df0) = Ok out0 ∧
  length (rows out0)
  = sum_list ((λ r : row, Z.to_nat (py_int (r !!! "count"))) <$> rows df0).
Proof.
  assert (returned (setup_data res0 gp0 sp0 df0) = Ok out0) as H1
    by (vm_compute; reflexivity).
  split; [exact H1|]. exact (one_row_per_observation res0 gp0 sp0 df0 out0 H1).
Defined.

(** ** Binning along y *)

Lemma foldl_Qmin_le_init (x : Q) (l : list Q) : (foldl Qmin x l <= x)%Q.
Proof.
  revert x. induction l as [|a l IH]; intros x; simpl; [apply Qle_refl|].
  eapply Qle_trans; [apply IH|apply Q.le_min_l].
Qed.

Lemma foldl_Qmin_le_elem (x v : Q) (l : list Q) : v ∈ l → (foldl Qmin x l <= v)%Q.
Proof.
  revert x. induction l as [|a l IH]; intros x; [by intros ?%elem_of_nil|].
  simpl. intros [->|Hin]%elem_of_cons.
  - eapply Qle_trans; [apply foldl_Qmin_le_init|apply Q.le_min_r].
  - by apply IH.
Qed.

Lemma foldl_Qmax_ge_init (x : Q) (l : list Q) : (x <= foldl Qmax x l)%Q.
Proof.
  revert x. induction l as [|a l IH]; intros x; simpl; [apply Qle_refl|].
  eapply Qle_trans; [apply Q.le_max_l|apply IH].
Qed.

Lemma foldl_Qmax_ge_elem (x v : Q) (l : list Q) : v ∈ l → (v <= foldl Qmax x l)%Q.
Proof.
  revert x. induction l as [|a l IH]; intros x; [by intros ?%elem_of_nil|].
  simpl. intros [->|Hin]%elem_of_cons.
  - eapply Qle_trans; [apply Q.le_max_r|apply foldl_Qmax_ge_init].
  - by apply IH.
Qed.

Lemma np_min_le (a : list Q) lo v : np_min a = Ok lo → v ∈ a → (lo <= v)%Q.
Proof.
  destruct a as [|x l]; [done|]. simpl. intros [= <-] [->|Hin]%elem_of_cons.
  - apply foldl_Qmin_le_init.
  - by apply foldl_Qmin_le_elem.
Qed.

Lemma np_max_ge (a : list Q) hi v : np_max a = Ok hi → v ∈ a → (v <= hi)%Q.
Proof.
  destruct a as [|x l]; [done|]. simpl. intros [= <-] [->|Hin]%elem_of_cons.
  - apply foldl_Qmax_ge_init.
  - by apply foldl_Qmax_ge_elem.
Qed.

Ltac inserted :=
  repeat (rewrite lookup_insert_ne by done); first [apply lookup_insert_eq | done].

(** What lines 146-149 make of one group. *)
Lemma func_y_Ok data g p :
  func_y data g = Ok p →
  ∃ lo hi b0,
    np_min (series "y" g) = Ok lo ∧ np_max (series "y" g) = Ok hi ∧
    pd.first (series "binwidth" data) = Ok b0 ∧
    Forall (λ r : row, is_Some (r !! "y")) (rows g) ∧
    rows p = (λ r : row, <["ymax" := (hi + b0 / 2)%Q]>
                           (<["ymin" := (lo - b0 / 2)%Q]> r)) <$> rows g.
Proof.
  intros H. unfold func_y in H.
  inv_bind H as ys Hys. inv_bind H as lo Hlo. inv_bind H as bw Hbw. inv_bind H as b0 Hb0.
  inv_bind H as ys' Hys'. inv_bind H as hi Hhi. inv_bind H as bw' Hbw'.
  inv_bind H as b0' Hb0'. injection H as <-.
  assert (bw' = bw) as -> by congruence. assert (b0' = b0) as -> by congruence.
  apply (get_col_rows_fmap "y" _ (λ r : row, <["ymin" := (lo - b0 / 2)%Q]> r)
           (rows g)) in Hys';
    [|done|intros r; by rewrite lookup_total_insert_ne].
  apply get_col_Ok in Hys as (_ & -> & Hall). apply get_col_Ok in Hbw as (_ & -> & _).
  subst ys'. exists lo, hi, b0. split; [done|]. split; [done|]. split; [done|].
  split; [done|]. simpl. by rewrite <- list_fmap_compose.
Qed.

(** X5. When binning along y, every row returned has
    [xmin = x + width * lo] and [xmax = x + width * hi], where [[lo, hi]]
    is the range of the stack axis for the direction, and
    [ymin = ylo - b/2], [ymax = yhi + b/2] for a lower bound [ylo] and an
    upper bound [yhi] of its own [y] and one bin width [b] shared by all
    rows. *)
Theorem bounding_box_binaxis_y res gp sp data out :
  binaxis sp = "y" →
  returned (setup_data res gp sp data) = Ok out →
  ∃ lo hi b,
    stack_axis (stackdir gp) = Some (lo, hi) ∧
    Forall (λ r : row,
      ∃ x w y ylo yhi,
        r !! "x" = Some x ∧ r !! "width" = Some w ∧ r !! "y" = Some y ∧
        r !! "xmin" = Some (x + w * lo)%Q ∧ r !! "xmax" = Some (x + w * hi)%Q ∧
        r !! "ymin" = Some (ylo - b / 2)%Q ∧ r !! "ymax" = Some (yhi + b / 2)%Q ∧
        (ylo <= y)%Q ∧ (y <= yhi)%Q) (rows out).
Proof.
  intros Hy Hret. apply setup_data_Ok in Hret as (staged & _ & _ & H).
  unfold bounding_boxes in H.
  rewrite decide_False in H by (rewrite Hy; discriminate).
  rewrite decide_True in H by done.
  inv_bind H as grouped Hg. inv_bind H as xs Hxs. inv_bind H as ws Hws.
  inv_bind H as s Hs. inv_bind H as xs' Hxs'. inv_bind H as ws' Hws'.
  inv_bind H as s' Hs'. injection H as <-.
  apply local_Ok in Hs. apply local_Ok in Hs'. rewrite Hs in Hs'. injection Hs' as <-.
  set (b := match series "binwidth" staged with v :: _ => v | [] => 0%Q end).
  exists (stackaxismin s), (stackaxismax s), b. split; [by apply stack_setup_axis|].
  assert (Forall (λ r : row, ∃ y ylo yhi,
            r !! "y" = Some y ∧ r !! "ymin" = Some (ylo - b / 2)%Q ∧
            r !! "ymax" = Some (yhi + b / 2)%Q ∧ (ylo <= y)%Q ∧ (y <= yhi)%Q)
          (rows grouped)) as Hbox.
  { eapply (groupby_apply_Forall (λ _, True)); [| |by apply Forall_true|exact Hg].
    - intros g p Hp _. apply func_y_Ok in Hp as (lo & hi & b0 & Hlo & Hhi & Hb0 & Hall & ->).
      assert (b0 = b) as ->.
      { subst b. destruct (series "binwidth" staged); [done|]. by injection Hb0. }
      apply Forall_fmap, Forall_forall. intros r Hr. simpl.
      rewrite Forall_forall in Hall. destruct (Hall r Hr) as [y Hyr].
      exists y, lo, hi. do 3 (split; [inserted|]).
      assert (y ∈ series "y" g) as Hin.
      { unfold series. apply list_elem_of_fmap. exists r.
        by rewrite (lookup_total_correct _ _ _ Hyr). }
      split; [by eapply np_min_le | by eapply np_max_ge].
    - intros E. apply groupby_apply_Ok in Hg as [[_ ->]|[E' _]]; [|congruence].
      rewrite (empty_rows staged); [constructor| |done].
      apply get_col_Ok in Hxs as (Hin & _). intros Hnil. rewrite Hnil in Hin.
      by apply elem_of_nil in Hin. }
  pose proof (get_col_Ok _ _ _ Hxs) as (_ & _ & Fx).
  pose proof (get_col_Ok _ _ _ Hws) as (_ & _ & Fw).
  pose proof (rows_assign_binop "xmin" "x" "width" Qplus (λ w, w * stackaxismin s)%Q
    id (rows grouped) grouped xs ws (eq_sym (list_fmap_id _))
    (λ _, eq_refl) (λ _, eq_refl) Hxs Hws) as R1.
  pose proof (rows_assign_binop "xmax" "x" "width" Qplus (λ w, w * stackaxismax s)%Q
    _ (rows grouped) _ xs' ws' R1) as R2.
  lapply R2; [clear R2; intros R2 | intros r; by rewrite lookup_total_insert_ne].
  lapply R2; [clear R2; intros R2 | intros r; by rewrite lookup_total_insert_ne].
  rewrite (R2 Hxs' Hws'). apply Forall_fmap, Forall_forall. intros r Hr. simpl.
  rewrite Forall_forall in Hbox, Fx, Fw.
  destruct (Hbox r Hr) as (y & ylo & yhi & Hyr & Hmin & Hmax & Hle1 & Hle2).
  destruct (Fx r Hr) as [x Hx]. destruct (Fw r Hr) as [w Hw].
  exists x, w, y, ylo, yhi.
  rewrite (lookup_total_correct _ _ _ Hx), (lookup_total_correct _ _ _ Hw).
  repeat (split; [inserted|]). done.
Qed.

Lemma bounding_box_binaxis_y_witness :
  binaxis sp_y = "y" ∧
  returned (setup_data res0 gp0 sp_y df_y) = Ok out_y ∧
  ∃ lo hi b,
    stack_axis (stackdir gp0) = Some (lo, hi) ∧
    Forall (λ r : row,
      ∃ x w y ylo yhi,
        r !! "x" = Some x ∧ r !! "width" = Some w ∧ r !! "y" = Some y ∧
        r !! "xmin" = Some (x + w * lo)%Q ∧ r !! "xmax" = Some (x + w * hi)%Q ∧
        r !! "ymin" = Some (ylo - b / 2)%Q ∧ r !! "ymax" = Some (yhi + b / 2)%Q ∧
        (ylo <= y)%Q ∧ (y <= yhi)%Q) (rows out_y).
Proof.
  assert (binaxis sp_y = "y") as H1 by reflexivity.
  assert (returned (setup_data res0 gp0 sp_y df_y) = Ok out_y) as H2
    by (vm_compute; reflexivity).
  split; [exact H1|]. split; [exact H2|].
  exact (bounding_box_binaxis_y res0 gp0 sp_y df_y out_y H1 H2).
Defined.

(** ** A frame without counts *)

Lemma setup_width_columns res sp data d1 c :
  setup_width res sp data = Ok d1 → c ∈ columns d1 → c = "width" ∨ c ∈ columns data.
Proof.
  unfold setup_width. destruct (pd.has_col "width" data); [intros [= <-]; by right|].
  destruct (truthy (width sp)) as [w|].
  - intros [= <-]. simpl. by rewrite elem_of_add_col.
  - intros H. inv_bind H as xs Hxs. injection H as <-. simpl. by rewrite elem_of_add_col.
Qed.

(** X6. A frame without a [count] column is never stacked: once the
    width is set up, filling the bins raises [KeyError 'count']; an error
    of the width step itself comes first. *)
Theorem missing_count_column res gp sp data :
  "count" ∉ columns data →
  returned (setup_data res gp sp data)
  = match setup_width res sp data with
    | Ok _ => Raise (KeyError "count")
    | Raise e => Raise e
    end.
Proof.
  intros Hc. unfold setup_data.
  destruct (setup_width res sp data) as [d1|e] eqn:Hw; simpl; [|done].
  unfold stack_bins, fill_bins, pd.get_col, pd.has_col.
  rewrite bool_decide_eq_false_2; [done|].
  intros Hin. destruct (setup_width_columns _ _ _ _ _ Hw Hin); [discriminate|done].
Qed.

Lemma missing_count_column_witness :
("count" ∉ columns df_nocount) ∧
  returned (setup_data res0 gp0 sp0 df_nocount) = Raise (KeyError "count").
Proof.
  assert ("count" ∉ columns df_nocount) as H.
  { apply (bool_decide_unpack _). vm_compute. exact I. }
  split; [exact H|]. exact (missing_count_column res0 gp0 sp0 df_nocount H).
Defined.

(** ** The shape of a stack *)

Lemma of_nat_S n : (of_nat (S n) == of_nat n + 1)%Q.
Proof.
  unfold of_nat. rewrite Nat2Z.inj_succ, <- Z.add_1_r, inject_Z_plus. reflexivity.
Qed.

Lemma of_nat_add n m : (of_nat (n + m) == of_nat n + of_nat m)%Q.
Proof. unfold of_nat. rewrite Nat2Z.inj_add, inject_Z_plus. reflexivity. Qed.

Lemma lookup_countidx_series n i c :
  countidx_series n !! i = Some c → c = of_nat (S i) ∧ i < n.
Proof.
  unfold countidx_series. rewrite list_lookup_fmap. intros H.
  destruct (seq 1 n !! i) as [k|] eqn:Hk; [|done]. injection H as <-.
  apply lookup_seq in Hk as [-> ?]. done.
Qed.

(** The position [func] writes into the row at index [i] of a stack. *)
Lemma func_lookup sd df out i (r : row) p :
  func (stack_setup sd) df = Ok out →
  rows out !! i = Some r → r !! "stackpos" = Some p →
  i < length (rows df) ∧
  stack_rule (countidx_series (length (rows df))) (of_nat (S i)) sd p.
Proof.
  intros Hf Hi Hp.
  destruct (stack_setup sd) as [s|] eqn:Hs; [|by rewrite func_unbound in Hf].
  destruct (func_Ok _ _ _ _ Hs Hf) as (g & Hg & Hrows).
  rewrite Hrows in Hi. apply lookup_zip_with_Some in Hi as (r0 & c & -> & _ & Hc).
  apply lookup_countidx_series in Hc as [-> Hlt]. split; [done|].
  unfold number_row in Hp. rewrite lookup_insert_eq in Hp. injection Hp as <-. apply Hg.
Qed.

(** X7. Within a stack, consecutive dots sit exactly one position apart:
    one unit further along the stack axis, or one unit back when the
    direction is ['down']. *)
Theorem consecutive_dots_one_apart sd df out i (r1 r2 : row) p1 p2 :
  func (stack_setup sd) df = Ok out →
  rows out !! i = Some r1 → rows out !! S i = Some r2 →
  r1 !! "stackpos" = Some p1 → r2 !! "stackpos" = Some p2 →
  (p2 - p1 == if decide (sd = Some "down") then -1 else 1)%Q.
Proof.
  intros Hf H1 H2 Hp1 Hp2.
  destruct (func_lookup _ _ _ _ _ _ Hf H1 Hp1) as [_ R1].
  destruct (func_lookup _ _ _ _ _ _ Hf H2 Hp2) as [_ R2].
  pose proof (of_nat_S (S i)) as E.
  inversion R1 as [Hsd E1|Hsd E1|Hsd E1|m1 Hm1 Hsd E1|m1 Hm1 Hsd E1]; subst sd;
    inversion R2 as [Hsd E2|Hsd E2|Hsd E2|m2 Hm2 Hsd E2|m2 Hm2 Hsd E2];
    try discriminate; simpl; rewrite E.
  - ring.
  - ring.
  - ring.
  - assert (m2 = m1) as -> by congruence. ring.
  - assert (m2 = m1) as -> by congruence. ring.
Qed.

Lemma consecutive_dots_one_apart_witness :
  func (stack_setup (Some "down")) stack3 = Ok numbered3_down ∧
  nth_row 1 numbered3_down !! "stackpos" = Some (-(3#2))%Q ∧
  nth_row 2 numbered3_down !! "stackpos" = Some (-(5#2))%Q ∧
  (-(5#2) - -(3#2) == -1)%Q.
Proof.
  assert (func (stack_setup (Some "down")) stack3 = Ok numbered3_down) as Hf
    by (vm_compute; reflexivity).
  assert (rows numbered3_down !! 1 = Some (nth_row 1 numbered3_down)) as H1 by reflexivity.
  assert (rows numbered3_down !! 2 = Some (nth_row 2 numbered3_down)) as H2 by reflexivity.
  assert (nth_row 1 numbered3_down !! "stackpos" = Some (-(3#2))%Q) as Hp1
    by (vm_compute; reflexivity).
  assert (nth_row 2 numbered3_down !! "stackpos" = Some (-(5#2))%Q) as Hp2
    by (vm_compute; reflexivity).
  split; [exact Hf|]. split; [exact Hp1|]. split; [exact Hp2|].
  exact (consecutive_dots_one_apart (Some "down") stack3 numbered3_down 1 _ _ _ _
           Hf H1 H2 Hp1 Hp2).
Defined.

(** X8. A centred stack is symmetric about zero: the positions of the
    dot [i] places from the start and of the dot [i] places from the end
    add up to zero. *)
Theorem center_stack_is_symmetric df out i j (r1 r2 : row) p1 p2 :
  func (stack_setup (Some "center")) df = Ok out →
  i + j + 1 = length (rows df) →
  rows out !! i = Some r1 → rows out !! j = Some r2 →
  r1 !! "stackpos" = Some p1 → r2 !! "stackpos" = Some p2 →
  (p1 + p2 == 0)%Q.
Proof.
  intros Hf Hn H1 H2 Hp1 Hp2.
  destruct (func_lookup _ _ _ _ _ _ Hf H1 Hp1) as [_ R1].
  destruct (func_lookup _ _ _ _ _ _ Hf H2 Hp2) as [_ R2].
  inversion R1 as [| | |m1 Hm1 Hsd E1|]. inversion R2 as [| | |m2 Hm2 Hsd' E2|].
  assert (m2 = m1) as -> by congruence.
  rewrite (np_max_countidx _ _ Hm1), <- Hn.
  rewrite !of_nat_S, !of_nat_add, of_nat_S. change (of_nat 0) with 0%Q.
  generalize (of_nat i) (of_nat j). intros a b. field.
Qed.

Lemma center_stack_is_symmetric_witness :
  func (stack_setup (Some "center")) stack3 = Ok numbered3 ∧
  0 + 2 + 1 = length (rows stack3) ∧
  nth_row 0 numbered3 !! "stackpos" = Some (-2#2)%Q ∧
  nth_row 2 numbered3 !! "stackpos" = Some (2#2)%Q ∧
  ((-2#2) + (2#2) == 0)%Q.
Proof.
  assert (func (stack_setup (Some "center")) stack3 = Ok numbered3) as Hf
    by (vm_compute; reflexivity).
  assert (0 + 2 + 1 = length (rows stack3)) as Hn by reflexivity.
  assert (rows numbered3 !! 0 = Some (nth_row 0 numbered3)) as H1 by reflexivity.
  assert (rows numbered3 !! 2 = Some (nth_row 2 numbered3)) as H2 by reflexivity.
  assert (nth_row 0 numbered3 !! "stackpos" = Some (-2#2)%Q) as Hp1
    by (vm_compute; reflexivity).
  assert (nth_row 2 numbered3 !! "stackpos" = Some (2#2)%Q) as Hp2
    by (vm_compute; reflexivity).
  split; [exact Hf|]. split; [exact Hn|]. split; [exact Hp1|]. split; [exact Hp2|].
  exact (center_stack_is_symmetric stack3 numbered3 0 2 _ _ _ _ Hf Hn H1 H2 Hp1 Hp2).
Defined.

Lemma Qfloor_half_countidx n m :
  (m == of_nat n - 1)%Q → Qfloor (m / 2) = ((Z.of_nat n - 1) / 2)%Z.
Proof.
  intros Hm.
  assert (m / 2 == (Z.of_nat n - 1) # 2)%Q as ->.
  { rewrite Hm. unfold of_nat, Qeq, Qdiv, Qmult, Qminus, Qplus, Qopp, Qinv, inject_Z.
    simpl. lia. }
  reflexivity.
Qed.

(** X9. With ['centerwhole'] the dots of a stack of [n] sit on whole
    numbers: the dot at index [i] (from 0) at [i - (n - 1) div 2]. *)
Theorem centerwhole_stack_on_whole_numbers df out i (r : row) p :
  func (stack_setup (Some "centerwhole")) df = Ok out →
  rows out !! i = Some r → r !! "stackpos" = Some p →
  (p == inject_Z (Z.of_nat i - (Z.of_nat (length (rows df)) - 1) / 2))%Q.
Proof.
  intros Hf Hi Hp.
  destruct (func_lookup _ _ _ _ _ _ Hf Hi Hp) as [_ R].
  inversion R as [| | | |m Hm Hsd E].
  rewrite (Qfloor_half_countidx _ _ (np_max_countidx _ _ Hm)).
  rewrite of_nat_S. unfold of_nat, Z.sub. rewrite inject_Z_plus, inject_Z_opp. ring.
Qed.

Lemma centerwhole_stack_on_whole_numbers_witness :
  func (stack_setup (Some "centerwhole")) stack3 = Ok numbered3_whole ∧
  nth_row 0 numbered3_whole !! "stackpos" = Some (-1)%Q ∧
  (-1 == inject_Z (Z.of_nat 0 - (Z.of_nat (length (rows stack3)) - 1) / 2))%Q.
Proof.
  assert (func (stack_setup (Some "centerwhole")) stack3 = Ok numbered3_whole) as Hf
    by (vm_compute; reflexivity).
  assert (rows numbered3_whole !! 0 = Some (nth_row 0 numbered3_whole)) as H1 by reflexivity.
  assert (nth_row 0 numbered3_whole !! "stackpos" = Some (-1)%Q) as Hp1
    by (vm_compute; reflexivity).
  split; [exact Hf|]. split; [exact Hp1|].
  exact (centerwhole_stack_on_whole_numbers stack3 numbered3_whole 0 _ _ Hf H1 Hp1).
Defined.

(** ** The default parameters *)

Lemma zero_lt_half_below i : 1 ≤ i → (0 < of_nat i - (1#2))%Q.
Proof. intros Hi. unfold of_nat, Qlt, Qminus, Qplus, Qopp, inject_Z. simpl. lia. Qed.

(** X10. Under the default parameters no warning is issued and the dots
    are stacked upwards: every row returned carries an index
    [countidx >= 1] and the position [countidx - 1/2], which is above the
    axis. *)
Theorem default_params_stack_upwards res sp data out :
  returned (setup_data res DEFAULT_PARAMS sp data) = Ok out →
  warnings (setup_data res DEFAULT_PARAMS sp data) = [] ∧
  Forall (λ r : row, ∃ i : nat,
    1 ≤ i ∧ r !! "countidx" = Some (of_nat i) ∧
    r !! "stackpos" = Some (of_nat i - (1#2))%Q ∧ (0 < of_nat i - (1#2))%Q) (rows out).
Proof.
  intros Hret. split; [by rewrite warnings_issued|].
  apply setup_data_Ok in Hret as (staged & _ & Hst & Hbb).
  apply stack_bins_stacked_dot in Hst.
  eapply bounding_boxes_Forall; [|exact Hbb|].
  - intros c v r Hc (i & Hi & Hci & Hsp & Hpos). exists i.
    rewrite !lookup_insert_ne
      by (intros ->; revert Hc; rewrite !elem_of_cons, elem_of_nil;
          intuition discriminate).
    done.
  - eapply Forall_impl; [exact Hst|]. intros r (n & i & pos & [Hi _] & Hci & Hsp & Hrule).
    exists i. inversion Hrule as [|Hsd E| | |]; subst pos.
    split; [done|]. split; [done|]. split; [done|]. by apply zero_lt_half_below.
Qed.

Lemma default_params_stack_upwards_witness :
  returned (setup_data res0 DEFAULT_PARAMS sp0 df0) = Ok out_default ∧
  warnings (setup_data res0 DEFAULT_PARAMS sp0 df0) = [] ∧
  Forall (λ r : row, ∃ i : nat,
    1 ≤ i ∧ r !! "countidx" = Some (of_nat i) ∧
    r !! "stackpos" = Some (of_nat i - (1#2))%Q ∧ (0 < of_nat i - (1#2))%Q)
    (rows out_default).
Proof.
  assert (returned (setup_data res0 DEFAULT_PARAMS sp0 df0) = Ok out_default) as H
    by (vm_compute; reflexivity).
  split; [exact H|]. exact (default_params_stack_upwards res0 sp0 df0 out_default H).
Defined.

(** ** More on geom_dotplot.draw_group *)

Section dotplot_drawing.
Context {Colors PanelParams : Type}.
Variable coord_transform : DataFrame → PanelParams → result transformed * DataFrame.
Variable coord_range : PanelParams → (Q * Q) * (Q * Q).
Variable to_rgba : list Q → list Q → result Colors.
Variables ax_width ax_height : Q.

Local Abbreviation draw_group := (draw_group coord_transform coord_range to_rgba ax_width ax_height).
Local Abbreviation transform := (@transform Colors PanelParams coord_transform).
Local Abbreviation factor := (factor coord_range ax_width ax_height).

Lemma transform_axes σ data pp :
  draw.axes (snd (transform data pp σ)) = draw.axes σ.
Proof.
  unfold geom_dotplot.transform.
  by destruct (coord_transform (draw.heap σ !!! data) pp) as [[[|d']|e] d1].
Qed.

Ltac run_or_stop :=
  rewrite ?bind_run, ?read_col_run, ?lift_run; simpl;
  match goal with
  | |- context [pd.get_col ?c ?d] =>
      destruct (pd.get_col c d); [|left; eexists; split; reflexivity]
  | |- context [to_rgba ?x ?y] =>
      destruct (to_rgba x y); [|left; eexists; split; reflexivity]
  | |- context [pd.first ?x] =>
      destruct (pd.first x); [|left; eexists; split; reflexivity]
  end.

(** The axes change in the last statement only. *)
Lemma draw_group_axes σ data pp params :
  (∃ e, fst (draw_group data pp params σ) = Raise e ∧
        draw.axes (snd (draw_group data pp params σ)) = draw.axes σ) ∨
  (fst (draw_group data pp params σ) = Ok () ∧
   ∃ coll, draw.axes (snd (draw_group data pp params σ)) = draw.axes σ ++ [coll] ∧
           rasterized coll = p_raster params).
Proof.
  pose proof (transform_axes σ data pp) as Hax.
  unfold geom_dotplot.draw_group. rewrite bind_run.
  destruct (transform data pp σ) as [[l|e] σ1]; simpl in *;
    [|left; eexists; split; [reflexivity|done]].
  rewrite <- Hax.
  destruct (decide (p_binaxis params = "x"));
    [|destruct (decide (p_binaxis params = "y"))];
    repeat run_or_stop; rewrite ?bind_run; simpl;
    [| |left; eexists; split; reflexivity].
  all: right; split; [done|]; by eexists.
Qed.

(** X11. [draw_group] draws all of a group or nothing: when it raises,
    the axes hold what they held before; when it returns, exactly one
    collection has been added, rasterized as [raster] says. *)
Theorem draw_group_all_or_nothing σ data pp params :
  let run := draw_group data pp params σ in
  match fst run with
  | Raise _ => draw.axes (snd run) = draw.axes σ
  | Ok _ => ∃ coll, draw.axes (snd run) = draw.axes σ ++ [coll] ∧
                    rasterized coll = p_raster params
  end.
Proof.
  intros run. subst run.
  destruct (draw_group_axes σ data pp params) as [(e & -> & Hsame)|[-> Hcoll]]; done.
Qed.

Ltac step_in H :=
  rewrite bind_run in H;
  first [erewrite read_col_at in H by eassumption | rewrite lift_run in H];
  match type of H with
  | context [match ?r with Ok _ => _ | Raise _ => _ end] =>
      let E := fresh "E" in destruct r eqn:E; [|done]
  end.

(** X12. The collection is coloured from the frame drawn: its face
    colours are [to_rgba(fill, alpha)] and its edge colours
    [to_rgba(color, alpha)] of that frame's columns, and it holds one
    patch per row. *)
Theorem collection_colours σ data d pp params σ' :
  draw.heap σ !! data = Some d →
  draw_group data pp params σ = (Ok (), σ') →
  ∃ dt coll,
    frame_drawn (coord_transform d pp) = Some dt ∧
    draw.axes σ' = draw.axes σ ++ [coll] ∧
    to_rgba (series "fill" dt) (series "alpha" dt) = Ok (facecolors coll) ∧
    to_rgba (series "color" dt) (series "alpha" dt) = Ok (edgecolors coll) ∧
    length (patches coll) = length (rows dt).
Proof.
  intros Hd Hrun.
  destruct (transform_run coord_transform σ data d pp Hd)
    as (σ1 & Hax & _ & [(e & Ht & _)|(l & dt & Ht & Hdt & Hl)]);
    unfold geom_dotplot.draw_group in Hrun; rewrite bind_run, Ht in Hrun; [done|].
  do 9 step_in Hrun.
  repeat match goal with H : pd.get_col ?c dt = Ok ?v |- _ =>
    apply get_col_Ok in H as (_ & -> & _) end.
  rewrite bind_run in Hrun.
  destruct (decide (p_binaxis params = "x")) as [Hx|Hx];
    [|destruct (decide (p_binaxis params = "y")) as [Hy|Hy]; [|done]].
  all: do 2 step_in Hrun.
  all: repeat match goal with H : pd.get_col ?c ?d = Ok ?v |- _ =>
    apply get_col_Ok in H as (_ & -> & _) end.
  all: simpl in Hrun; injection Hrun as <-; simpl; rewrite Hax.
  all: eexists dt, _; split; [done|]; split; [reflexivity|]; simpl.
  all: repeat match goal with H : Ok _ = Ok _ |- _ => injection H as <- end.
  all: unfold series; split; [eassumption|]; split; [eassumption|].
  all: by rewrite length_zip_with, !length_fmap, ?length_zip_with, !length_fmap,
         ?Nat.min_id.
Qed.

(** X13. Nothing is drawn from an empty frame or for a bin axis other
    than ['x'] and ['y']: the method raises and the axes hold what they
    held before. *)
Theorem nothing_to_draw σ data d dt pp params :
  draw.heap σ !! data = Some d →
  frame_drawn (coord_transform d pp) = Some dt →
  rows dt = [] ∨ (p_binaxis params ≠ "x" ∧ p_binaxis params ≠ "y") →
  raises (fst (draw_group data pp params σ)) ∧
  draw.axes (snd (draw_group data pp params σ)) = draw.axes σ.
Proof.
  intros Hd Hdt Hno.
  destruct (draw_group data pp params σ) as [[[]|e] σ'] eqn:Hrun.
  - exfalso.
    destruct (draw_group_Ok _ _ _ _ _ _ _ _ _ _ _ Hd Hrun)
      as (dt' & fill & color & b0 & bws & Hdt' & Hbw & _ & Hax & _).
    assert (dt' = dt) as -> by congruence.
    destruct Hno as [Hnil|[Hx Hy]]; [|by destruct Hax].
    apply get_col_Ok in Hbw as (_ & Hbw & _). by rewrite Hnil in Hbw.
  - split; [by exists e|].
    destruct (draw_group_axes σ data pp params) as [(e' & _ & Hsame)|[HOk _]];
      rewrite Hrun in *; [done|discriminate].
Qed.

End dotplot_drawing.

Lemma collection_colours_witness :
  draw.heap σ_dots !! 0 = Some dots ∧
  draw_group identity_transform ranges0 rgba0 6 4 0 () draw_x σ_dots = (Ok (), snd drawn) ∧
  ∃ dt coll,
    frame_drawn (identity_transform dots ()) = Some dt ∧
    draw.axes (snd drawn) = draw.axes σ_dots ++ [coll] ∧
    rgba0 (series "fill" dt) (series "alpha" dt) = Ok (facecolors coll) ∧
    rgba0 (series "color" dt) (series "alpha" dt) = Ok (edgecolors coll) ∧
    length (patches coll) = length (rows dt).
Proof.
  assert (draw.heap σ_dots !! 0 = Some dots) as H1 by reflexivity.
  assert (draw_group identity_transform ranges0 rgba0 6 4 0 () draw_x σ_dots
          = (Ok (), snd drawn)) as H2 by (vm_compute; reflexivity).
  split; [exact H1|]. split; [exact H2|].
  exact (collection_colours identity_transform ranges0 rgba0 6 4
           σ_dots 0 dots () draw_x (snd drawn) H1 H2).
Defined.

Lemma nothing_to_draw_witness :
  draw.heap σ_no_dots !! 0 = Some no_dots ∧
  frame_drawn (identity_transform no_dots ()) = Some no_dots ∧
  raises (fst (draw_group identity_transform ranges0 rgba0 6 4 0 () draw_x σ_no_dots)) ∧
  draw.axes (snd (draw_group identity_transform ranges0 rgba0 6 4 0 () draw_x σ_no_dots))
  = draw.axes σ_no_dots.
Proof.
  assert (draw.heap σ_no_dots !! 0 = Some no_dots) as H1 by reflexivity.
  assert (frame_drawn (identity_transform no_dots ()) = Some no_dots) as H2
    by reflexivity.
  assert (rows no_dots = [] ∨ (p_binaxis draw_x ≠ "x" ∧ p_binaxis draw_x ≠ "y")) as H3
    by (left; reflexivity).
  split; [exact H1|]. split; [exact H2|].
  exact (nothing_to_draw identity_transform ranges0 rgba0 6 4
           σ_no_dots 0 no_dots no_dots () draw_x H1 H2 H3).
Defined.

(** ** More on geom_pointrange *)

Section pointrange_more.
Import geom_pointrange.
Context {Artist PanelParams Coord Params Layer : Type}.
Variables (linerange point : @geom_draw Artist PanelParams Coord Params).
Variables (path_legend point_legend : @geom_legend Artist Layer).
Variable stroke : Q.
Variable lyr_geom : Layer → option Params.
Variable fatten : Params → result Q.

(** X15. A frame without a [size] column gets its line range but not its
    point: once [geom_linerange] has drawn, the method raises
    [KeyError 'size'], the axes hold what the line range drew, and the
    caller's frame is as it was. *)
Theorem linerange_drawn_before_size_is_read σ data d pp coord params :
  draw.heap σ !! data = Some d →
  "size" ∉ columns d →
  fst (fst (linerange d pp coord (draw.axes σ) params)) = Ok () →
  let run := draw_group linerange point stroke fatten data pp coord params σ in
  fst run = Raise (KeyError "size") ∧
  draw.axes (snd run) = snd (linerange d pp coord (draw.axes σ) params) ∧
  draw.heap (snd run) !! data = Some d.
Proof.
  intros Hd Hsize Hlr run. subst run.
  destruct (linerange d pp coord (draw.axes σ) params) as [[r1 d1] ax1] eqn:E.
  simpl in Hlr. subst r1.
  rewrite (pointrange_draw_group_run _ _ _ _ _ _ _ _ _ _ _ _ _ Hd E).
  unfold fattened, pd.get_col, pd.has_col. rewrite bool_decide_eq_false_2 by done.
  simpl. split; [done|]. split; [done|]. by rewrite lookup_app_l by by eapply lookup_lt_Some.
Qed.

(** What one call of [draw_legend] does, case by case. *)
Lemma pointrange_draw_legend_run σ data d lyr geom r1 d1 da1 :
  draw.heap σ !! data = Some d →
  lyr_geom lyr = Some geom →
  path_legend d (draw.axes σ) lyr = (r1, d1, da1) →
  draw_legend path_legend point_legend stroke lyr_geom fatten data lyr σ
  = Asserted
      match r1 with
      | Raise e => (Raise e, {| draw.heap := <[data := d1]> (draw.heap σ);
                                draw.axes := da1 |})
      | Ok _ =>
          match fattened stroke fatten geom d1 with
          | Raise e => (Raise e, {| draw.heap := <[data := d1]> (draw.heap σ);
                                    draw.axes := da1 |})
          | Ok d' =>
              let '(r2, d2, da2) := point_legend d' da1 lyr in
              (r2, {| draw.heap := <[data := d2]> (draw.heap σ); draw.axes := da2 |})
          end
      end.
Proof.
  intros Hd Hgeom Hpath. pose proof (lookup_lt_Some _ _ _ Hd) as Hlt.
  unfold draw_legend. rewrite Hgeom. f_equal.
  rewrite bind_run. erewrite call_run; [|exact Hd|exact Hpath].
  destruct r1 as [[]|e]; [|done].
  assert (<[data := d1]> (draw.heap σ) !! data = Some d1) as Hd1
    by by apply list_lookup_insert_eq.
  rewrite bind_run. erewrite read_col_at; [|simpl; exact Hd1]. unfold fattened.
  destruct (pd.get_col "size" d1) as [size|e]; [|done]. simpl.
  rewrite bind_run, lift_run. destruct (fatten geom) as [f|e]; [|done]. simpl.
  rewrite bind_run. erewrite write_col_run; [|simpl; exact Hd1]. simpl.
  rewrite list_insert_insert_eq.
  rewrite bind_run. erewrite write_scalar_run;
    [|simpl; by apply list_lookup_insert_eq].
  simpl. rewrite list_insert_insert_eq.
  destruct (point_legend _ da1 lyr) as [[r2 d2] da2] eqn:Hpt.
  erewrite call_run; [|simpl; by apply list_lookup_insert_eq|simpl; exact Hpt].
  simpl. by rewrite list_insert_insert_eq.
Qed.

(** X16. [draw_legend] fails its assertion, before anything is drawn,
    exactly when the layer has no geom.  Otherwise [geom_path] draws its
    key from the caller's frame itself, and [geom_point] then draws from
    that frame as [geom_path] left it, with [size] multiplied by the
    geom's [fatten] and [stroke] set; no frame is copied, and the frame
    [geom_point] leaves is the caller's. *)
Theorem legend_draws_path_then_fattened_point σ data d lyr :
  draw.heap σ !! data = Some d →
  let run := draw_legend path_legend point_legend stroke lyr_geom fatten data lyr σ in
  (run = AssertionError ↔ lyr_geom lyr = None) ∧
  ∀ geom d1 da1 d' r2 d2 da2,
    lyr_geom lyr = Some geom →
    path_legend d (draw.axes σ) lyr = (Ok (), d1, da1) →
    fattened stroke fatten geom d1 = Ok d' →
    point_legend d' da1 lyr = (r2, d2, da2) →
    run = Asserted (r2, {| draw.heap := <[data := d2]> (draw.heap σ);
                           draw.axes := da2 |}).
Proof.
  intros Hd run. subst run. split.
  - unfold draw_legend. destruct (lyr_geom lyr); split; done.
  - intros geom d1 da1 d' r2 d2 da2 Hgeom Hpath Hfat Hpt.
    rewrite (pointrange_draw_legend_run _ _ _ _ _ _ _ _ Hd Hgeom Hpath).
    by rewrite Hfat, Hpt.
Qed.

End pointrange_more.

Lemma linerange_drawn_before_size_is_read_witness :
  draw.heap σ_nosize !! 0 = Some interval_nosize ∧
  ("size" ∉ columns interval_nosize) ∧
  fst (fst (draws "linerange" interval_nosize () () (draw.axes σ_nosize) 4%Q)) = Ok () ∧
  let run := geom_pointrange.draw_group (draws "linerange") (draws "point") (1#2) Ok
               0 () () 4%Q σ_nosize in
  fst run = Raise (KeyError "size") ∧
  draw.axes (snd run)
  = snd (draws "linerange" interval_nosize () () (draw.axes σ_nosize) 4%Q) ∧
  draw.heap (snd run) !! 0 = Some interval_nosize.
Proof.
  assert (draw.heap σ_nosize !! 0 = Some interval_nosize) as H1 by reflexivity.
  assert ("size" ∉ columns interval_nosize) as H2.
  { apply (bool_decide_unpack _). vm_compute. exact I. }
  assert (fst (fst (draws "linerange" interval_nosize () () (draw.axes σ_nosize) 4%Q))
          = Ok ()) as H3 by reflexivity.
  split; [exact H1|]. split; [exact H2|]. split; [exact H3|].
  exact (linerange_drawn_before_size_is_read (draws "linerange") (draws "point")
           (1#2) Ok σ_nosize 0 interval_nosize () () 4%Q H1 H2 H3).
Defined.

Lemma legend_draws_path_then_fattened_point_witness :
  draw.heap σ_interval !! 0 = Some interval ∧
  geom_pointrange.fattened (1#2) Ok 4%Q interval = Ok fat_interval ∧
  geom_pointrange.draw_legend (legend_draws "path") (legend_draws "point")
    (1#2) (λ _ : unit, Some 4%Q) Ok 0 () σ_interval
  = geom_pointrange.Asserted
      (Ok (), {| draw.heap := <[0 := fat_interval]> (draw.heap σ_interval);
                 draw.axes := ["path"; "point"] |}).
Proof.
  assert (draw.heap σ_interval !! 0 = Some interval) as H1 by reflexivity.
  assert (geom_pointrange.fattened (1#2) Ok 4%Q interval = Ok fat_interval) as H2
    by (vm_compute; reflexivity).
  split; [exact H1|]. split; [exact H2|].
  destruct (legend_draws_path_then_fattened_point (legend_draws "path")
              (legend_draws "point") (1#2) (λ _ : unit, Some 4%Q) Ok
              σ_interval 0 interval () H1) as [_ Hrun].
  exact (Hrun 4%Q interval ["path"] fat_interval (Ok ()) fat_interval ["path"; "point"]
           eq_refl eq_refl H2 eq_refl).
Defined.

(** ** geom_dotplot.draw_legend *)

(** X17. The legend key needs [alpha], [fill] and [color], read in that
    order: with all three the box comes back the same size with exactly
    one artist more, a round marker at the centre of the box, half the
    box's width across, in the row's colours; otherwise the method raises
    [KeyError] for the first of the three that is missing. *)
Theorem legend_key_is_one_centred_dot (data : row) (da : DrawingArea) :
  match draw_legend data da with
  | Ok da' =>
      da_width da' = da_width da ∧ da_height da' = da_height da ∧
      ∃ key, da_artists da' = da_artists da ++ [key] ∧
             marker key = "o" ∧
             Forall2 Qeq (xdata key) [da_width da / 2]%Q ∧
             Forall2 Qeq (ydata key) [da_height da / 2]%Q ∧
             (markersize key == da_width da / 2)%Q ∧
             data !! "alpha" = Some (line_alpha key) ∧
             data !! "fill" = Some (markerfacecolor key) ∧
             data !! "color" = Some (markeredgecolor key)
  | Raise e =>
      ∃ before c after,
        ["alpha"; "fill"; "color"] = before ++ c :: after ∧
        e = KeyError c ∧ data !! c = None ∧
        Forall (λ c', is_Some (data !! c')) before
  end.
Proof.
  unfold draw_legend, pd.get_cell.
  destruct (data !! "alpha") as [a|] eqn:Ea; simpl;
    [|exists [], "alpha", ["fill"; "color"]; by repeat split].
  destruct (data !! "fill") as [f|] eqn:Ef; simpl;
    [|exists ["alpha"], "fill", ["color"]; repeat split; try done;
      by repeat constructor].
  destruct (data !! "color") as [c|] eqn:Ec; simpl;
    [|exists ["alpha"; "fill"], "color", []; repeat split; try done;
      by repeat constructor].
  split; [done|]. split; [done|]. eexists. split; [done|]. simpl.
  split; [done|]. split; [repeat constructor; field|].
  split; [repeat constructor; field|]. done.
Qed.
